(** * Auto-responses on hh.ru: a shallow embedding of [main.py]

    The script drives a browser through Playwright.  The embedding keeps
    the Python code's own structure:

    - Python [str] values are lists of Unicode code points;
    - every call into Playwright (and [time.time()]) is a [Call] executed
      by an arbitrary environment [exec], which answers with a value or
      raises, and moves the world on;
    - Python functions are computations in a state-and-exception monad
      whose state is the world together with the log of the calls made;
    - [try]/[except Exception] is [catch]; the [while] loop of the outcome
      classifier takes a bound on its number of rounds;
    - the two conversions of the script are as the interpreter makes them:
      [int()] of a digit string raises [ValueError] beyond the
      interpreter's limit on the number of digits, and
      [int(pause_ms * 0.6)] is computed in binary64 and raises
      [OverflowError] when [pause_ms] is too large for a [float].

    Console output ([print]) is not modelled. *)

From Stdlib Require Import List ZArith NArith QArith Bool Lia Lqa String Ascii SpecFloat.
Import ListNotations.

Set Implicit Arguments.
Local Open Scope N_scope.

(** ** Python strings *)

Definition pystr := list N.

(** Source literals are written as UTF-8 text and decoded to code points. *)
Fixpoint utf8 (s : string) : pystr :=
  match s with
  | EmptyString => []
  | String a r =>
    let b := N_of_ascii a in
    if b <? 128 then b :: utf8 r
    else match r with
         | EmptyString => []
         | String a1 r1 =>
           let b1 := N_of_ascii a1 mod 64 in
           if b <? 224 then ((b mod 32) * 64 + b1) :: utf8 r1
           else match r1 with
                | EmptyString => []
                | String a2 r2 =>
                  let b2 := N_of_ascii a2 mod 64 in
                  if b <? 240 then ((b mod 16) * 4096 + b1 * 64 + b2) :: utf8 r2
                  else match r2 with
                       | EmptyString => []
                       | String a3 r3 =>
                         let b3 := N_of_ascii a3 mod 64 in
                         ((b mod 8) * 262144 + b1 * 4096 + b2 * 64 + b3) :: utf8 r3
                       end
                end
         end
  end.

Notation "'u' s" := (utf8 s%string) (at level 1, s at level 0, only parsing).

(** The double quote character, U+0022. *)
Definition dq : pystr := [34].

(** The line feed, U+000A. *)
Definition nl : pystr := [10].

(** The no-break space U+00A0 and the space U+0020. *)
Definition NBSP : N := 160.
Definition SPACE : N := 32.

(** [str.replace(old, new)] for one-character [old] and [new]. *)
Definition replace (old new : N) (text : pystr) : pystr :=
  map (fun c => if c =? old then new else c) text.

(** [a == b] on strings. *)
Fixpoint pystr_eqb (a b : pystr) : bool :=
  match a, b with
  | [], [] => true
  | x :: a', y :: b' => (x =? y) && pystr_eqb a' b'
  | _, _ => false
  end.

(** Python's truth value of a string: non-empty. *)
Definition truthy (s : pystr) : bool :=
  match s with [] => false | _ :: _ => true end.

(** Truth value of an [Optional[str]]: [None] and the empty string are false. *)
Definition truthy_opt (o : option pystr) : bool :=
  match o with None => false | Some s => truthy s end.

(** [str.isspace] of one character, the set [str.strip()] removes. *)
Definition is_space (c : N) : bool :=
  ((9 <=? c) && (c <=? 13)) || ((28 <=? c) && (c <=? 32)) || (c =? 133) || (c =? 160)
  || (c =? 5760) || ((8192 <=? c) && (c <=? 8202)) || (c =? 8232) || (c =? 8233)
  || (c =? 8239) || (c =? 8287) || (c =? 12288).

Fixpoint lstrip (s : pystr) : pystr :=
  match s with
  | [] => []
  | c :: r => if is_space c then lstrip r else s
  end.

Definition strip (s : pystr) : pystr := rev (lstrip (rev (lstrip s))).

Fixpoint strip_prefix (p s : pystr) : option pystr :=
  match p, s with
  | [], _ => Some s
  | _ :: _, [] => None
  | a :: p', b :: s' => if a =? b then strip_prefix p' s' else None
  end.

(** ** Exceptions *)

(** Exceptions below [Exception]: Playwright's timeout and its other
    errors, and the two built-in ones the conversions of the script can
    raise. *)
Inductive Exception := TimeoutError | PlaywrightError | ValueError | OverflowError.

(** What a Python expression or call gives: a value, or a raised exception. *)
Inductive Res (A : Type) :=
| Ok (a : A)
| Raised (e : Exception).
Arguments Ok {A} a.
Arguments Raised {A} e.

(** ** Decimal digits and the two regular expressions *)

(** What the script reads of its interpreter.

    [decimal] is the Unicode decimal-digit table: [decimal c] is the value
    of [c] when [c] is a decimal digit (general category Nd).  Both the
    [\d] of [re] on [str] patterns and [int()] read this table.

    [int_max_str_digits] is [sys.get_int_max_str_digits()], the limit on
    the number of digits [int()] converts: 4300 unless the interpreter was
    started with another value, and 0 when there is no limit (as in the
    interpreters older than the limit). *)
Class Interpreter := {
  decimal : N -> option Z;
  int_max_str_digits : Z
}.

Section Digits.

Context {U : Interpreter}.

Definition is_digit (c : N) : bool :=
  match decimal c with Some _ => true | None => false end.

Definition digit_val (c : N) : Z :=
  match decimal c with Some d => d | None => 0%Z end.

(** The integer a string of decimal digits denotes. *)
Definition int_of_digits (ds : pystr) : Z :=
  fold_left (fun acc c => (10 * acc + digit_val c)%Z) ds 0%Z.

(** [int()] refuses a string of more than 640 digits when a limit is set
    and the string has more digits than the limit. *)
Definition int_too_long (ds : pystr) : bool :=
  let digits := Z.of_nat (List.length ds) in
  (640 <? digits)%Z && (0 <? int_max_str_digits)%Z && (int_max_str_digits <? digits)%Z.

(** [int(s)] for a string of decimal digits. *)
Definition py_int (ds : pystr) : Res Z :=
  if int_too_long ds then Raised ValueError else Ok (int_of_digits ds).

(** The longest prefix of digits, and what follows it: a greedy [\d*]. *)
Fixpoint span_digits (s : pystr) : pystr * pystr :=
  match s with
  | [] => ([], [])
  | c :: r =>
    if is_digit c then let (ds, rest) := span_digits r in (c :: ds, rest)
    else ([], s)
  end.

(** [re.search(r"(\d+)", s)]: group 1 of the leftmost match. *)
Fixpoint search_digits (s : pystr) : option pystr :=
  match s with
  | [] => None
  | c :: r => if is_digit c then Some (fst (span_digits s)) else search_digits r
  end.

Definition _parse_int (text : pystr) : Res (option Z) :=
  if negb (truthy text) then Ok None
  else
    let text := replace NBSP SPACE text in
    match search_digits text with
    | Some g1 =>
      match py_int g1 with
      | Ok n => Ok (Some n)
      | Raised e => Raised e
      end
    | None => Ok None
    end.

(** [re.search(r"/vacancy/(\d+)", s)]: group 1 of the leftmost match. *)
Definition match_vacancy_here (s : pystr) : option pystr :=
  match strip_prefix (u"/vacancy/") s with
  | Some rest =>
    match fst (span_digits rest) with
    | [] => None
    | ds => Some ds
    end
  | None => None
  end.

Fixpoint search_vacancy (s : pystr) : option pystr :=
  match match_vacancy_here s with
  | Some ds => Some ds
  | None => match s with [] => None | _ :: r => search_vacancy r end
  end.

End Digits.

(** The ASCII digits [0-9]. *)
Definition ascii_decimal (c : N) : option Z :=
  if (48 <=? c) && (c <=? 57) then Some (Z.of_N (c - 48)) else None.

(** What the proofs use of the table: below U+0660 (ARABIC-INDIC DIGIT
    ZERO, the first decimal digit after the ASCII ones) the decimal digits
    are exactly [0-9]. *)
Definition ascii_below_0660 (U : Interpreter) : Prop :=
  forall c, c < 1632 -> decimal c = ascii_decimal c.

(** The interpreter with the ASCII digits only and the default limit of
    [int()]. *)
Definition ascii_only : Interpreter :=
  {| decimal := ascii_decimal; int_max_str_digits := 4300 |}.

(** ** The browser seen from the script *)

(** Selectors, built as the source's literals. *)
Definition data_qa (name : pystr) : pystr := u"[data-qa=" ++ dq ++ name ++ dq ++ u"]".
Definition has_text (sel text : pystr) : pystr := sel ++ u":has-text(" ++ dq ++ text ++ dq ++ u")".

Definition sel_vacancy : pystr := data_qa (u"vacancy-serp__vacancy").
Definition sel_response : pystr := data_qa (u"vacancy-serp__vacancy_response").
Definition sel_title_text : pystr := data_qa (u"serp-item__title-text").
Definition sel_title_link : pystr := u"a" ++ data_qa (u"serp-item__title").
Definition sel_watchers : pystr := has_text (u"span") (u"Сейчас смотрят").
Definition sel_title_container : pystr := data_qa (u"title-container").
Definition sel_title_description : pystr :=
  has_text (data_qa (u"title-description")) (u"Для отклика необходимо ответить").
Definition sel_dialog : pystr := u"[role=" ++ dq ++ u"dialog" ++ dq ++ u"]".
Definition sel_required_hint : pystr :=
  has_text (data_qa (u"form-helper-description")) (u"Сопроводительное письмо обязательное").
Definition sel_letter_input : pystr := data_qa (u"vacancy-response-popup-form-letter-input").
Definition sel_submit : pystr := u"button[type=" ++ dq ++ u"submit" ++ dq ++ u"]".
Definition sel_submit_alt : pystr := has_text (u"button") (u"Откликнуться").
Definition sel_success : pystr := has_text (u"#dialog-description") (u"Отклик отправлен").
Definition sel_popup_close : pystr := data_qa (u"response-popup-close").
Definition sel_hide_icon : pystr := u"button" ++ data_qa (u"vacancy__blacklist-show-add").
Definition sel_hide_menu_item : pystr := u"button" ++ data_qa (u"vacancy__blacklist-menu-add-vacancy").
Definition scroll_to_bottom_js : pystr := u"window.scrollTo(0, document.body.scrollHeight)".

(** Playwright locators are descriptions of elements, resolved by the
    browser each time they are used. *)
Inductive Locator :=
| page_locator (sel : pystr)                       (* page.locator(sel) *)
| page_locator_has (sel : pystr) (has : Locator)   (* page.locator(sel, has=...) *)
| sub_locator (base : Locator) (sel : pystr)       (* base.locator(sel) *)
| first (l : Locator)                              (* l.first *)
| nth_ (l : Locator) (i : nat).                    (* l.nth(i) *)

Inductive ElementState := visible | hidden | detached.

(** The calls the script makes on its environment. *)
Inductive Call :=
| Url                                                   (* page.url *)
| Goto (url : pystr)                                    (* page.goto(url, wait_until="domcontentloaded") *)
| GoBack                                                (* page.go_back(wait_until="domcontentloaded") *)
| Evaluate (js : pystr)                                 (* page.evaluate(js) *)
| WaitForTimeout (ms : Z)                               (* page.wait_for_timeout(ms) *)
| WaitForSelector (sel : pystr) (timeout : Z)           (* page.wait_for_selector(sel, timeout=) *)
| Count (l : Locator)                                   (* l.count() *)
| InnerText (l : Locator)                               (* l.inner_text() *)
| GetAttribute (l : Locator) (name : pystr)             (* l.get_attribute(name) *)
| Click (l : Locator) (timeout : option Z)              (* l.click([timeout=]) *)
| Fill (l : Locator) (text : pystr)                     (* l.fill(text) *)
| WaitFor (l : Locator) (state : ElementState) (timeout : Z)  (* l.wait_for(state=, timeout=) *)
| ScrollIntoViewIfNeeded (l : Locator) (timeout : Z)    (* l.scroll_into_view_if_needed(timeout=) *)
| TimeTime.                                             (* time.time() *)

(** The type of what a call returns. *)
Definition ret_type (c : Call) : Type :=
  match c with
  | Url => pystr
  | Count _ => nat
  | InnerText _ => pystr
  | GetAttribute _ _ => option pystr
  | TimeTime => Q
  | _ => unit
  end.

(** The environment: a world and the effect of every call on it.  Nothing
    is assumed of it: any call may raise, and the page may change under
    any call. *)
Class Env := {
  World : Type;
  exec : forall c : Call, World -> Res (ret_type c) * World
}.

(** One entry of the log: a call and its answer. *)
Inductive Event := Ev (c : Call) (r : Res (ret_type c)).

(** Calls that act on the page, as opposed to reading it or waiting. *)
Definition acts_on_page (c : Call) : bool :=
  match c with
  | Goto _ | GoBack | Evaluate _ | Click _ _ | Fill _ _ | ScrollIntoViewIfNeeded _ _ => true
  | _ => false
  end.

Definition is_click (c : Call) : bool :=
  match c with Click _ _ => true | _ => false end.

Definition is_navigation (c : Call) : bool :=
  match c with Goto _ | GoBack => true | _ => false end.

Definition is_scroll_to_bottom (c : Call) : bool :=
  match c with Evaluate _ => true | _ => false end.

Definition ev_call (e : Event) : Call := match e with Ev c _ => c end.

Definition ev_raised (e : Event) : option Exception :=
  match e with Ev _ (Raised x) => Some x | Ev _ (Ok _) => None end.

(** ** The monad of the script *)

Section Script.

Context {U : Interpreter} {E : Env}.

(** The state: the world, and the log of calls, newest first. *)
Record St := { world : World; log : list Event }.

Definition M (A : Type) : Type := St -> Res A * St.

Definition ret {A} (a : A) : M A := fun s => (Ok a, s).

Definition bind {A B} (m : M A) (k : A -> M B) : M B :=
  fun s => match m s with
           | (Ok a, s') => k a s'
           | (Raised e, s') => (Raised e, s')
           end.

(** [try: m except Exception: h] *)
Definition catch {A} (m : M A) (h : Exception -> M A) : M A :=
  fun s => match m s with
           | (Ok a, s') => (Ok a, s')
           | (Raised e, s') => h e s'
           end.

Definition call (c : Call) : M (ret_type c) :=
  fun s => let (r, w) := exec c (world s) in
           (r, {| world := w; log := Ev c r :: log s |}).

(** A Python expression that makes no call: its value, or what it raises. *)
Definition lift {A} (r : Res A) : M A := fun s => (r, s).

End Script.

Notation "x <- m ;; k" := (bind m (fun x => k))
  (at level 61, m at next level, right associativity).
Notation "m ;; k" := (bind m (fun _ => k))
  (at level 61, right associativity).

(** ** The functions of [main.py] *)

Record Vacancy := {
  vacancy_id : pystr;
  title : pystr;
  watchers_text : pystr;
  watchers_count : option Z;
  description : option pystr
}.

(** The strings [click_apply_on_card] returns. *)
Inductive Outcome :=
| sent
| test_required
| cover_letter_required
| cover_letter_filled
| extra_steps
| no_apply_button
| unknown.

(** [time.time() < deadline] *)
Definition Qltb (x y : Q) : bool := negb (Qle_bool y x).

(** The [float] nearest to [0.6]: 5404319552844595 / 2^53. *)
Definition float_0_6 : spec_float := S754_finite false 5404319552844595 (-53).

(** An [int] as a [float] operand: the nearest [float], ties to even, and
    [OverflowError] when the [int] is too large. *)
Definition float_of_int (n : Z) : Res spec_float :=
  match binary_normalize 53 1024 n 0 false with
  | S754_infinity _ => Raised OverflowError
  | f => Ok f
  end.

(** [int(f)]: truncation towards zero. *)
Definition int_of_float (f : spec_float) : Res Z :=
  match f with
  | S754_zero _ => Ok 0%Z
  | S754_finite s m e =>
    let a := match e with
             | Z0 => Zpos m
             | Zpos _ => (Zpos m * 2 ^ e)%Z
             | Zneg p => (Zpos m / 2 ^ Zpos p)%Z
             end in
    Ok (if s then (- a)%Z else a)
  | S754_infinity _ => Raised OverflowError
  | S754_nan => Raised ValueError
  end.

(** [int(pause_ms * 0.6)], in the interpreter's binary64 arithmetic. *)
Definition int_times_0_6 (pause_ms : Z) : Res Z :=
  match float_of_int pause_ms with
  | Ok f => int_of_float (SFmul 53 1024 f float_0_6)
  | Raised e => Raised e
  end.

(** [x or ""] on the result of [get_attribute]. *)
Definition or_empty (o : option pystr) : pystr :=
  match o with
  | Some s => if truthy s then s else []
  | None => []
  end.

Section Functions.

Context {U : Interpreter} {E : Env}.

Local Open Scope nat_scope.

(** *** SERP: loading *)

(** The [for i in range(1, max_scrolls + 1)] loop; [rounds] is the number of
    values of [i] still to come. *)
Fixpoint scroll_rounds (cards : Locator) (pause_ms stable_rounds_needed : Z)
         (rounds : nat) (prev : nat) (stable : Z) : M nat :=
  match rounds with
  | O => ret prev
  | S rounds' =>
    call (Evaluate scroll_to_bottom_js) ;;
    call (WaitForTimeout pause_ms) ;;
    ms <- lift (int_times_0_6 pause_ms) ;;
    call (WaitForTimeout ms) ;;
    cur <- call (Count cards) ;;
    if prev <? cur then
      scroll_rounds cards pause_ms stable_rounds_needed rounds' cur 0%Z
    else
      let stable := (stable + 1)%Z in
      if (stable >=? stable_rounds_needed)%Z then ret prev
      else scroll_rounds cards pause_ms stable_rounds_needed rounds' prev stable
  end.

Definition scroll_until_all_loaded (pause_ms max_scrolls stable_rounds_needed : Z) : M unit :=
  let cards := page_locator sel_vacancy in
  prev <- call (Count cards) ;;
  scroll_rounds cards pause_ms stable_rounds_needed (Z.to_nat max_scrolls) prev 0%Z ;;
  ret tt.

(** *** SERP: parsing *)

(** The [for i in range(cards.count())] loop from index [i] on, [n] cards
    still to visit. *)
Fixpoint collect_cards (cards : Locator) (limit : Z) (n i : nat)
         (result : list Vacancy) : M (list Vacancy) :=
  match n with
  | O => ret result
  | S n' =>
    let card := nth_ cards i in
    let resp := first (sub_locator card sel_response) in
    c <- call (Count resp) ;;
    if c =? 0 then collect_cards cards limit n' (S i) result
    else
      t <- call (InnerText (first (sub_locator card sel_title_text))) ;;
      let title := strip t in
      h <- call (GetAttribute (first (sub_locator card sel_title_link)) (u"href")) ;;
      let href := or_empty h in
      match search_vacancy href with
      | None => collect_cards cards limit n' (S i) result
      | Some vacancy_id =>
        let watchers_loc := first (sub_locator card sel_watchers) in
        wc <- call (Count watchers_loc) ;;
        watchers_text <-
          (if negb (wc =? 0) then (w <- call (InnerText watchers_loc) ;; ret (strip w))
           else ret (u"Сейчас смотрят —")) ;;
        watchers_count <- lift (_parse_int watchers_text) ;;
        let result := result ++ [ {| vacancy_id := vacancy_id; title := title;
                                     watchers_text := watchers_text;
                                     watchers_count := watchers_count;
                                     description := None |} ] in
        if (Z.of_nat (List.length result) >=? limit)%Z then ret result
        else collect_cards cards limit n' (S i) result
      end
  end.

Definition collect_vacancies_for_apply (limit : Z) : M (list Vacancy) :=
  call (WaitForSelector sel_vacancy 30000) ;;
  let cards := page_locator sel_vacancy in
  n <- call (Count cards) ;;
  collect_cards cards limit n 0 [].

Definition find_card_by_vacancy_id (vacancy_id : pystr) : Locator :=
  first (page_locator_has sel_vacancy
           (page_locator (u"a" ++ data_qa (u"serp-item__title")
                          ++ u"[href*=" ++ dq ++ u"/vacancy/" ++ vacancy_id ++ dq ++ u"]"))).

(** *** Redirect to the employer's questions *)

Definition is_test_page : M bool :=
  let container := first (page_locator sel_title_container) in
  n <- call (Count container) ;;
  if n =? 0 then ret false
  else
    let desc := first (page_locator sel_title_description) in
    m <- call (Count desc) ;;
    ret (0 <? m).

Definition safe_go_back_to_serp (fallback_url : pystr) : M unit :=
  catch (call GoBack) (fun _ => call (Goto fallback_url)) ;;
  call (WaitForSelector sel_vacancy 15000).

(** *** The mandatory cover letter modal *)

Definition is_cover_letter_required_modal : M bool :=
  let dlg := first (page_locator sel_dialog) in
  n <- call (Count dlg) ;;
  if n =? 0 then ret false
  else
    let required_hint := first (sub_locator dlg sel_required_hint) in
    let letter_input := first (sub_locator dlg sel_letter_input) in
    h <- call (Count required_hint) ;;
    if 0 <? h then (l <- call (Count letter_input) ;; ret (0 <? l))
    else ret false.

Definition fill_and_submit_cover_letter (cover_letter_text : pystr) (timeout_ms : Z) : M bool :=
  catch
    (let dlg := first (page_locator sel_dialog) in
     call (WaitFor dlg visible timeout_ms) ;;
     let letter_input := first (sub_locator dlg sel_letter_input) in
     call (WaitFor letter_input visible timeout_ms) ;;
     call (Click letter_input None) ;;
     call (Fill letter_input cover_letter_text) ;;
     call (WaitForTimeout 500) ;;
     n <- call (Count (first (sub_locator dlg sel_submit))) ;;
     let submit_btn :=
       if n =? 0 then first (sub_locator dlg sel_submit_alt)
       else first (sub_locator dlg sel_submit) in
     m <- call (Count submit_btn) ;;
     if m =? 0 then ret false
     else
       call (Click submit_btn None) ;;
       call (WaitForTimeout 2000) ;;
       let success_indicator := first (page_locator sel_success) in
       k <- call (Count success_indicator) ;;
       if 0 <? k then ret true
       else catch (call (WaitFor dlg hidden 3000) ;; ret true) (fun _ => ret false))
    (fun _ => ret false).

Definition close_response_modal_if_open : M unit :=
  let close_btn := first (page_locator sel_popup_close) in
  n <- call (Count close_btn) ;;
  if negb (n =? 0) then
    call (Click close_btn None) ;;
    catch (call (WaitFor (first (page_locator sel_dialog)) hidden 5000)) (fun _ => ret tt)
  else ret tt.

(** *** Hiding a vacancy *)

Definition hide_vacancy_card (card : Locator) (timeout_ms : Z) : M bool :=
  let hide_icon := first (sub_locator card sel_hide_icon) in
  n <- call (Count hide_icon) ;;
  if n =? 0 then ret false
  else
    call (ScrollIntoViewIfNeeded card timeout_ms) ;;
    clicked <- catch (call (Click hide_icon (Some timeout_ms)) ;; ret true)
                     (fun _ => ret false) ;;
    if negb clicked then ret false
    else
      let menu_item := first (page_locator sel_hide_menu_item) in
      chosen <- catch (call (WaitFor menu_item visible timeout_ms) ;;
                       call (Click menu_item (Some timeout_ms)) ;;
                       ret true)
                      (fun _ => ret false) ;;
      if negb chosen then ret false
      else
        catch (call (WaitFor card detached 3000)) (fun _ => ret tt) ;;
        ret true.

(** *** One-click apply *)

(** The body of the [while] loop up to the final sleep: [Some o] when the
    round returns [o], [None] when it falls through to the sleep. *)
Definition poll_round (original_url : pystr) (cover_letter_text : option pystr)
  : M (option Outcome) :=
  s <- call (Count (page_locator sel_success)) ;;
  if negb (s =? 0) then ret (Some sent)
  else
    modal <- is_cover_letter_required_modal ;;
    if modal then
      if truthy_opt cover_letter_text then
        (* a truthy [cover_letter_text] is a string: [or_empty] is that string *)
        filled <- fill_and_submit_cover_letter (or_empty cover_letter_text) 10000 ;;
        if filled then
          call (WaitForTimeout 1000) ;;
          s' <- call (Count (page_locator sel_success)) ;;
          if negb (s' =? 0) then ret (Some sent)
          else ret (Some cover_letter_filled)
        else
          close_response_modal_if_open ;;
          ret (Some cover_letter_required)
      else
        close_response_modal_if_open ;;
        ret (Some cover_letter_required)
    else
      url <- call Url ;;
      if negb (pystr_eqb url original_url) then
        t <- is_test_page ;;
        if t then
          safe_go_back_to_serp original_url ;;
          ret (Some test_required)
        else
          safe_go_back_to_serp original_url ;;
          ret (Some extra_steps)
      else ret None.

(** [while time.time() < deadline: ...]; at most [fuel] rounds are run, and
    the result is [None] when the loop is still running after them. *)
Fixpoint poll_loop (fuel : nat) (original_url : pystr) (cover_letter_text : option pystr)
         (deadline : Q) : M (option Outcome) :=
  match fuel with
  | O => ret None
  | S fuel' =>
    now <- call TimeTime ;;
    if Qltb now deadline then
      r <- poll_round original_url cover_letter_text ;;
      match r with
      | Some o => ret (Some o)
      | None =>
        call (WaitForTimeout 200) ;;
        poll_loop fuel' original_url cover_letter_text deadline
      end
    else ret (Some unknown)
  end.

Definition click_apply_on_card (fuel : nat) (card : Locator)
           (cover_letter_text : option pystr) (poll_timeout_sec : Q)
  : M (option Outcome) :=
  original_url <- call Url ;;
  call (ScrollIntoViewIfNeeded card 10000) ;;
  let apply_btn := first (sub_locator card sel_response) in
  n <- call (Count apply_btn) ;;
  if n =? 0 then ret (Some no_apply_button)
  else
    call (Click apply_btn None) ;;
    t <- call TimeTime ;;
    let deadline := Qplus t poll_timeout_sec in
    poll_loop fuel original_url cover_letter_text deadline.

(** *** The cover letter *)

Definition generate_cover_letter (vacancy_title : pystr)
           (vacancy_description custom_template : option pystr) : pystr :=
  if truthy_opt custom_template then or_empty custom_template
  else
    u"Здравствуйте!" ++ nl ++ nl
    ++ u"Меня заинтересовала вакансия " ++ dq ++ vacancy_title ++ dq ++ u"." ++ nl ++ nl
    ++ u"Готов обсудить детали и ответить на ваши вопросы." ++ nl ++ nl
    ++ u"С уважением".

(** *** The apply loop of [run] *)

(** One iteration of [for idx, v in enumerate(vacancies, start=1)]; [None]
    when the classifier is still polling after [fuel] rounds. *)
Definition run_apply_one (fuel : nat) (cover_letter_template : option pystr)
           (v : Vacancy) : M (option unit) :=
  let card := find_card_by_vacancy_id (vacancy_id v) in
  n <- call (Count card) ;;
  if n =? 0 then ret (Some tt)
  else
    let cover_letter := generate_cover_letter (title v) (description v) cover_letter_template in
    status <- click_apply_on_card fuel card (Some cover_letter) 6 ;;
    match status with
    | None => ret None
    | Some sent => ret (Some tt)
    | Some cover_letter_filled => ret (Some tt)
    | Some _ =>
      let card_again := find_card_by_vacancy_id (vacancy_id v) in
      k <- call (Count card_again) ;;
      if 0 <? k then (hide_vacancy_card card_again 5000 ;; ret (Some tt))
      else ret (Some tt)
    end.

Fixpoint run_apply_loop (fuel : nat) (cover_letter_template : option pystr)
         (vacancies : list Vacancy) : M (option unit) :=
  match vacancies with
  | [] => ret (Some tt)
  | v :: rest =>
    r <- run_apply_one fuel cover_letter_template v ;;
    match r with
    | None => ret None
    | Some _ => run_apply_loop fuel cover_letter_template rest
    end
  end.

End Functions.

(** ** Specification-side notions *)

Section SpecSide.

Context {U : Interpreter}.

(** [run] is the first maximal run of decimal digits of [t]: no digit
    before it, digits only in it, and no digit right after it. *)
Definition first_digit_run (t run : pystr) : Prop :=
  exists pre post,
    t = pre ++ run ++ post
    /\ Forall (fun c => is_digit c = false) pre
    /\ run <> []
    /\ Forall (fun c => is_digit c = true) run
    /\ match post with [] => True | c :: _ => is_digit c = false end.

(** What [int()] makes of the first maximal digit run of the text as it is
    given, with no normalization at all. *)
Definition first_digit_run_value (t : pystr) : Res (option Z) :=
  match search_digits t with
  | Some run =>
    match py_int run with
    | Ok n => Ok (Some n)
    | Raised e => Raised e
    end
  | None => Ok None
  end.

(** [href] has the shape [.../vacancy/<digits>...] and [id] is the digit
    string of its leftmost such place. *)
Definition vacancy_link (href id : pystr) : Prop :=
  exists pre post,
    href = pre ++ u"/vacancy/" ++ id ++ post
    /\ id <> []
    /\ Forall (fun c => is_digit c = true) id
    /\ match post with [] => True | c :: _ => is_digit c = false end.

(** The item [v] was made from a card of the listing that, when the parser
    looked, had an apply button and a link of the vacancy shape with the
    item's identifier in it. *)
Definition from_card (cards : Locator) (new : list Event) (v : Vacancy) : Prop :=
  exists i n href,
    In (Ev (Count (first (sub_locator (nth_ cards i) sel_response))) (Ok (S n))) new
    /\ In (Ev (GetAttribute (first (sub_locator (nth_ cards i) sel_title_link)) (u"href"))
              (Ok href)) new
    /\ vacancy_link (or_empty href) (vacancy_id v).

End SpecSide.

(** ** The log of calls in the statements *)

Section Logs.

Context {E : Env}.

(** [new] is what the computation from [s] to [s'] added to the log. *)
Definition added (s s' : St) (new : list Event) : Prop := log s' = new ++ log s.

(** Whatever [m] does, what it adds to the log satisfies [P]. *)
Definition emits {A} (P : list Event -> Prop) (m : M A) : Prop :=
  forall s r s', m s = (r, s') -> exists new, added s s' new /\ P new.

End Logs.

(** The calls of a log, newest first. *)
Definition calls (new : list Event) : list Call := map ev_call new.

(** Locators the statements name. *)
Definition success_toast : Locator := page_locator sel_success.
Definition apply_button (card : Locator) : Locator := first (sub_locator card sel_response).

Definition hide_icon (card : Locator) : Locator := first (sub_locator card sel_hide_icon).
Definition menu_item : Locator := first (page_locator sel_hide_menu_item).

(** The answer of a [count()] call that returned. *)
Definition ev_count (e : Event) : list nat :=
  match e with
  | Ev c r =>
    match c return Res (ret_type c) -> list nat with
    | Count _ => fun r => match r with Ok n => [n] | Raised _ => [] end
    | _ => fun _ => []
    end r
  end.

(** The card counts a log shows, oldest first. *)
Definition count_answers (new : list Event) : list nat := flat_map ev_count (rev new).

(** The number of scrolls to the bottom in a log. *)
Definition scrolls (new : list Event) : nat :=
  List.length (filter (fun e => is_scroll_to_bottom (ev_call e)) new).

(** The number of consecutive rounds, up to the last one, in which the
    count did not grow: [prev] is the largest count seen before the rounds
    [cs], and [k] the number of non-growing rounds just before them. *)
Fixpoint streak_after (prev k : nat) (cs : list nat) : nat :=
  match cs with
  | [] => k
  | c :: cs' => if (prev <? c)%nat then streak_after c 0 cs' else streak_after prev (S k) cs'
  end.

Definition streak (prev : nat) (cs : list nat) : nat := streak_after prev 0 cs.

(** The first call of [close_response_modal_if_open]: the count of the
    close button of the modal.  No other function counts that locator. *)
Definition is_close_count (c : Call) : bool :=
  match c with
  | Count (first (page_locator s)) => pystr_eqb s sel_popup_close
  | _ => false
  end.

(** The first call of [fill_and_submit_cover_letter] as the classifier
    makes it, with its answer. *)
Definition fill_attempt (r : Res unit) : Event :=
  Ev (WaitFor (first (page_locator sel_dialog)) visible 10000) r.

(** No dismissal of the modal in the log. *)
Definition quiet (new : list Event) : Prop :=
  Forall (fun e => is_close_count (ev_call e) = false) new.

(** The log has an attempt to fill the letter in. *)
Definition filled (new : list Event) : Prop :=
  exists after r before, new = after ++ fill_attempt r :: before /\ quiet before.

(** No dismissal of the modal that an attempt to fill the letter in does
    not precede. *)
Definition guarded (new : list Event) : Prop := quiet new \/ filled new.

Definition any_log (new : list Event) : Prop := True.

(** ** Sample pages

    Small environments on which the theorems are exercised.  The world of
    a sample page holds what the script can change: the scroll position,
    the clock, and how many clicks and returns to the listing were made. *)

Record ToyWorld := {
  toy_scroll : Z;
  toy_clock : Q;
  toy_clicks : nat;
  toy_backs : nat
}.

Record Scenario := {
  sc_url : ToyWorld -> pystr;
  sc_count : ToyWorld -> Locator -> nat;
  sc_text : Locator -> pystr;
  sc_attr : Locator -> option pystr;
  sc_raises : ToyWorld -> Call -> option Exception
}.

Definition toy_answer (sc : Scenario) (w : ToyWorld) (c : Call) : Res (ret_type c) :=
  match sc_raises sc w c with
  | Some e => Raised e
  | None =>
    match c return Res (ret_type c) with
    | Url => Ok (sc_url sc w)
    | Count l => Ok (sc_count sc w l)
    | InnerText l => Ok (sc_text sc l)
    | GetAttribute l _ => Ok (sc_attr sc l)
    | TimeTime => Ok (toy_clock w)
    | Goto _ => Ok tt
    | GoBack => Ok tt
    | Evaluate _ => Ok tt
    | WaitForTimeout _ => Ok tt
    | WaitForSelector _ _ => Ok tt
    | Click _ _ => Ok tt
    | Fill _ _ => Ok tt
    | WaitFor _ _ _ => Ok tt
    | ScrollIntoViewIfNeeded _ _ => Ok tt
    end
  end.

Definition toy_next (c : Call) (w : ToyWorld) : ToyWorld :=
  match c with
  | WaitForTimeout ms =>
    {| toy_scroll := toy_scroll w; toy_clock := Qred (toy_clock w + inject_Z ms / 1000);
       toy_clicks := toy_clicks w; toy_backs := toy_backs w |}
  | Evaluate _ =>
    {| toy_scroll := toy_scroll w + 1000; toy_clock := toy_clock w;
       toy_clicks := toy_clicks w; toy_backs := toy_backs w |}
  | ScrollIntoViewIfNeeded _ _ =>
    {| toy_scroll := 640; toy_clock := toy_clock w;
       toy_clicks := toy_clicks w; toy_backs := toy_backs w |}
  | Click _ _ =>
    {| toy_scroll := toy_scroll w; toy_clock := toy_clock w;
       toy_clicks := S (toy_clicks w); toy_backs := toy_backs w |}
  | GoBack | Goto _ =>
    {| toy_scroll := toy_scroll w; toy_clock := toy_clock w;
       toy_clicks := toy_clicks w; toy_backs := S (toy_backs w) |}
  | _ => w
  end.

(** A call that raises leaves the sample world as it was. *)
Definition toy_env (sc : Scenario) : Env :=
  {| World := ToyWorld;
     exec := fun c w =>
       match sc_raises sc w c with
       | Some _ => (toy_answer sc w c, w)
       | None => (toy_answer sc w c, toy_next c w)
       end |}.

Definition toy_start : ToyWorld :=
  {| toy_scroll := 0; toy_clock := 0; toy_clicks := 0; toy_backs := 0 |}.

(** The selector a locator ends with, and the card index it goes through. *)
Fixpoint last_sel (l : Locator) : pystr :=
  match l with
  | page_locator s => s
  | page_locator_has s _ => s
  | sub_locator _ s => s
  | first l' => last_sel l'
  | nth_ l' _ => last_sel l'
  end.

Fixpoint card_index (l : Locator) : option nat :=
  match l with
  | page_locator _ => None
  | page_locator_has _ _ => None
  | sub_locator b _ => card_index b
  | first l' => card_index l'
  | nth_ _ i => Some i
  end.

Definition matches (present : list pystr) (l : Locator) : nat :=
  if existsb (pystr_eqb (last_sel l)) present then 1%nat else 0%nat.

Definition serp_url : pystr := u"https://hh.ru/search/vacancy?text=React".
Definition questions_url : pystr := u"https://hh.ru/applicant/vacancy_response?vacancyId=101".

(** A page given by the selectors that match something, which may depend
    on the world, and by the calls that raise. *)
Definition simple_page (url : ToyWorld -> pystr) (present : ToyWorld -> list pystr)
           (raises : ToyWorld -> Call -> option Exception) : Scenario :=
  {| sc_url := url;
     sc_count := fun w l => matches (present w) l;
     sc_text := fun _ => [];
     sc_attr := fun _ => None;
     sc_raises := raises |}.

Definition never_raises (w : ToyWorld) (c : Call) : option Exception := None.

(** After the click on the apply button both the success toast and the
    mandatory cover letter modal are on the page. *)
Definition page_toast_and_modal : Scenario :=
  simple_page (fun _ => serp_url)
    (fun w => if (0 <? toy_clicks w)%nat
              then [sel_response; sel_success; sel_dialog; sel_required_hint; sel_letter_input]
              else [sel_response])
    never_raises.

(** The card has left the page: scrolling it into view times out. *)
Definition page_card_gone : Scenario :=
  simple_page (fun _ => serp_url) (fun _ => [])
    (fun _ c => match c with ScrollIntoViewIfNeeded _ _ => Some TimeoutError | _ => None end).

(** The apply button is covered: the click on it times out. *)
Definition page_button_covered : Scenario :=
  simple_page (fun _ => serp_url) (fun _ => [sel_response])
    (fun _ c => match c with Click _ _ => Some TimeoutError | _ => None end).

(** The click redirects to the employer's questions, and the listing does
    not come back in time after the return. *)
Definition page_redirect_listing_lost : Scenario :=
  simple_page (fun w => if (0 <? toy_clicks w)%nat then questions_url else serp_url)
    (fun w => if (0 <? toy_clicks w)%nat then [sel_title_container; sel_title_description]
              else [sel_response])
    (fun _ c => match c with WaitForSelector _ _ => Some TimeoutError | _ => None end).

(** A card with no apply button. *)
Definition page_no_apply_button : Scenario :=
  simple_page (fun _ => serp_url) (fun _ => [sel_vacancy; sel_title_text]) never_raises.

(** The modal opens after the click on the apply button (click 1); the
    letter is typed (click 2) and submitted (click 3), after which the
    modal is gone; the toast shows or not. *)
Definition page_modal (toast_after_submit : bool) : Scenario :=
  simple_page (fun _ => serp_url)
    (fun w => if (toy_clicks w =? 0)%nat then [sel_response]
              else if (toy_clicks w <? 3)%nat
                   then [sel_response; sel_dialog; sel_required_hint; sel_letter_input;
                         sel_submit; sel_popup_close]
                   else if toast_after_submit then [sel_response; sel_success]
                        else [sel_response])
    never_raises.

(** The modal has no submit control, and it has a close button. *)
Definition page_modal_no_submit : Scenario :=
  simple_page (fun _ => serp_url)
    (fun w => if (toy_clicks w =? 0)%nat then [sel_response]
              else [sel_response; sel_dialog; sel_required_hint; sel_letter_input;
                    sel_popup_close])
    never_raises.

(** A listing of four cards: card 0 applies to vacancy 101, card 1 has no
    apply button, the link of card 2 is not a vacancy link, card 3 applies
    to vacancy 77 and shows its viewers. *)
Definition page_listing : Scenario :=
  {| sc_url := fun _ => serp_url;
     sc_count := fun _ l =>
       match card_index l with
       | None => if pystr_eqb (last_sel l) sel_vacancy then 4%nat else 0%nat
       | Some i =>
         if pystr_eqb (last_sel l) sel_response
         then (if (i =? 1)%nat then 0%nat else 1%nat)
         else if pystr_eqb (last_sel l) sel_watchers
              then (if (i =? 3)%nat then 1%nat else 0%nat)
              else 1%nat
       end;
     sc_text := fun l =>
       if pystr_eqb (last_sel l) sel_watchers then u"Сейчас смотрят 12" else u" React developer ";
     sc_attr := fun l =>
       match card_index l with
       | Some 0%nat => Some (u"https://hh.ru/vacancy/101?query=React")
       | Some 2%nat => Some (u"https://hh.ru/employer/5")
       | Some 3%nat => Some (u"/vacancy/77")
       | _ => None
       end;
     sc_raises := never_raises |}.

(** A listing that grows by ten cards per scroll up to forty. *)
Definition page_growing : Scenario :=
  {| sc_url := fun _ => serp_url;
     sc_count := fun w _ => Z.to_nat (Z.min 40 (20 + toy_scroll w / 100));
     sc_text := fun _ => [];
     sc_attr := fun _ => None;
     sc_raises := never_raises |}.

(** A card with its hide button; the card stays in the document after it
    was hidden. *)
Definition page_hide_button : Scenario :=
  simple_page (fun _ => serp_url) (fun _ => [sel_hide_icon; sel_hide_menu_item])
    (fun _ c => match c with WaitFor _ detached _ => Some TimeoutError | _ => None end).

(** A card whose hide button cannot be clicked. *)
Definition page_hide_button_covered : Scenario :=
  simple_page (fun _ => serp_url) (fun _ => [sel_hide_icon])
    (fun _ c => match c with Click _ _ => Some TimeoutError | _ => None end).

Definition a_card : Locator := find_card_by_vacancy_id (u"101").

Definition start {E : Env} (w : World) : St := {| world := w; log := [] |}.

Definition toy_state (sc : Scenario) (w : ToyWorld) : @St (toy_env sc) :=
  @start (toy_env sc) w.

(** The world right after the click on the apply button. *)
Definition toy_clicked : ToyWorld :=
  {| toy_scroll := 640; toy_clock := 0; toy_clicks := 1; toy_backs := 0 |}.

(** A vacancy of the sample listing. *)
Definition a_vacancy : Vacancy :=
  {| vacancy_id := u"101"; title := u"React developer"; watchers_text := u"Сейчас смотрят 3";
     watchers_count := Some 3%Z; description := None |}.


(** ** More locators the statements name *)

Definition dialog : Locator := first (page_locator sel_dialog).
Definition letter_input : Locator := first (sub_locator dialog sel_letter_input).
Definition submit_button : Locator := first (sub_locator dialog sel_submit).
Definition submit_button_alt : Locator := first (sub_locator dialog sel_submit_alt).
Definition close_button : Locator := first (page_locator sel_popup_close).

(** ** Kinds of calls *)

(** Every call of the log is of the kind [Q]. *)
Definition only (Q : Call -> bool) (new : list Event) : Prop :=
  Forall (fun e => Q (ev_call e) = true) new.

Definition is_count (c : Call) : bool :=
  match c with Count _ => true | _ => false end.

(** Calls that leave the page as it is: reads and waits. *)
Definition leaves_page (c : Call) : bool := negb (acts_on_page c).


(** A click on the apply button of a card. *)
Definition is_apply_click (c : Call) : bool :=
  match c with
  | Click (first (sub_locator _ s)) _ => pystr_eqb s sel_response
  | _ => false
  end.

Definition not_apply_click (c : Call) : bool := negb (is_apply_click c).
Definition not_click (c : Call) : bool := negb (is_click c).

(** The log has exactly one click on an apply button: that of [card], with
    answer [r]. *)
Definition clicked_once (card : Locator) (r : Res unit) (new : list Event) : Prop :=
  exists after before,
    new = after ++ Ev (Click (apply_button card) None) r :: before
    /\ only not_apply_click after /\ only not_apply_click before.

(** The card whose hide button is there while the card itself cannot be
    scrolled into view. *)
Definition page_hide_card_gone : Scenario :=
  simple_page (fun _ => serp_url) (fun _ => [sel_hide_icon])
    (fun _ c => match c with ScrollIntoViewIfNeeded _ _ => Some TimeoutError | _ => None end).

(** The modal has a close button that cannot be clicked. *)
Definition page_close_covered : Scenario :=
  simple_page (fun _ => serp_url) (fun _ => [sel_popup_close])
    (fun _ c => match c with Click _ _ => Some TimeoutError | _ => None end).

(** Whatever [m] returns satisfies [R]. *)
Definition yields {E : Env} {A} (R : A -> Prop) (m : M A) : Prop :=
  forall s a s', m s = (Ok a, s') -> R a.

(** ** The clock *)

(** Calls that cannot set the clock back: all but a sleep of negative
    length.  The script only sleeps for positive constants. *)
Definition sane_call (c : Call) : bool :=
  match c with
  | WaitForTimeout ms => (0 <=? ms)%Z
  | _ => true
  end.

(** What the termination of the polling loop needs of the environment:
    [time.time()] reads a clock of the world, no call of the script sets
    that clock back, and a sleep that returns has taken at least its
    length. *)
Definition clock_laws {E : Env} (clock : World -> Q) : Prop :=
  (forall w t, fst (exec TimeTime w) = Ok t -> (t == clock w)%Q)
  /\ (forall c w, sane_call c = true -> (clock w <= clock (snd (exec c w)))%Q)
  /\ (forall ms w,
         fst (exec (WaitForTimeout ms) w) = Ok tt ->
         (clock w + inject_Z ms / 1000 <= clock (snd (exec (WaitForTimeout ms) w)))%Q).

(** The clock does not go back while [m] runs. *)
Definition forward {E : Env} {A} (clock : World -> Q) (m : M A) : Prop :=
  forall s r s', m s = (r, s') -> (clock (world s) <= clock (world s'))%Q.

(** The apply button is there and a click on it changes nothing. *)
Definition page_silent : Scenario :=
  simple_page (fun _ => serp_url) (fun _ => [sel_response]) never_raises.

(** The click redirects to the employer's questions ([questions] true) or
    to some other page; going back in history fails or not. *)
Definition page_redirect (questions go_back_fails : bool) : Scenario :=
  simple_page (fun w => if (toy_backs w =? 0)%nat && (0 <? toy_clicks w)%nat
                        then questions_url else serp_url)
    (fun w => if (toy_backs w =? 0)%nat && (0 <? toy_clicks w)%nat
              then (if questions then [sel_title_container; sel_title_description]
                    else [sel_title_container])
              else [sel_vacancy; sel_response])
    (fun _ c => match c with
                | GoBack => if go_back_fails then Some PlaywrightError else None
                | _ => None
                end).

(** ** More notions for the listing items *)

(** The first and the last character of [s], if any, are not white space. *)
Definition no_outer_space (s : pystr) : Prop :=
  match s with [] => True | c :: _ => is_space c = false end
  /\ match rev s with [] => True | c :: _ => is_space c = false end.

(** What every item of the parser satisfies, whatever the page. *)
Definition item_invariant {U : Interpreter} (v : Vacancy) : Prop :=
  _parse_int (watchers_text v) = Ok (watchers_count v)
  /\ description v = None
  /\ no_outer_space (title v)
  /\ no_outer_space (watchers_text v).

(** Decimal digits have the values 0 to 9. *)
Definition digit_range (U : Interpreter) : Prop :=
  forall c d, decimal c = Some d -> (0 <= d <= 9)%Z.


(** ** The query tables of [search_queries.py] *)

Definition REACT_NEXTJS_QUERIES : list pystr :=
  [
    (u"(React OR " ++ dq ++ u"React.js" ++ dq ++
      u" OR Next.js OR NextJS) AND (TypeScript OR JavaScript) NOT (стажер OR intern OR junior OR " ++
      dq ++ u"без опыта" ++ dq ++ u")");
    (u"(" ++ dq ++ u"Next.js" ++ dq ++ u" OR NextJS OR " ++ dq ++ u"Next JS" ++ dq ++
      u") AND (TypeScript OR JavaScript) AND (SSR OR " ++ dq ++ u"Server Side Rendering" ++ dq ++
      u" OR " ++ dq ++ u"Server Components" ++ dq ++ u") NOT (стажер OR intern)");
    (u"(React OR " ++ dq ++ u"React.js" ++ dq ++
      u" OR Next.js) AND (TypeScript OR JavaScript) AND (Redux OR Zustand OR MobX) AND (Tailwind OR " ++
      dq ++ u"styled-components" ++ dq ++ u" OR CSS) NOT (стажер OR intern OR junior)");
    (u"(React OR Next.js) AND (Node.js OR Express OR NestJS) AND (TypeScript OR JavaScript) NOT (стажер OR intern)");
    (u"(React OR Next.js) AND (React Native OR " ++ dq ++ u"React Native" ++ dq ++
      u") AND (TypeScript OR JavaScript) NOT (стажер OR intern)");
    (u"(React OR Next.js) AND (GraphQL OR Apollo OR Relay) AND (TypeScript OR JavaScript) NOT (стажер OR intern)");
    (u"(React OR Next.js) AND (Jest OR Vitest OR " ++ dq ++ u"React Testing Library" ++ dq ++
      u" OR Cypress) AND (TypeScript OR JavaScript) NOT (стажер OR intern)")
  ].

Definition QA_LEAD_QUERIES : list pystr :=
  [
    (u"(" ++ dq ++ u"QA Lead" ++ dq ++ u" OR " ++ dq ++ u"Lead QA" ++ dq ++ u" OR " ++ dq ++
      u"Test Lead" ++ dq ++ u" OR " ++ dq ++ u"QA Team Lead" ++ dq ++ u" OR " ++ dq ++
      u"Head of QA" ++ dq ++ u" OR " ++ dq ++ u"руководитель тестирования" ++ dq ++ u" OR " ++
      dq ++ u"лид тестирования" ++ dq ++
      u") AND (python OR pytest OR playwright OR selenium) NOT (стажер OR intern OR junior)");
    (u"(" ++ dq ++ u"QA Lead" ++ dq ++ u" OR " ++ dq ++ u"Lead QA" ++ dq ++
      u") AND (python OR pytest) AND (API OR REST OR swagger) NOT (стажер OR intern OR junior)")
  ].

Definition BACKEND_DEVELOPER_QUERIES : list pystr :=
  [
    (u"(Python OR " ++ dq ++ u"Python разработчик" ++ dq ++
      u") AND (Django OR Flask OR FastAPI) AND (PostgreSQL OR MySQL OR MongoDB) NOT (стажер OR intern OR junior)");
    (u"(Java OR " ++ dq ++ u"Java разработчик" ++ dq ++
      u") AND (Spring OR Spring Boot) AND (PostgreSQL OR MySQL) NOT (стажер OR intern OR junior)")
  ].

(** [d.get(key, default)] on a dict literal, whose keys are distinct. *)
Definition dict_get {V : Type} (d : list (pystr * V)) (key : pystr) (default : V) : V :=
  match find (fun kv => pystr_eqb (fst kv) key) d with
  | Some kv => snd kv
  | None => default
  end.

(** [l[0]]; the tables are not empty, so no [IndexError] is modelled. *)
Definition item0 (l : list pystr) : pystr := nth 0 l [].

Definition get_default_query (role : pystr) : pystr :=
  let queries_map :=
      [ (u"react_nextjs", item0 REACT_NEXTJS_QUERIES);
        (u"qa_lead", item0 QA_LEAD_QUERIES);
        (u"backend", item0 BACKEND_DEVELOPER_QUERIES) ] in
  dict_get queries_map role (item0 REACT_NEXTJS_QUERIES).

Definition get_all_queries (role : pystr) : list pystr :=
  let queries_map :=
      [ (u"react_nextjs", REACT_NEXTJS_QUERIES);
        (u"qa_lead", QA_LEAD_QUERIES);
        (u"backend", BACKEND_DEVELOPER_QUERIES) ] in
  dict_get queries_map role REACT_NEXTJS_QUERIES.

(** The listing with the card on it; the click on the apply button shows
    the success toast. *)
Definition page_sent : Scenario :=
  simple_page (fun _ => serp_url)
    (fun w => if (0 <? toy_clicks w)%nat then [sel_vacancy; sel_response; sel_success]
              else [sel_vacancy; sel_response])
    never_raises.

(** The number of clicks on apply buttons in a log. *)
Definition apply_clicks (new : list Event) : nat :=
  List.length (filter (fun e => is_apply_click (ev_call e)) new).

(** Two vacancies of the sample listing. *)
Definition two_vacancies : list Vacancy :=
  [ {| vacancy_id := u"101"; title := u"React developer"; watchers_text := u"Сейчас смотрят 3";
       watchers_count := Some 3%Z; description := None |};
    {| vacancy_id := u"77"; title := u"QA Lead"; watchers_text := u"Сейчас смотрят —";
       watchers_count := None; description := None |} ].

(** At most [n] clicks on apply buttons. *)
Definition at_most (n : nat) (new : list Event) : Prop := (apply_clicks new <= n)%nat.

(** A run of 4301 digits [1], one digit more than the default limit of
    [int()]. *)
Definition long_run : pystr := repeat 49 4301.

(** In the log, the parser looked at card [i] and passed it over: the card
    had no apply button, or its link had not the vacancy shape. *)
Definition passed_over {U : Interpreter} (cards : Locator) (new : list Event) (i : nat) : Prop :=
  In (Ev (Count (apply_button (nth_ cards i))) (Ok 0%nat)) new
  \/ exists n href,
      In (Ev (Count (apply_button (nth_ cards i))) (Ok (S n))) new
      /\ In (Ev (GetAttribute (first (sub_locator (nth_ cards i) sel_title_link)) (u"href"))
                (Ok href)) new
      /\ search_vacancy (or_empty href) = None.

(** In the log, card [i] had an apply button and a vacancy link, whose
    identifier is that of the item [v]. *)
Definition made_from {U : Interpreter} (cards : Locator) (new : list Event) (i : nat)
           (v : Vacancy) : Prop :=
  exists n href,
    In (Ev (Count (apply_button (nth_ cards i))) (Ok (S n))) new
    /\ In (Ev (GetAttribute (first (sub_locator (nth_ cards i) sel_title_link)) (u"href"))
              (Ok href)) new
    /\ search_vacancy (or_empty href) = Some (vacancy_id v).

(** ** Polling rounds of the classifier *)

Section Rounds.

Context {E : Env}.

(** [rounds] polling rounds of the classifier, from the state [s] to the
    state [s'], in which nothing fired: the deadline had not passed, there
    was no toast and no modal, the URL was the original one, and the round
    ended with the sleep of 200 ms. *)
Inductive idle_rounds (original_url : pystr) (deadline : Q) : nat -> St -> St -> Prop :=
| idle_none (s : St) : idle_rounds original_url deadline 0 s s
| idle_more (rounds : nat) (s s1 s2 s3 s4 s5 s' : St) (now : Q) (url : pystr) :
    call TimeTime s = (Ok now, s1) ->
    Qltb now deadline = true ->
    call (Count success_toast) s1 = (Ok 0%nat, s2) ->
    is_cover_letter_required_modal s2 = (Ok false, s3) ->
    call Url s3 = (Ok url, s4) ->
    pystr_eqb url original_url = true ->
    call (WaitForTimeout 200) s4 = (Ok tt, s5) ->
    idle_rounds original_url deadline rounds s5 s' ->
    idle_rounds original_url deadline (S rounds) s s'.


End Rounds.

(** The success toast and the mandatory cover letter modal are both on the
    page from 0.2 s after the click on the apply button. *)
Definition page_late_toast_and_modal : Scenario :=
  simple_page (fun _ => serp_url)
    (fun w => if (0 <? toy_clicks w)%nat && Qle_bool (2 # 10)%Q (toy_clock w)
              then [sel_response; sel_success; sel_dialog; sel_required_hint; sel_letter_input]
              else [sel_response])
    never_raises.


(** The card is on the listing; its modal has no submit control, and it
    has a close button, the click on which does not make the dialog go. *)
Definition page_modal_stuck : Scenario :=
  simple_page (fun _ => serp_url)
    (fun w => if (toy_clicks w =? 0)%nat then [sel_vacancy; sel_response]
              else [sel_vacancy; sel_response; sel_dialog; sel_required_hint; sel_letter_input;
                    sel_popup_close])
    (fun _ c => match c with WaitFor _ hidden _ => Some TimeoutError | _ => None end).

(** A listing that grows by ten cards with every scroll. *)
Definition page_always_growing : Scenario :=
  {| sc_url := fun _ => serp_url;
     sc_count := fun w _ => Z.to_nat (20 + toy_scroll w / 100);
     sc_text := fun _ => [];
     sc_attr := fun _ => None;
     sc_raises := never_raises |}.

(** The letter of the sample runs. *)
Definition a_letter : pystr := u"Добрый день!".

(** The sample listing, the viewer text of whose cards is a run of 4301
    digits. *)
Definition page_long_count : Scenario :=
  {| sc_url := sc_url page_listing;
     sc_count := fun _ l =>
       match card_index l with
       | None => sc_count page_listing toy_start l
       | Some _ => 1%nat
       end;
     sc_text := fun l => if pystr_eqb (last_sel l) sel_watchers then long_run else u"QA Lead";
     sc_attr := sc_attr page_listing;
     sc_raises := never_raises |}.

(* more definitions *)

(** * Theorems *)

(** ** Viewer counts: [_parse_int] *)

Section ParseInt.

Context {U : Interpreter}.

Lemma span_digits_run (run post : pystr) :
  Forall (fun c => is_digit c = true) run ->
  match post with [] => True | c :: _ => is_digit c = false end ->
  span_digits (run ++ post) = (run, post).
Proof.
  intros Hrun Hpost. induction Hrun as [|c run Hc _ IH]; simpl.
  - destruct post as [|c post]; simpl; [reflexivity|]. now rewrite Hpost.
  - now rewrite Hc, IH.
Qed.

Lemma search_digits_skip (pre t : pystr) :
  Forall (fun c => is_digit c = false) pre ->
  search_digits (pre ++ t) = search_digits t.
Proof.
  induction 1 as [|c pre Hc _ IH]; simpl; [reflexivity|]. now rewrite Hc.
Qed.

Lemma search_digits_first_run (t run : pystr) :
  first_digit_run t run -> search_digits t = Some run.
Proof.
  intros (pre & post & -> & Hpre & Hne & Hrun & Hpost).
  rewrite search_digits_skip by assumption.
  destruct run as [|c run]; [congruence|].
  pose proof (span_digits_run post Hrun Hpost) as Hspan.
  inversion Hrun as [|? ? Hc _]; subst.
  simpl app in *. cbn [search_digits]. rewrite Hc. now rewrite Hspan.
Qed.

Lemma search_digits_no_digit (t : pystr) :
  Forall (fun c => is_digit c = false) t -> search_digits t = None.
Proof.
  induction 1 as [|c t Hc _ IH]; simpl; [reflexivity|]. now rewrite Hc.
Qed.

Lemma span_digits_spec (s : pystr) :
  s = fst (span_digits s) ++ snd (span_digits s)
  /\ Forall (fun c => is_digit c = true) (fst (span_digits s))
  /\ match snd (span_digits s) with [] => True | c :: _ => is_digit c = false end.
Proof.
  induction s as [|c s (IH1 & IH2 & IH3)]; simpl.
  - repeat split; constructor.
  - destruct (is_digit c) eqn:Hc.
    + destruct (span_digits s) as [ds rest]; simpl in *.
      repeat split; [congruence | now constructor | assumption].
    + simpl. repeat split; [constructor | assumption].
Qed.

Lemma first_digit_run_exists (t : pystr) :
  Exists (fun c => is_digit c = true) t -> exists run, first_digit_run t run.
Proof.
  induction t as [|c t IH]; intros Hex; [inversion Hex|].
  destruct (is_digit c) eqn:Hc.
  - destruct (span_digits_spec (c :: t)) as (H1 & H2 & H3).
    exists (fst (span_digits (c :: t))), [], (snd (span_digits (c :: t))).
    repeat split; try assumption; [constructor|].
    simpl. rewrite Hc. now destruct (span_digits t).
  - inversion Hex as [? ? Hd|? ? Hex']; subst; [congruence|].
    destruct (IH Hex') as (run & pre & post & -> & Hpre & Hne & Hrun & Hpost).
    exists run, (c :: pre), post. repeat split; try assumption. now constructor.
Qed.

(** The normalization of [_parse_int] neither makes nor removes a digit
    when U+00A0 and U+0020 are not digits. *)
Lemma is_digit_replace (c : N) :
  is_digit NBSP = false -> is_digit SPACE = false ->
  is_digit (if c =? NBSP then SPACE else c) = is_digit c.
Proof.
  intros Hn Hs. destruct (N.eqb_spec c NBSP) as [->|]; congruence.
Qed.

Lemma span_digits_replace (s : pystr) :
  is_digit NBSP = false -> is_digit SPACE = false ->
  span_digits (replace NBSP SPACE s)
  = (fst (span_digits s), replace NBSP SPACE (snd (span_digits s))).
Proof.
  intros Hn Hs. induction s as [|c s IH]; [reflexivity|].
  change (replace NBSP SPACE (c :: s))
    with ((if c =? NBSP then SPACE else c) :: replace NBSP SPACE s).
  cbn [span_digits]. rewrite is_digit_replace, IH by assumption.
  destruct (is_digit c) eqn:Hc.
  - destruct (span_digits s); simpl.
    destruct (N.eqb_spec c NBSP) as [->|]; [congruence | reflexivity].
  - reflexivity.
Qed.

Lemma search_digits_replace (s : pystr) :
  is_digit NBSP = false -> is_digit SPACE = false ->
  search_digits (replace NBSP SPACE s) = search_digits s.
Proof.
  intros Hn Hs. induction s as [|c s IH]; [reflexivity|].
  change (replace NBSP SPACE (c :: s))
    with ((if c =? NBSP then SPACE else c) :: replace NBSP SPACE s).
  cbn [search_digits]. rewrite is_digit_replace by assumption.
  destruct (is_digit c) eqn:Hc; [|exact IH].
  change ((if c =? NBSP then SPACE else c) :: replace NBSP SPACE s)
    with (replace NBSP SPACE (c :: s)).
  now rewrite span_digits_replace.
Qed.

Lemma parse_int_unfold (t : pystr) :
  _parse_int t = first_digit_run_value (replace NBSP SPACE t).
Proof.
  unfold _parse_int, first_digit_run_value. destruct t; reflexivity.
Qed.

Lemma nbsp_space_not_digits :
  ascii_below_0660 U -> is_digit NBSP = false /\ is_digit SPACE = false.
Proof.
  intros H. unfold is_digit. rewrite !H by (unfold NBSP, SPACE; lia). now split.
Qed.

(** On text below U+0660 the table is the ASCII one. *)
Lemma is_digit_ascii (c : N) :
  ascii_below_0660 U -> c < 1632 -> is_digit c = @is_digit ascii_only c.
Proof. intros H Hc. unfold is_digit. now rewrite H. Qed.

Lemma span_digits_ascii (t : pystr) :
  ascii_below_0660 U -> Forall (fun c => c < 1632) t ->
  span_digits t = @span_digits ascii_only t.
Proof.
  intros H. induction 1 as [|c t Hc _ IH]; simpl; [reflexivity|].
  now rewrite (is_digit_ascii H Hc), IH.
Qed.

Lemma search_digits_ascii (t : pystr) :
  ascii_below_0660 U -> Forall (fun c => c < 1632) t ->
  search_digits t = @search_digits ascii_only t.
Proof.
  intros H. induction 1 as [|c t Hc Ht IH]; [reflexivity|].
  cbn [search_digits]. rewrite (is_digit_ascii H Hc), IH.
  assert (Hct : Forall (fun c => c < 1632) (c :: t)) by now constructor.
  now rewrite (span_digits_ascii H Hct).
Qed.

Lemma int_of_digits_ascii (ds : pystr) :
  ascii_below_0660 U -> Forall (fun c => c < 1632) ds ->
  int_of_digits ds = @int_of_digits ascii_only ds.
Proof.
  intros H Hds. unfold int_of_digits. generalize 0%Z.
  induction Hds as [|c t Hc _ IH]; intros acc; simpl; [reflexivity|].
  rewrite IH. unfold digit_val. now rewrite H.
Qed.

Lemma search_digits_sublist (t run : pystr) (P : N -> Prop) :
  search_digits t = Some run -> Forall P t -> Forall P run.
Proof.
  induction t as [|c t IH]; simpl; [discriminate|].
  intros Hs Ht. inversion Ht as [|? ? Hc Ht']; subst.
  destruct (is_digit c).
  - injection Hs as <-.
    destruct (span_digits_spec t) as (H1 & _ & _).
    destruct (span_digits t) as [ds rest]; simpl in *. constructor; [assumption|].
    rewrite H1 in Ht'. now apply Forall_app in Ht'.
  - now apply IH.
Qed.

Lemma int_too_long_short (ds : pystr) :
  (List.length ds <= 640)%nat -> int_too_long ds = false.
Proof.
  intros H. unfold int_too_long. cbv zeta.
  replace (640 <? Z.of_nat (List.length ds))%Z with false; [reflexivity|].
  symmetry. apply Z.ltb_ge. lia.
Qed.

Lemma first_digit_run_value_run (t run : pystr) :
  search_digits t = Some run ->
  first_digit_run_value t
  = if int_too_long run then Raised ValueError else Ok (Some (int_of_digits run)).
Proof.
  intros H. unfold first_digit_run_value, py_int. rewrite H.
  now destruct (int_too_long run).
Qed.

(** On text below U+0660 whose first digit run is short, every interpreter
    gives what the one with the ASCII digits gives. *)
Lemma parse_int_ascii (t run : pystr) :
  ascii_below_0660 U -> Forall (fun c => c < 1632) t ->
  @search_digits ascii_only (replace NBSP SPACE t) = Some run ->
  (List.length run <= 640)%nat ->
  _parse_int t = Ok (Some (@int_of_digits ascii_only run)).
Proof.
  intros H Ht Hs Hlen. rewrite parse_int_unfold.
  assert (Hr : Forall (fun c => c < 1632) (replace NBSP SPACE t)).
  { unfold replace. apply Forall_map. revert Ht. apply Forall_impl.
    intros c Hc. destruct (c =? NBSP); [unfold SPACE; lia | assumption]. }
  pose proof (search_digits_ascii H Hr) as Heq. rewrite Hs in Heq.
  rewrite (first_digit_run_value_run _ Heq), (int_too_long_short _ Hlen).
  do 2 f_equal. apply int_of_digits_ascii; [assumption|].
  eapply search_digits_sublist; eassumption.
Qed.

Lemma below_0660_check (t : pystr) :
  forallb (fun c => c <? 1632) t = true -> Forall (fun c => c < 1632) t.
Proof.
  intros H. apply Forall_forall. intros c Hc.
  apply N.ltb_lt. revert c Hc. now apply forallb_forall.
Qed.

(** C5, as the code has it.  With non-breaking spaces replaced by spaces
    first, [_parse_int] gives what [int()] makes of the first maximal run
    of decimal digits of the text: the integer value of the run, unless the
    run has more digits than the interpreter's limit on [int()], and then
    [ValueError] is raised; a text with a digit has such a run; a text with
    no digit, the empty one included, gives [None]; and
    ["Сейчас смотрят 1\xa0234"] gives [1]. *)
Theorem C5_parse_int_first_digit_run :
  ascii_below_0660 U ->
  (forall text run,
      first_digit_run (replace NBSP SPACE text) run ->
      _parse_int text
      = if int_too_long run then Raised ValueError else Ok (Some (int_of_digits run)))
  /\ (forall text,
         Exists (fun c => is_digit c = true) text ->
         exists run, first_digit_run (replace NBSP SPACE text) run
                     /\ _parse_int text
                        = if int_too_long run then Raised ValueError
                          else Ok (Some (int_of_digits run)))
  /\ (forall run, (List.length run <= 640)%nat -> int_too_long run = false)
  /\ (forall text,
         Forall (fun c => is_digit c = false) text -> _parse_int text = Ok None)
  /\ _parse_int [] = Ok None
  /\ _parse_int (u"Сейчас смотрят 1" ++ [NBSP] ++ u"234") = Ok (Some 1%Z).
Proof.
  intros HU. destruct (nbsp_space_not_digits HU) as [Hn Hs].
  assert (Hrun : forall text run,
             first_digit_run (replace NBSP SPACE text) run ->
             _parse_int text
             = if int_too_long run then Raised ValueError
               else Ok (Some (int_of_digits run))).
  { intros text run H. rewrite parse_int_unfold.
    apply first_digit_run_value_run. now apply search_digits_first_run. }
  split; [exact Hrun|]. split; [|split; [|split; [|split]]].
  - intros text Hex.
    destruct (@first_digit_run_exists (replace NBSP SPACE text)) as [run Hr].
    { unfold replace. apply Exists_exists. apply Exists_exists in Hex.
      destruct Hex as (c & Hin & Hc). exists (if c =? NBSP then SPACE else c).
      split; [now apply (in_map (fun c => if c =? NBSP then SPACE else c))|].
      now rewrite is_digit_replace. }
    exists run. split; [assumption | now apply Hrun].
  - exact int_too_long_short.
  - intros text Hno. rewrite parse_int_unfold. unfold first_digit_run_value.
    rewrite search_digits_replace by assumption.
    now rewrite search_digits_no_digit.
  - reflexivity.
  - rewrite (@parse_int_ascii _ [49]); [reflexivity | assumption | | reflexivity | simpl; lia].
    apply below_0660_check. vm_compute. reflexivity.
Qed.

(** C9, as the code has it.  The normalization step of [_parse_int] never
    changes its result, a raised [ValueError] included: [_parse_int t] is
    what [int()] makes of the first maximal run of decimal digits of [t] as
    given (its integer value, or [ValueError] when the run has more digits
    than the interpreter's limit on [int()]), and [None] when [t] has no
    digit. *)
Theorem C9_parse_int_normalization_is_identity :
  ascii_below_0660 U ->
  (forall t, _parse_int t = first_digit_run_value t)
  /\ (forall t run,
         first_digit_run t run ->
         _parse_int t
         = if int_too_long run then Raised ValueError else Ok (Some (int_of_digits run)))
  /\ (forall t, Forall (fun c => is_digit c = false) t -> _parse_int t = Ok None).
Proof.
  intros HU. destruct (nbsp_space_not_digits HU) as [Hn Hs].
  assert (Heq : forall t, _parse_int t = first_digit_run_value t).
  { intros t. rewrite parse_int_unfold. unfold first_digit_run_value.
    now rewrite search_digits_replace. }
  split; [exact Heq|]. split.
  - intros t run H. rewrite Heq.
    apply first_digit_run_value_run. now apply search_digits_first_run.
  - intros t H. rewrite Heq. unfold first_digit_run_value.
    now rewrite search_digits_no_digit.
Qed.

End ParseInt.

(** ** Running the script step by step *)

Unset Implicit Arguments.

Section Steps.

Context {E : Env}.

Lemma bind_ok {A B} (m : M A) (k : A -> M B) (s s' : St) (a : A) :
  m s = (Ok a, s') -> bind m k s = k a s'.
Proof. intros H. unfold bind. now rewrite H. Qed.

Lemma bind_raised {A B} (m : M A) (k : A -> M B) (s s' : St) (e : Exception) :
  m s = (Raised e, s') -> bind m k s = (Raised e, s').
Proof. intros H. unfold bind. now rewrite H. Qed.

Lemma catch_ok {A} (m : M A) (h : Exception -> M A) (s s' : St) (a : A) :
  m s = (Ok a, s') -> catch m h s = (Ok a, s').
Proof. intros H. unfold catch. now rewrite H. Qed.

Lemma catch_raised {A} (m : M A) (h : Exception -> M A) (s s' : St) (e : Exception) :
  m s = (Raised e, s') -> catch m h s = h e s'.
Proof. intros H. unfold catch. now rewrite H. Qed.

Lemma catch_raised_ret {A} (m : M A) (a : A) (s s' : St) (e : Exception) :
  m s = (Raised e, s') -> catch m (fun _ => ret a) s = (Ok a, s').
Proof. intros H. unfold catch. now rewrite H. Qed.

(** What a computation that returned went through. *)
Lemma bind_inv {A B} (m : M A) (k : A -> M B) (s s' : St) (r : Res B) :
  bind m k s = (r, s') ->
  (exists a s1, m s = (Ok a, s1) /\ k a s1 = (r, s'))
  \/ (exists e, m s = (Raised e, s') /\ r = Raised e).
Proof.
  unfold bind. destruct (m s) as [[a|e] s1]; intros H.
  - left. now exists a, s1.
  - right. exists e. now inversion H.
Qed.

Lemma bind_inv_ok {A B} (m : M A) (k : A -> M B) (s s' : St) (b : B) :
  bind m k s = (Ok b, s') ->
  exists a s1, m s = (Ok a, s1) /\ k a s1 = (Ok b, s').
Proof.
  intros H. destruct (bind_inv _ _ _ _ _ H) as [?|(e & _ & ?)]; [assumption | discriminate].
Qed.

Lemma catch_inv {A} (m : M A) (h : Exception -> M A) (s s' : St) (r : Res A) :
  catch m h s = (r, s') ->
  (exists a, m s = (Ok a, s') /\ r = Ok a)
  \/ (exists e s1, m s = (Raised e, s1) /\ h e s1 = (r, s')).
Proof.
  unfold catch. destruct (m s) as [[a|e] s1]; intros H.
  - left. exists a. now inversion H.
  - right. now exists e, s1.
Qed.

Lemma ret_inv {A} (a : A) (s s' : St) (r : Res A) :
  ret a s = (r, s') -> r = Ok a /\ s' = s.
Proof. unfold ret. intros H. now inversion H. Qed.

Lemma lift_inv {A} (x : Res A) (s s' : St) (r : Res A) :
  lift x s = (r, s') -> r = x /\ s' = s.
Proof. unfold lift. intros H. now inversion H. Qed.

(** A call adds its event to the log, whatever it answers. *)
Lemma call_log (c : Call) (s s' : St) (r : Res (ret_type c)) :
  call c s = (r, s') -> log s' = Ev c r :: log s.
Proof.
  unfold call. destruct (exec c (world s)) as [r0 w]. intros H.
  now inversion H.
Qed.

Lemma added_refl (s : St) : added s s [].
Proof. reflexivity. Qed.

Lemma added_call (c : Call) (s s' : St) (r : Res (ret_type c)) :
  call c s = (r, s') -> added s s' [Ev c r].
Proof. intros H. unfold added. now rewrite (call_log _ _ _ _ H). Qed.

Lemma added_trans (s1 s2 s3 : St) (n1 n2 : list Event) :
  added s1 s2 n1 -> added s2 s3 n2 -> added s1 s3 (n2 ++ n1).
Proof. unfold added. intros H1 H2. now rewrite H2, H1, app_assoc. Qed.

End Steps.

(** Rewrites the first step of the computation in the goal with a
    hypothesis that tells how it went. *)
Ltac step :=
  first [ erewrite bind_ok by eassumption
        | erewrite bind_raised by eassumption
        | erewrite catch_ok by eassumption
        | erewrite catch_raised by eassumption ];
  cbv beta iota.

Ltac steps := repeat step.

(** Splits a hypothesis on a computation that returned into its steps. *)
Tactic Notation "unbind" hyp(H) "as" ident(a) ident(s) ident(H1) :=
  apply bind_inv_ok in H; destruct H as (a & s & H1 & H).

(** ** The outcome classifier *)

Section Classifier.

Context {E : Env}.

Local Open Scope nat_scope.

(** A round that finds the success toast returns [sent], whatever else is
    on the page. *)
Lemma poll_round_toast (original_url : pystr) (text : option pystr) (st st1 : St) (n : nat) :
  call (Count success_toast) st = (Ok n, st1) -> n <> 0 ->
  poll_round original_url text st = (Ok (Some sent), st1).
Proof.
  intros Hc Hn. unfold poll_round. fold success_toast. step.
  destruct n; [congruence | reflexivity].
Qed.

(** A round in which nothing fires falls through to the sleep. *)
Lemma poll_round_idle (original_url url : pystr) (text : option pystr) (s1 s2 s3 s4 : St) :
  call (Count success_toast) s1 = (Ok 0, s2) ->
  is_cover_letter_required_modal s2 = (Ok false, s3) ->
  call Url s3 = (Ok url, s4) ->
  pystr_eqb url original_url = true ->
  poll_round original_url text s1 = (Ok None, s4).
Proof.
  intros Hc Hm Hu Heq. unfold poll_round. fold success_toast.
  step. cbn [Nat.eqb negb]. steps. rewrite Heq. reflexivity.
Qed.

(** The polling loop goes through the rounds in which nothing fires. *)
Lemma poll_loop_idle (original_url : pystr) (text : option pystr) (deadline : Q)
      (rounds : nat) (s s' : St) :
  idle_rounds original_url deadline rounds s s' ->
  forall fuel,
    poll_loop (rounds + fuel) original_url text deadline s
    = poll_loop fuel original_url text deadline s'.
Proof.
  induction 1 as [s|rounds s s1 s2 s3 s4 s5 s' now url Ht Hlt Hc Hm Hu Heq Hw _ IH];
    intros fuel; [reflexivity|].
  cbn [Nat.add poll_loop]. step. rewrite Hlt.
  erewrite bind_ok by (eapply poll_round_idle; eassumption). cbv beta iota.
  step. apply IH.
Qed.

(** A round that returns an outcome ends the polling loop with it. *)
Lemma poll_loop_round (original_url : pystr) (text : option pystr) (deadline now : Q)
      (fuel : nat) (s s1 s2 : St) (o : Outcome) :
  call TimeTime s = (Ok now, s1) ->
  Qltb now deadline = true ->
  poll_round original_url text s1 = (Ok (Some o), s2) ->
  poll_loop (S fuel) original_url text deadline s = (Ok (Some o), s2).
Proof.
  intros Ht Hlt Hr. cbn [poll_loop]. step. rewrite Hlt. step. reflexivity.
Qed.

(** The classifier up to its polling loop, and the loop up to the round
    that returns. *)
Lemma click_apply_on_card_round
      (fuel rounds : nat) (card : Locator) (text : option pystr) (poll_timeout_sec t now : Q)
      (st s1 s2 s3 s4 s5 s6 s7 s8 : St) (original_url : pystr) (n : nat) (o : Outcome) :
  call Url st = (Ok original_url, s1) ->
  call (ScrollIntoViewIfNeeded card 10000) s1 = (Ok tt, s2) ->
  call (Count (apply_button card)) s2 = (Ok (S n), s3) ->
  call (Click (apply_button card) None) s3 = (Ok tt, s4) ->
  call TimeTime s4 = (Ok t, s5) ->
  idle_rounds original_url (t + poll_timeout_sec)%Q rounds s5 s6 ->
  call TimeTime s6 = (Ok now, s7) ->
  Qltb now (t + poll_timeout_sec)%Q = true ->
  rounds < fuel ->
  poll_round original_url text s7 = (Ok (Some o), s8) ->
  click_apply_on_card fuel card text poll_timeout_sec st = (Ok (Some o), s8).
Proof.
  intros Hu Hs Hc Hk Ht Hidle Hnow Hlt Hfuel Hround.
  unfold click_apply_on_card. fold (apply_button card).
  steps. cbn [Nat.eqb]. steps.
  replace fuel with (rounds + S (fuel - S rounds)) by lia.
  rewrite (poll_loop_idle _ text _ _ _ _ Hidle).
  exact (poll_loop_round _ _ _ _ _ _ _ _ _ Hnow Hlt Hround).
Qed.

(** C1.  The classifier has clicked the apply button and is polling; after
    any number of rounds in which nothing fired comes a round, before the
    deadline, in which both the success toast and the mandatory cover
    letter modal are on the page.  Then [click_apply_on_card] returns
    [sent], right after the count of the toast: the toast is checked
    before the modal in every round. *)
Theorem C1_success_toast_before_modal
        (fuel rounds : nat) (card : Locator) (cover_letter_text : option pystr)
        (poll_timeout_sec t now : Q) (st s1 s2 s3 s4 s5 s6 s7 s8 : St)
        (original_url : pystr) (n k : nat) :
  call Url st = (Ok original_url, s1) ->
  call (ScrollIntoViewIfNeeded card 10000) s1 = (Ok tt, s2) ->
  call (Count (apply_button card)) s2 = (Ok (S n), s3) ->
  call (Click (apply_button card) None) s3 = (Ok tt, s4) ->
  call TimeTime s4 = (Ok t, s5) ->
  idle_rounds original_url (t + poll_timeout_sec)%Q rounds s5 s6 ->
  call TimeTime s6 = (Ok now, s7) ->
  Qltb now (t + poll_timeout_sec)%Q = true ->
  rounds < fuel ->
  call (Count success_toast) s7 = (Ok k, s8) -> k <> 0 ->
  fst (is_cover_letter_required_modal s7) = Ok true ->
  click_apply_on_card fuel card cover_letter_text poll_timeout_sec st = (Ok (Some sent), s8).
Proof.
  intros Hu Hs Hc Hk Ht Hidle Hnow Hlt Hfuel Htoast Hne _.
  eapply click_apply_on_card_round; try eassumption.
  now apply (poll_round_toast _ _ _ _ k).
Qed.

(** [fill_and_submit_cover_letter] never raises. *)
Lemma fill_and_submit_cover_letter_returns (text : pystr) (timeout_ms : Z) (st : St) :
  exists b, fst (fill_and_submit_cover_letter text timeout_ms st) = Ok b.
Proof.
  unfold fill_and_submit_cover_letter, catch.
  match goal with |- context [match ?m st with _ => _ end] => destruct (m st) as [[b|e] s] end;
    simpl; eauto.
Qed.




(** C3 (amended).  Once the card has been scrolled into view, a card with
    no apply button makes [click_apply_on_card] return [no_apply_button]
    at once: the calls made are reading the URL, the scroll into view and
    the count of the apply button, so no click and no navigation. *)
Theorem C3_no_apply_button_after_scroll
        (fuel : nat) (card : Locator) (text : option pystr) (poll_timeout_sec : Q)
        (st s1 s2 s3 : St) (url : pystr) :
  call Url st = (Ok url, s1) ->
  call (ScrollIntoViewIfNeeded card 10000) s1 = (Ok tt, s2) ->
  call (Count (apply_button card)) s2 = (Ok 0, s3) ->
  click_apply_on_card fuel card text poll_timeout_sec st = (Ok (Some no_apply_button), s3)
  /\ exists new,
      added st s3 new
      /\ calls new = [Count (apply_button card); ScrollIntoViewIfNeeded card 10000; Url]
      /\ forallb (fun c => negb (is_click c) && negb (is_navigation c)) (calls new) = true.
Proof.
  intros Hu Hs Hc. split.
  - unfold click_apply_on_card. fold (apply_button card). steps. reflexivity.
  - exists [Ev (Count (apply_button card)) (Ok 0);
            Ev (ScrollIntoViewIfNeeded card 10000) (Ok tt);
            Ev Url (Ok url)].
    split; [|split; reflexivity].
    unfold added. rewrite (call_log _ _ _ _ Hc), (call_log _ _ _ _ Hs), (call_log _ _ _ _ Hu).
    reflexivity.
Qed.

(** What the classifier does not catch: the scroll into view, the click
    on the apply button, and the wait for the listing after the return. *)
Lemma click_apply_on_card_scroll_raises
      (fuel : nat) (card : Locator) (text : option pystr) (poll_timeout_sec : Q)
      (st s1 s2 : St) (url : pystr) (e : Exception) :
  call Url st = (Ok url, s1) ->
  call (ScrollIntoViewIfNeeded card 10000) s1 = (Raised e, s2) ->
  click_apply_on_card fuel card text poll_timeout_sec st = (Raised e, s2).
Proof.
  intros Hu Hs. unfold click_apply_on_card. steps. reflexivity.
Qed.

Lemma click_apply_on_card_click_raises
      (fuel : nat) (card : Locator) (text : option pystr) (poll_timeout_sec : Q)
      (st s1 s2 s3 s4 : St) (url : pystr) (n : nat) (e : Exception) :
  call Url st = (Ok url, s1) ->
  call (ScrollIntoViewIfNeeded card 10000) s1 = (Ok tt, s2) ->
  call (Count (apply_button card)) s2 = (Ok (S n), s3) ->
  call (Click (apply_button card) None) s3 = (Raised e, s4) ->
  click_apply_on_card fuel card text poll_timeout_sec st = (Raised e, s4).
Proof.
  intros Hu Hs Hc Hk. unfold click_apply_on_card. fold (apply_button card).
  steps. cbn [Nat.eqb]. steps. reflexivity.
Qed.

Lemma safe_go_back_to_serp_raises (fallback_url : pystr) (st s1 s2 : St) (e : Exception) :
  call GoBack st = (Ok tt, s1) ->
  call (WaitForSelector sel_vacancy 15000) s1 = (Raised e, s2) ->
  safe_go_back_to_serp fallback_url st = (Raised e, s2).
Proof.
  intros Hb Hw. unfold safe_go_back_to_serp.
  erewrite bind_ok by (eapply catch_ok; eassumption). cbv beta.
  exact Hw.
Qed.

End Classifier.

(** ** Hiding a vacancy *)

Section Hide.

Context {E : Env}.

Local Open Scope nat_scope.

(** When [hide_vacancy_card] returns [True], both clicks were made and
    both returned. *)
Lemma hide_vacancy_card_true_clicks (card : Locator) (timeout_ms : Z) (st st' : St) :
  hide_vacancy_card card timeout_ms st = (Ok true, st') ->
  exists new,
    added st st' new
    /\ In (Ev (Click (hide_icon card) (Some timeout_ms)) (Ok tt)) new
    /\ In (Ev (Click menu_item (Some timeout_ms)) (Ok tt)) new.
Proof.
  intros H. unfold hide_vacancy_card in H. fold (hide_icon card) in H. fold menu_item in H.
  unbind H as n s1 Hcount. destruct n as [|n]; cbn [Nat.eqb] in H.
  { apply ret_inv in H. destruct H; discriminate. }
  unbind H as x s2 Hscroll. unbind H as clicked s3 Hclick.
  destruct clicked; cbn [negb] in H.
  2:{ apply ret_inv in H. destruct H; discriminate. }
  unbind H as chosen s4 Hmenu. destruct chosen; cbn [negb] in H.
  2:{ apply ret_inv in H. destruct H; discriminate. }
  unbind H as y s5 Hgone. apply ret_inv in H. destruct H as [_ ->].
  (* the click on the hide button *)
  apply catch_inv in Hclick. destruct Hclick as [(b & Hclick & _)|(e & sx & _ & Hh)].
  2:{ apply ret_inv in Hh. destruct Hh; discriminate. }
  unbind Hclick as c1 s3' Hc1. apply ret_inv in Hclick. destruct Hclick as [_ ->].
  (* the menu item *)
  apply catch_inv in Hmenu. destruct Hmenu as [(b' & Hmenu & _)|(e & sx & _ & Hh)].
  2:{ apply ret_inv in Hh. destruct Hh; discriminate. }
  unbind Hmenu as w1 s4' Hw1. unbind Hmenu as c2 s4'' Hc2.
  apply ret_inv in Hmenu. destruct Hmenu as [_ ->].
  (* the wait for the card to go *)
  assert (Hlast : exists ev, log s5 = ev :: log s4'').
  { apply catch_inv in Hgone. destruct Hgone as [(z & Hw & _)|(e & sx & Hw & Hh)].
    - eexists. exact (call_log _ _ _ _ Hw).
    - apply ret_inv in Hh. destruct Hh as [_ ->]. eexists. exact (call_log _ _ _ _ Hw). }
  destruct Hlast as [ev Hlast].
  apply call_log in Hcount, Hscroll, Hc1, Hw1, Hc2.
  cbn [ret_type] in c1, c2. destruct c1, c2.
  refine (ex_intro _ [ev; _; _; _; _; _] _). split.
  - unfold added. rewrite Hlast, Hc2, Hw1, Hc1, Hscroll, Hcount. reflexivity.
  - split; simpl; auto 10.
Qed.

(** C8.  [hide_vacancy_card] returns [True] only after both clicks were
    made and returned; with no hide button it returns [False]; a click or
    the wait for the menu item that raises makes it return [False], not
    raise; and once both clicks returned it returns [True] whether the card
    leaves the document or not. *)
Theorem C8_hide_vacancy_card (card : Locator) (timeout_ms : Z) (st : St) :
  (forall st',
      hide_vacancy_card card timeout_ms st = (Ok true, st') ->
      exists new,
        added st st' new
        /\ In (Ev (Click (hide_icon card) (Some timeout_ms)) (Ok tt)) new
        /\ In (Ev (Click menu_item (Some timeout_ms)) (Ok tt)) new)
  /\ (forall s1,
         call (Count (hide_icon card)) st = (Ok 0, s1) ->
         hide_vacancy_card card timeout_ms st = (Ok false, s1))
  /\ (forall n s1 s2,
         call (Count (hide_icon card)) st = (Ok (S n), s1) ->
         call (ScrollIntoViewIfNeeded card timeout_ms) s1 = (Ok tt, s2) ->
         (forall e s3,
             call (Click (hide_icon card) (Some timeout_ms)) s2 = (Raised e, s3) ->
             hide_vacancy_card card timeout_ms st = (Ok false, s3))
         /\ (forall s3,
                call (Click (hide_icon card) (Some timeout_ms)) s2 = (Ok tt, s3) ->
                (forall e s4,
                    call (WaitFor menu_item visible timeout_ms) s3 = (Raised e, s4) ->
                    hide_vacancy_card card timeout_ms st = (Ok false, s4))
                /\ (forall s4,
                       call (WaitFor menu_item visible timeout_ms) s3 = (Ok tt, s4) ->
                       (forall e s5,
                           call (Click menu_item (Some timeout_ms)) s4 = (Raised e, s5) ->
                           hide_vacancy_card card timeout_ms st = (Ok false, s5))
                       /\ (forall s5,
                              call (Click menu_item (Some timeout_ms)) s4 = (Ok tt, s5) ->
                              fst (hide_vacancy_card card timeout_ms st) = Ok true)))).
Proof.
  split; [|split].
  - intros st'. apply hide_vacancy_card_true_clicks.
  - intros s1 Hc. unfold hide_vacancy_card. fold (hide_icon card). step. reflexivity.
  - intros n s1 s2 Hc Hs.
    split.
    + intros e s3 Hk. unfold hide_vacancy_card. fold (hide_icon card). steps.
      cbn [Nat.eqb]. step.
      erewrite bind_ok by (eapply catch_raised_ret; eapply bind_raised; eassumption).
      reflexivity.
    + intros s3 Hk. split.
      * intros e s4 Hw. unfold hide_vacancy_card. fold (hide_icon card). fold menu_item.
        step. cbn [Nat.eqb]. step.
        erewrite bind_ok by (eapply catch_ok; erewrite bind_ok by eassumption; reflexivity).
        cbv beta iota. cbn [negb].
        erewrite bind_ok by (eapply catch_raised_ret; eapply bind_raised; eassumption).
        reflexivity.
      * intros s4 Hw. split.
        -- intros e s5 Hm. unfold hide_vacancy_card. fold (hide_icon card). fold menu_item.
           step. cbn [Nat.eqb]. step.
           erewrite bind_ok by (eapply catch_ok; erewrite bind_ok by eassumption; reflexivity).
           cbv beta iota. cbn [negb].
           erewrite bind_ok
             by (eapply catch_raised_ret; erewrite bind_ok by eassumption;
                 eapply bind_raised; eassumption).
           reflexivity.
        -- intros s5 Hm. unfold hide_vacancy_card. fold (hide_icon card). fold menu_item.
           step. cbn [Nat.eqb]. step.
           erewrite bind_ok by (eapply catch_ok; erewrite bind_ok by eassumption; reflexivity).
           cbv beta iota. cbn [negb].
           erewrite bind_ok
             by (eapply catch_ok; erewrite bind_ok by eassumption;
                 erewrite bind_ok by eassumption; reflexivity).
           cbv beta iota. cbn [negb].
           unfold bind at 1, catch.
           destruct (call (WaitFor card detached 3000) s5) as [[x|e] s6]; reflexivity.
Qed.

End Hide.

(** ** The listing parser *)

Section Listing.

Context {U : Interpreter} {E : Env}.

Local Open Scope nat_scope.

Lemma strip_prefix_spec (p s rest : pystr) :
  strip_prefix p s = Some rest -> s = p ++ rest.
Proof.
  revert s. induction p as [|a p IH]; intros s H; simpl in H.
  - now inversion H.
  - destruct s as [|b s]; [discriminate|].
    destruct (N.eqb_spec a b) as [->|]; [|discriminate].
    simpl. f_equal. now apply IH.
Qed.

Lemma match_vacancy_here_link (s id : pystr) :
  match_vacancy_here s = Some id -> vacancy_link s id.
Proof.
  unfold match_vacancy_here.
  destruct (strip_prefix (u"/vacancy/") s) as [rest|] eqn:Hp; [|discriminate].
  apply strip_prefix_spec in Hp.
  destruct (span_digits_spec rest) as (H1 & H2 & H3).
  destruct (fst (span_digits rest)) as [|d ds] eqn:Hd; [discriminate|].
  intros H. injection H as <-.
  exists [], (snd (span_digits rest)).
  repeat split; try assumption; [|discriminate].
  rewrite Hp, app_nil_l. f_equal. exact H1.
Qed.

Lemma search_vacancy_link (href id : pystr) :
  search_vacancy href = Some id -> vacancy_link href id.
Proof.
  induction href as [|c href IH]; cbn [search_vacancy].
  - destruct (match_vacancy_here []) eqn:Hm; [|discriminate].
    intros H. injection H as <-. now apply match_vacancy_here_link.
  - destruct (match_vacancy_here (c :: href)) eqn:Hm.
    + intros H. injection H as <-. now apply match_vacancy_here_link.
    + intros H. destruct (IH H) as (pre & post & -> & Hrest).
      exists (c :: pre), post. split; [reflexivity | exact Hrest].
Qed.

Lemma from_card_more (cards : Locator) (new more : list Event) (v : Vacancy) :
  from_card cards new v -> from_card cards (more ++ new) v.
Proof.
  intros (i & n & href & H1 & H2 & H3). exists i, n, href.
  repeat split; try assumption; apply in_or_app; now right.
Qed.

Lemma collect_cards_spec (cards : Locator) (limit : Z) (n : nat) :
  forall (i : nat) (result : list Vacancy) (st st' : St) (r : list Vacancy)
         (cur old : list Event),
    collect_cards cards limit n i result st = (Ok r, st') ->
    log st = cur ++ old ->
    Forall (from_card cards cur) result ->
    (Z.of_nat (List.length result) < limit)%Z ->
    exists new,
      log st' = new ++ old
      /\ Forall (from_card cards new) r
      /\ (Z.of_nat (List.length r) <= limit)%Z.
Proof.
  induction n as [|n IH]; intros i result st st' r cur old H Hlog Hres Hlen;
    cbn [collect_cards] in H.
  - apply ret_inv in H. destruct H as [H ->]. injection H as <-.
    exists cur. repeat split; [assumption | assumption | lia].
  - unbind H as c s1 Hc. apply call_log in Hc. rewrite Hlog in Hc.
    destruct c as [|c]; cbn [Nat.eqb] in H.
    { eapply (IH _ _ _ _ _ (_ :: cur)); [exact H | exact Hc | | exact Hlen].
      revert Hres. apply Forall_impl. intros v. apply (from_card_more _ _ [_]). }
    unbind H as t s2 Ht. apply call_log in Ht. rewrite Hc in Ht.
    unbind H as h s3 Hh. apply call_log in Hh. rewrite Ht in Hh.
    destruct (search_vacancy (or_empty h)) as [id|] eqn:Hid.
    2:{ eapply (IH _ _ _ _ _ (_ :: _ :: _ :: cur)); [exact H | exact Hh | | exact Hlen].
        revert Hres. apply Forall_impl. intros v. apply (from_card_more _ _ [_; _; _]). }
    unbind H as wc s4 Hwc. apply call_log in Hwc. rewrite Hh in Hwc.
    unbind H as wt s5 Hwt.
    assert (Hlog5 : exists more, log s5 = more ++ cur ++ old
                                 /\ In (Ev (Count (first (sub_locator (nth_ cards i) sel_response)))
                                           (Ok (S c))) more
                                 /\ In (Ev (GetAttribute
                                              (first (sub_locator (nth_ cards i) sel_title_link))
                                              (u"href")) (Ok h)) more).
    { destruct wc as [|wc]; cbn [Nat.eqb negb] in Hwt.
      - apply ret_inv in Hwt. destruct Hwt as [_ ->].
        eexists [_; _; _; _]. split; [exact Hwc|]. split; cbn [In]; auto 10.
      - unbind Hwt as w s4' Hw. apply ret_inv in Hwt. destruct Hwt as [_ ->].
        apply call_log in Hw. rewrite Hwc in Hw.
        eexists [_; _; _; _; _]. split; [exact Hw|]. split; cbn [In]; auto 10. }
    destruct Hlog5 as (more & Hlog5 & Hin1 & Hin2).
    rewrite app_assoc in Hlog5.
    unbind H as wn s6 Hwn. apply lift_inv in Hwn. destruct Hwn as [_ ->].
    match type of H with
    | (if (Z.of_nat (List.length ?res) >=? limit)%Z then _ else _) _ = _ =>
      assert (Hres' : Forall (from_card cards (more ++ cur)) res)
    end.
    { apply Forall_app. split.
      - revert Hres. apply Forall_impl. intros v. apply from_card_more.
      - constructor; [|constructor]. exists i, c, h.
        repeat split; [apply in_or_app; now left | apply in_or_app; now left |].
        cbn [vacancy_id]. now apply search_vacancy_link. }
    match type of H with
    | (if ?b then _ else _) _ = _ => destruct b eqn:Hb
    end.
    + apply ret_inv in H. destruct H as [H ->]. injection H as H. subst r.
      exists (more ++ cur). repeat split; [assumption | assumption |].
      rewrite length_app. cbn [List.length]. lia.
    + eapply (IH _ _ _ _ _ (more ++ cur)); [exact H | exact Hlog5 | exact Hres' |].
      rewrite Z.geb_leb in Hb. apply Z.leb_gt in Hb. exact Hb.
Qed.

(** C6.  For a positive [limit], what [collect_vacancies_for_apply]
    returns has at most [limit] items, and each item comes from a card that
    had an apply button when the parser looked and whose link has the
    shape [/vacancy/<digits>], the item's identifier being that non-empty
    digit string: a card with no such link gives no item. *)
Theorem C6_collect_vacancies_for_apply (limit : Z) (st st' : St) (result : list Vacancy) :
  (0 < limit)%Z ->
  collect_vacancies_for_apply limit st = (Ok result, st') ->
  (Z.of_nat (List.length result) <= limit)%Z
  /\ exists new,
      added st st' new
      /\ Forall (from_card (page_locator sel_vacancy) new) result
      /\ Forall (fun v => vacancy_id v <> []
                          /\ Forall (fun c => is_digit c = true) (vacancy_id v)) result.
Proof.
  intros Hlimit H. unfold collect_vacancies_for_apply in H.
  unbind H as x s1 Hw. apply call_log in Hw.
  unbind H as n s2 Hn. apply call_log in Hn. rewrite Hw in Hn.
  destruct (collect_cards_spec _ _ _ _ _ _ _ _ [_; _] (log st) H Hn)
    as (new & Hlog & Hfrom & Hlen); [constructor | simpl; lia |].
  split; [assumption|]. exists new. split; [exact Hlog|]. split; [assumption|].
  revert Hfrom. apply Forall_impl.
  intros v (i & k & href & _ & _ & (pre & post & _ & Hne & Hd & _)). now split.
Qed.

End Listing.

(** ** The listing loader *)

Section Loader.

Context {E : Env}.

Local Open Scope nat_scope.

Lemma count_answers_app (a b : list Event) :
  count_answers (a ++ b) = count_answers b ++ count_answers a.
Proof. unfold count_answers. now rewrite rev_app_distr, flat_map_app. Qed.

Lemma scrolls_app (a b : list Event) : scrolls (a ++ b) = scrolls a + scrolls b.
Proof. unfold scrolls. now rewrite filter_app, length_app. Qed.

(** What [streak_after] counts: the rounds split into those up to the last
    growth and the non-growing ones after it. *)
Lemma streak_after_spec (cs : list nat) :
  forall prev k,
    (streak_after prev k cs = k + List.length cs /\ Forall (fun c => c <= prev) cs)
    \/ (exists before top last,
           cs = before ++ top :: last
           /\ Forall (fun c => c <= top) before /\ prev < top
           /\ Forall (fun c => c <= top) last
           /\ streak_after prev k cs = List.length last).
Proof.
  induction cs as [|c cs IH]; intros prev k; cbn [streak_after].
  - left. split; [simpl; lia | constructor].
  - destruct (Nat.ltb_spec prev c) as [Hlt|Hle].
    + right. destruct (IH c 0) as [[Hs Hall]|(before & top & last & -> & Hb & Ht & Hl & Hs)].
      * exists [], c, cs. repeat split; try assumption; constructor.
      * exists (c :: before), top, last.
        repeat split; try assumption; [constructor; [lia | assumption] | lia].
    + destruct (IH prev (S k)) as [[Hs Hall]|(before & top & last & -> & Hb & Ht & Hl & Hs)].
      * left. split; [simpl; lia | now constructor].
      * right. exists (c :: before), top, last.
        repeat split; try assumption. constructor; [lia | assumption].
Qed.

Lemma scroll_rounds_spec (cards : Locator) (pause_ms needed : Z) (rounds : nat) :
  forall (prev k : nat) (st st' : St) (r : Res nat),
    scroll_rounds cards pause_ms needed rounds prev (Z.of_nat k) st = (r, st') ->
    exists new,
      added st st' new
      /\ scrolls new <= rounds
      /\ (forall e, r = Raised e ->
                    (exists c rest, new = Ev c (Raised e) :: rest)
                    \/ int_times_0_6 pause_ms = Raised e)
      /\ (forall p, r = Ok p ->
            let cs := count_answers new in
            scrolls new = List.length cs
            /\ (List.length cs < rounds ->
                cs <> [] /\ 0 < streak_after prev k cs
                /\ (needed <= Z.of_nat (streak_after prev k cs))%Z)
            /\ (forall j, 0 < j < List.length cs ->
                          streak_after prev k (firstn j cs) = 0
                          \/ (Z.of_nat (streak_after prev k (firstn j cs)) < needed)%Z)).
Proof.
  induction rounds as [|rounds IH]; intros prev k st st' r H; cbn [scroll_rounds] in H.
  - apply ret_inv in H. destruct H as [-> ->].
    exists []. split; [apply added_refl|]. split; [cbn; lia|]. split; [discriminate|].
    intros p _. cbn. split; [reflexivity|]. split; intros; lia.
  - apply bind_inv in H. destruct H as [(x1 & s1 & H1 & H)|(e & H1 & ->)].
    2:{ apply call_log in H1. refine (ex_intro _ [_] _).
        split; [exact H1|]. split; [cbn; lia|]. split; [intros e' He'; injection He' as <-; left; do 2 eexists; reflexivity | discriminate]. }
    apply call_log in H1.
    apply bind_inv in H. destruct H as [(x2 & s2 & H2 & H)|(e & H2 & ->)].
    2:{ apply call_log in H2. rewrite H1 in H2. refine (ex_intro _ [_; _] _).
        split; [exact H2|]. split; [cbn; lia|]. split; [intros e' He'; injection He' as <-; left; do 2 eexists; reflexivity | discriminate]. }
    apply call_log in H2. rewrite H1 in H2.
    apply bind_inv in H. destruct H as [(ms & s2' & Hms & H)|(e & Hms & ->)].
    2:{ apply lift_inv in Hms. destruct Hms as [Hms ->]. refine (ex_intro _ [_; _] _).
        split; [exact H2|]. split; [cbn; lia|]. split; [intros e' He'; injection He' as <-; now right | discriminate]. }
    apply lift_inv in Hms. destruct Hms as [Hms ->].
    apply bind_inv in H. destruct H as [(x3 & s3 & H3 & H)|(e & H3 & ->)].
    2:{ apply call_log in H3. rewrite H2 in H3. refine (ex_intro _ [_; _; _] _).
        split; [exact H3|]. split; [cbn; lia|]. split; [intros e' He'; injection He' as <-; left; do 2 eexists; reflexivity | discriminate]. }
    apply call_log in H3. rewrite H2 in H3.
    apply bind_inv in H. destruct H as [(cur & s4 & H4 & H)|(e & H4 & ->)].
    2:{ apply call_log in H4. rewrite H3 in H4. refine (ex_intro _ [_; _; _; _] _).
        split; [exact H4|]. split; [cbn; lia|]. split; [intros e' He'; injection He' as <-; left; do 2 eexists; reflexivity | discriminate]. }
    apply call_log in H4. rewrite H3 in H4. cbn [ret_type] in cur.
    set (round := [Ev (Count cards) (Ok cur); Ev (WaitForTimeout ms) (Ok x3);
                   Ev (WaitForTimeout pause_ms) (Ok x2);
                   Ev (Evaluate scroll_to_bottom_js) (Ok x1)]) in *.
    assert (Hround : added st s4 round) by exact H4.
    assert (Hsc : scrolls round = 1) by reflexivity.
    assert (Hcs : count_answers round = [cur]) by reflexivity.
    assert (Hrec : forall prev' k',
               scroll_rounds cards pause_ms needed rounds prev' (Z.of_nat k') s4 = (r, st') ->
               (forall cs', streak_after prev k (cur :: cs') = streak_after prev' k' cs') ->
               exists new,
                 added st st' new
                 /\ scrolls new <= S rounds
                 /\ (forall e, r = Raised e ->
                               (exists c rest, new = Ev c (Raised e) :: rest)
                               \/ int_times_0_6 pause_ms = Raised e)
                 /\ (forall p, r = Ok p ->
                     let cs := count_answers new in
                     scrolls new = List.length cs
                     /\ (List.length cs < S rounds ->
                         cs <> [] /\ 0 < streak_after prev k cs
                         /\ (needed <= Z.of_nat (streak_after prev k cs))%Z)
                     /\ (forall j, 0 < j < List.length cs ->
                            k' = 0 \/ (Z.of_nat k' < needed)%Z ->
                            streak_after prev k (firstn j cs) = 0
                            \/ (Z.of_nat (streak_after prev k (firstn j cs)) < needed)%Z))).
    { intros prev' k' Hr Hstreak.
      destruct (IH _ _ _ _ _ Hr) as (new & Hadd & Hle & Hraise & Hok).
      exists (new ++ round). split; [exact (added_trans _ _ _ _ _ Hround Hadd)|].
      split; [rewrite scrolls_app, Hsc; lia|]. split.
      - intros e He. destruct (Hraise e He) as [(c & rest & ->)|Hconv]; [left | now right].
        exists c, (rest ++ round). reflexivity.
      - intros p Hp. destruct (Hok p Hp) as (Hlen & Hearly & Hsoon).
        cbv zeta. rewrite count_answers_app, Hcs, scrolls_app, Hsc.
        cbn [app List.length]. split; [lia|]. split.
        + intros Hshort. rewrite Hstreak.
          destruct Hearly as (_ & Hpos & Hneed); [lia|].
          repeat split; [discriminate | assumption | assumption].
        + intros j Hj Hk'. destruct j as [|j]; [lia|].
          cbn [firstn]. rewrite Hstreak.
          destruct j as [|j]; [cbn [firstn streak_after]; destruct Hk'; [left|right]; assumption|].
          apply Hsoon. lia. }
    destruct (Nat.ltb_spec prev cur) as [Hgrow|Hsame].
    + destruct (Hrec cur 0 H) as (new & Hadd & Hle & Hraise & Hok).
      { intros cs'. cbn [streak_after]. destruct (Nat.ltb_spec prev cur); [reflexivity | lia]. }
      exists new. split; [assumption|]. split; [assumption|]. split; [assumption|].
      intros p Hp. destruct (Hok p Hp) as (Hlen & Hearly & Hsoon). cbv zeta.
      split; [assumption|]. split; [assumption|].
      intros j Hj. apply Hsoon; [exact Hj | now left].
    + replace (Z.of_nat k + 1)%Z with (Z.of_nat (S k)) in H by lia.
      destruct (Z.geb_spec (Z.of_nat (S k)) needed) as [Hstop|Hgo].
      * apply ret_inv in H. destruct H as [-> ->].
        exists round. split; [assumption|]. split; [rewrite Hsc; lia|].
        split; [discriminate|]. intros p _. cbv zeta. rewrite Hcs, Hsc.
        assert (Hs : streak_after prev k [cur] = S k).
        { cbn [streak_after]. destruct (Nat.ltb_spec prev cur); [lia | reflexivity]. }
        split; [reflexivity|]. split.
        -- intros _. rewrite Hs. repeat split; [discriminate | lia | lia].
        -- cbn [List.length]. intros j Hj. lia.
      * destruct (Hrec prev (S k) H) as (new & Hadd & Hle & Hraise & Hok).
        { intros cs'. cbn [streak_after]. destruct (Nat.ltb_spec prev cur); [lia | reflexivity]. }
        exists new. split; [assumption|]. split; [assumption|]. split; [assumption|].
        intros p Hp. destruct (Hok p Hp) as (Hlen & Hearly & Hsoon). cbv zeta.
        split; [assumption|]. split; [assumption|].
        intros j Hj. apply Hsoon; [exact Hj | right; lia].
Qed.

(** C7, as the code has it.  [scroll_until_all_loaded] always ends, after
    at most [max_scrolls] scrolls; an exception can only be that of a call
    that raised, or that of the conversion [int(pause_ms * 0.6)], so the
    cap itself raises nothing; and when it returns having made fewer than
    [max_scrolls] rounds, the last round completed a streak of at least
    [stable_rounds_needed] non-growing rounds, which no earlier round had
    done.  A streak has at least one round: for a [stable_rounds_needed]
    of one or more, the loop has stopped as soon as the count had been
    non-growing for that many rounds in a row; for zero or less it stops
    at the first round that does not grow the count. *)
Theorem C7_scroll_until_all_loaded (pause_ms max_scrolls stable_rounds_needed : Z) (st : St) :
  exists (r : Res unit) (st' : St) (new : list Event),
    scroll_until_all_loaded pause_ms max_scrolls stable_rounds_needed st = (r, st')
    /\ added st st' new
    /\ scrolls new <= Z.to_nat max_scrolls
    /\ (forall e, r = Raised e ->
                  (exists c rest, new = Ev c (Raised e) :: rest)
                  \/ int_times_0_6 pause_ms = Raised e)
    /\ (r = Ok tt ->
        exists prev cs,
          count_answers new = prev :: cs
          /\ scrolls new = List.length cs
          /\ (List.length cs < Z.to_nat max_scrolls ->
              0 < streak prev cs /\ (stable_rounds_needed <= Z.of_nat (streak prev cs))%Z)
          /\ (forall j, 0 < j < List.length cs ->
                        streak prev (firstn j cs) = 0
                        \/ (Z.of_nat (streak prev (firstn j cs)) < stable_rounds_needed)%Z)
          /\ ((1 <= stable_rounds_needed)%Z ->
              forall j, j < List.length cs ->
                        (Z.of_nat (streak prev (firstn j cs)) < stable_rounds_needed)%Z)).
Proof.
  destruct (scroll_until_all_loaded pause_ms max_scrolls stable_rounds_needed st)
    as [r st'] eqn:H.
  exists r, st'. unfold scroll_until_all_loaded in H.
  apply bind_inv in H. destruct H as [(prev & s1 & H1 & H)|(e & H1 & ->)].
  2:{ apply call_log in H1. refine (ex_intro _ [_] _).
      split; [reflexivity|]. split; [exact H1|]. split; [cbn; lia|].
      split; [intros e' He'; injection He' as <-; left; do 2 eexists; reflexivity
             | discriminate]. }
  apply call_log in H1. cbn [ret_type] in prev.
  assert (Hfirst : added st s1 [Ev (Count (page_locator sel_vacancy)) (Ok prev)]) by exact H1.
  apply bind_inv in H. destruct H as [(p & s2 & H2 & H)|(e & H2 & ->)].
  - apply ret_inv in H. destruct H as [-> ->].
    destruct (scroll_rounds_spec _ _ _ _ prev 0 _ _ _ H2) as (new & Hadd & Hle & _ & Hok).
    destruct (Hok p eq_refl) as (Hlen & Hearly & Hsoon).
    exists (new ++ [Ev (Count (page_locator sel_vacancy)) (Ok prev)]).
    split; [reflexivity|]. split; [exact (added_trans _ _ _ _ _ Hfirst Hadd)|].
    split; [rewrite scrolls_app; cbn; lia|]. split; [discriminate|].
    intros _. exists prev, (count_answers new).
    split; [now rewrite count_answers_app|].
    split; [rewrite scrolls_app; cbn; lia|]. split; [|split].
    + intros Hshort. destruct (Hearly Hshort) as (_ & Hpos & Hneed). now split.
    + exact Hsoon.
    + intros Hone j Hj. destruct j as [|j].
      * cbn [firstn]. unfold streak. cbn [streak_after]. lia.
      * destruct (Hsoon (S j)) as [H0|Hlt]; [lia | | exact Hlt].
        unfold streak. rewrite H0. lia.
  - destruct (scroll_rounds_spec _ _ _ _ prev 0 _ _ _ H2) as (new & Hadd & Hle & Hraise & _).
    exists (new ++ [Ev (Count (page_locator sel_vacancy)) (Ok prev)]).
    split; [reflexivity|]. split; [exact (added_trans _ _ _ _ _ Hfirst Hadd)|].
    split; [rewrite scrolls_app; cbn; lia|]. split.
    + intros e' He'. injection He' as <-.
      destruct (Hraise e eq_refl) as [(c & rest & ->)|Hconv]; [left | now right].
      exists c, (rest ++ [Ev (Count (page_locator sel_vacancy)) (Ok prev)]). reflexivity.
    + discriminate.
Qed.

End Loader.

(** ** The cover letter and the apply loop of [run] *)

Section CoverLetter.

Context {E : Env}.

Local Open Scope nat_scope.

Lemma emits_ret {A} (P : list Event -> Prop) (a : A) : P [] -> emits P (ret a).
Proof.
  intros HP s r s' H. apply ret_inv in H. destruct H as [_ ->].
  exists []. split; [apply added_refl | assumption].
Qed.

Lemma emits_lift {A} (P : list Event -> Prop) (x : Res A) : P [] -> emits P (lift x).
Proof.
  intros HP s r s' H. apply lift_inv in H. destruct H as [_ ->].
  exists []. split; [apply added_refl | assumption].
Qed.

Lemma emits_call (P : list Event -> Prop) (c : Call) :
  (forall r, P [Ev c r]) -> emits P (call c).
Proof.
  intros HP s r s' H. exists [Ev c r]. split; [now apply added_call | apply HP].
Qed.

Lemma emits_bind {A B} (P Q R : list Event -> Prop) (m : M A) (k : A -> M B) :
  emits P m -> (forall a, emits Q (k a)) ->
  (forall n1, P n1 -> R n1) ->
  (forall n1 n2, P n1 -> Q n2 -> R (n2 ++ n1)) ->
  emits R (bind m k).
Proof.
  intros Hm Hk Hraise Hboth s r s' H.
  apply bind_inv in H. destruct H as [(a & s1 & H1 & H2)|(e & H1 & _)].
  - destruct (Hm _ _ _ H1) as (n1 & Ha1 & HP). destruct (Hk a _ _ _ H2) as (n2 & Ha2 & HQ).
    exists (n2 ++ n1). split; [exact (added_trans _ _ _ _ _ Ha1 Ha2) | now apply Hboth].
  - destruct (Hm _ _ _ H1) as (n1 & Ha1 & HP). exists n1. split; [assumption | now apply Hraise].
Qed.

Lemma emits_catch {A} (P Q R : list Event -> Prop) (m : M A) (h : Exception -> M A) :
  emits P m -> (forall e, emits Q (h e)) ->
  (forall n1, P n1 -> R n1) ->
  (forall n1 n2, P n1 -> Q n2 -> R (n2 ++ n1)) ->
  emits R (catch m h).
Proof.
  intros Hm Hh Hok Hboth s r s' H.
  apply catch_inv in H. destruct H as [(a & H1 & _)|(e & s1 & H1 & H2)].
  - destruct (Hm _ _ _ H1) as (n1 & Ha1 & HP). exists n1. split; [assumption | now apply Hok].
  - destruct (Hm _ _ _ H1) as (n1 & Ha1 & HP). destruct (Hh e _ _ _ H2) as (n2 & Ha2 & HQ).
    exists (n2 ++ n1). split; [exact (added_trans _ _ _ _ _ Ha1 Ha2) | now apply Hboth].
Qed.

Lemma emits_weaken {A} (P Q : list Event -> Prop) (m : M A) :
  (forall n, P n -> Q n) -> emits P m -> emits Q m.
Proof.
  intros HPQ Hm s r s' H. destruct (Hm _ _ _ H) as (n & Ha & HP). eauto.
Qed.

Lemma quiet_app (n1 n2 : list Event) : quiet n1 -> quiet n2 -> quiet (n2 ++ n1).
Proof. intros H1 H2. apply Forall_app. now split. Qed.

Lemma filled_then (n1 n2 : list Event) : filled n1 -> filled (n2 ++ n1).
Proof.
  intros (after & r & before & -> & Hq). exists (n2 ++ after), r, before.
  now rewrite app_assoc.
Qed.

Lemma quiet_then_guarded (n1 n2 : list Event) : quiet n1 -> guarded n2 -> guarded (n2 ++ n1).
Proof.
  intros H1 [H2|(after & r & before & -> & Hq)].
  - left. now apply quiet_app.
  - right. exists after, r, (before ++ n1). split.
    + now rewrite <- app_assoc.
    + now apply quiet_app.
Qed.

Lemma guarded_then_quiet (n1 n2 : list Event) : guarded n1 -> quiet n2 -> guarded (n2 ++ n1).
Proof.
  intros [H1|H1] H2.
  - left. now apply quiet_app.
  - right. now apply filled_then.
Qed.

(** Sequencing, for each of the three kinds of log. *)
Lemma quiet_bind {A B} (m : M A) (k : A -> M B) :
  emits quiet m -> (forall a, emits quiet (k a)) -> emits quiet (bind m k).
Proof. intros Hm Hk. apply (emits_bind quiet quiet); auto using quiet_app. Qed.

Lemma quiet_catch {A} (m : M A) (h : Exception -> M A) :
  emits quiet m -> (forall e, emits quiet (h e)) -> emits quiet (catch m h).
Proof. intros Hm Hh. apply (emits_catch quiet quiet); auto using quiet_app. Qed.

Lemma any_bind {A B} (m : M A) (k : A -> M B) :
  emits any_log m -> (forall a, emits any_log (k a)) -> emits any_log (bind m k).
Proof. intros Hm Hk. apply (emits_bind any_log any_log); unfold any_log; auto. Qed.

Lemma any_catch {A} (m : M A) (h : Exception -> M A) :
  emits any_log m -> (forall e, emits any_log (h e)) -> emits any_log (catch m h).
Proof. intros Hm Hh. apply (emits_catch any_log any_log); unfold any_log; auto. Qed.

Lemma quiet_any {A} (m : M A) : emits quiet m -> emits any_log m.
Proof. apply emits_weaken. unfold any_log. auto. Qed.

Lemma quiet_then_guarded_bind {A B} (m : M A) (k : A -> M B) :
  emits quiet m -> (forall a, emits guarded (k a)) -> emits guarded (bind m k).
Proof.
  intros Hm Hk. apply (emits_bind quiet guarded); auto using quiet_then_guarded.
  intros n Hn. now left.
Qed.

Lemma guarded_then_quiet_bind {A B} (m : M A) (k : A -> M B) :
  emits guarded m -> (forall a, emits quiet (k a)) -> emits guarded (bind m k).
Proof. intros Hm Hk. apply (emits_bind guarded quiet); auto using guarded_then_quiet. Qed.

Lemma filled_bind {A B} (m : M A) (k : A -> M B) :
  emits filled m -> (forall a, emits any_log (k a)) -> emits filled (bind m k).
Proof. intros Hm Hk. apply (emits_bind filled any_log); auto using filled_then. Qed.

Lemma quiet_call (c : Call) : is_close_count c = false -> emits quiet (call c).
Proof. intros H. apply emits_call. intros r. constructor; [exact H | constructor]. Qed.

Lemma quiet_ret {A} (a : A) : emits quiet (ret a).
Proof. apply emits_ret. constructor. Qed.

Lemma any_call (c : Call) : emits any_log (call c).
Proof. apply emits_call. intros r. exact I. Qed.

Lemma any_ret {A} (a : A) : emits any_log (ret a).
Proof. apply emits_ret. exact I. Qed.

End CoverLetter.

(** Decides that a computation written with [bind], [catch], [call] and
    [ret] does not dismiss the modal, or that it adds to the log at all. *)
Ltac quiet_tac :=
  repeat first
         [ apply quiet_ret
         | match goal with
           | |- emits _ (call ?c) => apply (quiet_call c); vm_compute; reflexivity
           end
         | apply quiet_bind; [|intros ?; cbv beta]
         | apply quiet_catch; [|intros ?; cbv beta]
         | match goal with
           | |- emits _ (if ?b then _ else _) => destruct b
           | |- emits _ (match ?x with _ => _ end) => destruct x
           end ].

Ltac any_tac :=
  repeat first
         [ apply any_ret
         | match goal with |- emits _ (call ?c) => apply (any_call c) end
         | apply any_bind; [|intros ?; cbv beta]
         | apply any_catch; [|intros ?; cbv beta]
         | match goal with
           | |- emits _ (if ?b then _ else _) => destruct b
           | |- emits _ (match ?x with _ => _ end) => destruct x
           end ].

Section CoverLetterClaims.

Context {E : Env}.

Local Open Scope nat_scope.

Lemma is_test_page_quiet : emits quiet is_test_page.
Proof. unfold is_test_page. quiet_tac. Qed.

Lemma safe_go_back_to_serp_quiet (url : pystr) : emits quiet (safe_go_back_to_serp url).
Proof. unfold safe_go_back_to_serp. quiet_tac. Qed.

Lemma is_cover_letter_required_modal_quiet : emits quiet is_cover_letter_required_modal.
Proof. unfold is_cover_letter_required_modal. quiet_tac. Qed.

Lemma hide_vacancy_card_quiet (card : Locator) (timeout_ms : Z) :
  emits quiet (hide_vacancy_card card timeout_ms).
Proof. unfold hide_vacancy_card. quiet_tac. Qed.

Lemma close_response_modal_if_open_any : emits any_log close_response_modal_if_open.
Proof. unfold close_response_modal_if_open. any_tac. Qed.

(** Whatever happens in it, [fill_and_submit_cover_letter] begins with
    the wait for the dialog. *)
Lemma fill_and_submit_cover_letter_filled (text : pystr) :
  emits filled (fill_and_submit_cover_letter text 10000).
Proof.
  unfold fill_and_submit_cover_letter.
  apply (emits_catch filled any_log); [| intros e; any_tac | auto | auto using filled_then].
  apply filled_bind; [|intros a; any_tac].
  apply emits_call. intros r. exists [], r, []. split; [reflexivity | constructor].
Qed.

Lemma poll_round_guarded (original_url : pystr) (text : option pystr) :
  truthy_opt text = true -> emits guarded (poll_round original_url text).
Proof.
  intros Htext. unfold poll_round. rewrite Htext.
  apply quiet_then_guarded_bind; [quiet_tac | intros s].
  destruct (negb (s =? 0)); [apply (emits_weaken quiet); [now left | quiet_tac]|].
  apply quiet_then_guarded_bind; [apply is_cover_letter_required_modal_quiet | intros modal].
  destruct modal.
  - apply (emits_weaken filled); [now right|].
    apply filled_bind; [apply fill_and_submit_cover_letter_filled | intros b].
    destruct b; [any_tac|].
    apply any_bind; [apply close_response_modal_if_open_any | intros; any_tac].
  - apply (emits_weaken quiet); [now left|].
    apply quiet_bind; [quiet_tac | intros url].
    destruct (negb _); [|quiet_tac].
    apply quiet_bind; [apply is_test_page_quiet | intros t].
    destruct t; (apply quiet_bind; [apply safe_go_back_to_serp_quiet | intros; quiet_tac]).
Qed.

Lemma poll_loop_guarded (fuel : nat) (original_url : pystr) (text : option pystr) (deadline : Q) :
  truthy_opt text = true -> emits guarded (poll_loop fuel original_url text deadline).
Proof.
  intros Htext. induction fuel as [|fuel IH]; cbn [poll_loop].
  - apply (emits_weaken quiet); [now left | quiet_tac].
  - apply quiet_then_guarded_bind; [quiet_tac | intros now].
    destruct (Qltb now deadline); [|apply (emits_weaken quiet); [now left | quiet_tac]].
    apply (emits_bind guarded guarded).
    + now apply poll_round_guarded.
    + intros [o|]; [apply (emits_weaken quiet); [now left | quiet_tac]|].
      apply quiet_then_guarded_bind; [quiet_tac | intros; exact IH].
    + auto.
    + intros n1 n2 [H1|H1] H2.
      * now apply quiet_then_guarded.
      * right. now apply filled_then.
Qed.

Lemma click_apply_on_card_guarded
      (fuel : nat) (card : Locator) (text : option pystr) (poll_timeout_sec : Q) :
  truthy_opt text = true ->
  emits guarded (click_apply_on_card fuel card text poll_timeout_sec).
Proof.
  intros Htext. unfold click_apply_on_card.
  apply quiet_then_guarded_bind; [quiet_tac | intros url].
  apply quiet_then_guarded_bind; [quiet_tac | intros x].
  apply quiet_then_guarded_bind; [quiet_tac | intros n].
  destruct (n =? 0); [apply (emits_weaken quiet); [now left | quiet_tac]|].
  apply quiet_then_guarded_bind; [quiet_tac | intros y].
  apply quiet_then_guarded_bind; [quiet_tac | intros t].
  now apply poll_loop_guarded.
Qed.

Lemma generate_cover_letter_truthy (vacancy_title : pystr)
      (vacancy_description custom_template : option pystr) :
  truthy (generate_cover_letter vacancy_title vacancy_description custom_template) = true.
Proof.
  unfold generate_cover_letter.
  destruct custom_template as [[|c s]|]; reflexivity.
Qed.

(** C10.  [generate_cover_letter] returns a non-empty string: a truthy
    custom template as it is, and otherwise the fixed text around the
    vacancy title.  So the classifier's test of its cover letter text
    succeeds on it, and in an iteration of the apply loop of [run], which
    passes that string, the modal is never dismissed before an attempt to
    fill the letter in. *)
Theorem C10_cover_letter_never_empty
        (vacancy_title : pystr) (vacancy_description custom_template : option pystr) :
  generate_cover_letter vacancy_title vacancy_description custom_template <> []
  /\ (forall s, custom_template = Some s -> truthy s = true ->
                generate_cover_letter vacancy_title vacancy_description custom_template = s)
  /\ (truthy_opt custom_template = false ->
      generate_cover_letter vacancy_title vacancy_description custom_template
      = u"Здравствуйте!" ++ nl ++ nl
        ++ u"Меня заинтересовала вакансия " ++ dq ++ vacancy_title ++ dq ++ u"." ++ nl ++ nl
        ++ u"Готов обсудить детали и ответить на ваши вопросы." ++ nl ++ nl
        ++ u"С уважением")
  /\ truthy_opt
       (Some (generate_cover_letter vacancy_title vacancy_description custom_template)) = true
  /\ (forall fuel card poll_timeout_sec,
         emits guarded
               (click_apply_on_card fuel card
                  (Some (generate_cover_letter vacancy_title vacancy_description
                                               custom_template))
                  poll_timeout_sec))
  /\ (forall fuel v, title v = vacancy_title -> description v = vacancy_description ->
                     emits guarded (run_apply_one fuel custom_template v)).
Proof.
  pose proof (generate_cover_letter_truthy vacancy_title vacancy_description custom_template)
    as Ht.
  split; [|split; [|split; [|split; [|split]]]].
  - intros H. rewrite H in Ht. discriminate.
  - intros s -> Hs. unfold generate_cover_letter. cbn [truthy_opt or_empty]. now rewrite Hs.
  - intros Hc. unfold generate_cover_letter. now rewrite Hc.
  - exact Ht.
  - intros fuel card poll_timeout_sec. now apply click_apply_on_card_guarded.
  - intros fuel v <- <-. unfold run_apply_one.
    apply quiet_then_guarded_bind; [quiet_tac | intros n].
    destruct (n =? 0); [apply (emits_weaken quiet); [now left | quiet_tac]|].
    apply guarded_then_quiet_bind.
    + apply click_apply_on_card_guarded. apply generate_cover_letter_truthy.
    + intros [o|]; [|quiet_tac].
      destruct o; try (apply quiet_ret);
        (apply quiet_bind; [quiet_tac | intros k]; destruct (0 <? k); [|quiet_tac];
         apply quiet_bind; [apply hide_vacancy_card_quiet | intros; quiet_tac]).
Qed.

End CoverLetterClaims.

(** * The theorems on the sample pages *)

(** The ASCII table satisfies the law. *)
Lemma ascii_only_law : ascii_below_0660 ascii_only.
Proof. intros c _. reflexivity. Defined.

(** The long run is a run of digits, with nothing after it. *)
Lemma long_run_digits : Forall (fun c => @is_digit ascii_only c = true) long_run.
Proof.
  apply Forall_forall. intros c Hc. apply repeat_spec in Hc. now subst c.
Defined.

Lemma long_run_first (pre : pystr) :
  Forall (fun c => @is_digit ascii_only c = false) pre ->
  @first_digit_run ascii_only (pre ++ long_run) long_run.
Proof.
  intros Hpre. exists pre, []. rewrite app_nil_r.
  repeat split; [exact Hpre | discriminate | exact long_run_digits].
Defined.

(** C5 as stated fails: a text with a run of 4301 digits has a first digit
    run, but [_parse_int] does not return its value: [int()] raises
    [ValueError]. *)
Lemma C5_counterexample :
  ~ (forall (U : Interpreter),
        ascii_below_0660 U ->
        forall text,
          Exists (fun c => is_digit c = true) text ->
          exists run, first_digit_run (replace NBSP SPACE text) run
                      /\ _parse_int text = Ok (Some (int_of_digits run))).
Proof.
  intros H.
  destruct (H ascii_only ascii_only_law (u"Сейчас смотрят " ++ long_run)) as (run & _ & Hp).
  - apply Exists_exists. exists 49. split; [|reflexivity].
    apply in_or_app. right. now left.
  - vm_compute in Hp. discriminate.
Qed.

(** C5 (amended) on the interpreter with the ASCII digits and the default
    limit: the example, a count in the middle of a text, a text with no
    digit, and a run of 4301 digits. *)
Lemma C5_witness :
  ascii_below_0660 ascii_only
  /\ @_parse_int ascii_only (u"Сейчас смотрят 1" ++ [NBSP] ++ u"234") = Ok (Some 1%Z)
  /\ @_parse_int ascii_only (u"смотрят 12" ++ [NBSP] ++ u"чел") = Ok (Some 12%Z)
  /\ @_parse_int ascii_only (u"Сейчас смотрят —") = Ok None
  /\ @_parse_int ascii_only (u"Сейчас смотрят " ++ long_run) = Raised ValueError.
Proof.
  split; [exact ascii_only_law|].
  destruct (@C5_parse_int_first_digit_run ascii_only ascii_only_law)
    as (Hrun & _ & _ & Hnone & _ & Hex).
  split; [exact Hex|]. split; [|split].
  - refine (eq_trans (Hrun (u"смотрят 12" ++ [NBSP] ++ u"чел") (u"12") _) _);
      [|vm_compute; reflexivity].
    exists (u"смотрят "), (u" чел"). vm_compute.
    repeat split; try discriminate; repeat constructor.
  - apply Hnone. vm_compute. repeat constructor.
  - refine (eq_trans (Hrun (u"Сейчас смотрят " ++ long_run) long_run _) _);
      [|vm_compute; reflexivity].
    replace (replace NBSP SPACE (u"Сейчас смотрят " ++ long_run))
      with (u"Сейчас смотрят " ++ long_run) by (vm_compute; reflexivity).
    apply long_run_first. vm_compute. repeat constructor.
Defined.

(** C9 as stated fails: the first digit run of the text has 4301 digits,
    and [_parse_int] does not return its value. *)
Lemma C9_counterexample :
  ~ (forall (U : Interpreter),
        ascii_below_0660 U ->
        forall t run,
          first_digit_run t run -> _parse_int t = Ok (Some (int_of_digits run))).
Proof.
  intros H.
  pose proof (H ascii_only ascii_only_law (u"смотрят" ++ [NBSP] ++ long_run) long_run) as Hp.
  assert (Hrun : @first_digit_run ascii_only (u"смотрят" ++ [NBSP] ++ long_run) long_run).
  { rewrite app_assoc. apply long_run_first. vm_compute. repeat constructor. }
  specialize (Hp Hrun). vm_compute in Hp. discriminate.
Qed.

(** C9 (amended) on the interpreter with the ASCII digits and the default
    limit. *)
Lemma C9_witness :
  ascii_below_0660 ascii_only
  /\ @_parse_int ascii_only (u"1" ++ [NBSP] ++ u"234")
     = @first_digit_run_value ascii_only (u"1" ++ [NBSP] ++ u"234")
  /\ @_parse_int ascii_only (u"смотрят 12" ++ [NBSP] ++ u"чел") = Ok (Some 12%Z)
  /\ @_parse_int ascii_only (u"смотрят" ++ [NBSP] ++ long_run) = Raised ValueError
  /\ @first_digit_run_value ascii_only (u"смотрят" ++ [NBSP] ++ long_run) = Raised ValueError.
Proof.
  split; [exact ascii_only_law|].
  destruct (@C9_parse_int_normalization_is_identity ascii_only ascii_only_law)
    as (Heq & Hrun & _).
  split; [apply Heq|]. split; [|split].
  - refine (eq_trans (Hrun (u"смотрят 12" ++ [NBSP] ++ u"чел") (u"12") _) _);
      [|vm_compute; reflexivity].
    exists (u"смотрят "), ([NBSP] ++ u"чел"). vm_compute.
    repeat split; try discriminate; repeat constructor.
  - refine (eq_trans (Hrun (u"смотрят" ++ [NBSP] ++ long_run) long_run _) _);
      [|vm_compute; reflexivity].
    rewrite app_assoc. apply long_run_first. vm_compute. repeat constructor.
  - rewrite <- Heq.
    refine (eq_trans (Hrun (u"смотрят" ++ [NBSP] ++ long_run) long_run _) _);
      [|vm_compute; reflexivity].
    rewrite app_assoc. apply long_run_first. vm_compute. repeat constructor.
Defined.

(** Evaluates a run on a sample page. *)
Ltac run := vm_compute; reflexivity.

(** C1 on the pages that show the toast and the modal together: in the
    first polling round, and in the second one. *)
Lemma C1_witness :
  fst (click_apply_on_card 30 a_card None 6 (toy_state page_toast_and_modal toy_start))
  = Ok (Some sent)
  /\ fst (click_apply_on_card 30 a_card (Some a_letter) 6
            (toy_state page_late_toast_and_modal toy_start))
     = Ok (Some sent).
Proof.
  split.
  - set (st := toy_state page_toast_and_modal toy_start).
    pose (s1 := snd (call Url st)).
    pose (s2 := snd (call (ScrollIntoViewIfNeeded a_card 10000) s1)).
    pose (s3 := snd (call (Count (apply_button a_card)) s2)).
    pose (s4 := snd (call (Click (apply_button a_card) None) s3)).
    pose (s5 := snd (call TimeTime s4)).
    pose (s7 := snd (call TimeTime s5)).
    pose (s8 := snd (call (Count success_toast) s7)).
    rewrite (@C1_success_toast_before_modal (toy_env page_toast_and_modal)
               30 0 a_card None 6 0 0 st s1 s2 s3 s4 s5 s5 s7 s8 serp_url 0 1);
      [reflexivity | run | run | run | run | run | apply idle_none | run | run | lia
       | run | discriminate | run].
  - set (st := toy_state page_late_toast_and_modal toy_start).
    pose (s1 := snd (call Url st)).
    pose (s2 := snd (call (ScrollIntoViewIfNeeded a_card 10000) s1)).
    pose (s3 := snd (call (Count (apply_button a_card)) s2)).
    pose (s4 := snd (call (Click (apply_button a_card) None) s3)).
    pose (s5 := snd (call TimeTime s4)).
    pose (i1 := snd (call TimeTime s5)).
    pose (i2 := snd (call (Count success_toast) i1)).
    pose (i3 := snd (is_cover_letter_required_modal i2)).
    pose (i4 := snd (call Url i3)).
    pose (s6 := snd (call (WaitForTimeout 200) i4)).
    pose (s7 := snd (call TimeTime s6)).
    pose (s8 := snd (call (Count success_toast) s7)).
    rewrite (@C1_success_toast_before_modal (toy_env page_late_toast_and_modal)
               30 1 a_card (Some a_letter) 6 0 (1 # 5) st s1 s2 s3 s4 s5 s6 s7 s8 serp_url 0 1);
      [reflexivity | run | run | run | run | run | | run | run | lia
       | run | discriminate | run].
    apply (@idle_more (toy_env page_late_toast_and_modal) serp_url (0 + 6)%Q
                      0 s5 i1 i2 i3 i4 s6 s6 0 serp_url);
      [run | run | run | run | run | run | run | apply idle_none].
Defined.

(** C2, on the code: the exceptions of the scroll into view, of the click
    on the apply button and of the wait for the listing after the return
    leave [click_apply_on_card]; the last call in the log is the one that
    raised. *)
Theorem C2_exceptions_leave_click_apply_on_card :
  (fst (click_apply_on_card 30 a_card None 6 (toy_state page_card_gone toy_start))
   = Raised TimeoutError
   /\ hd_error (calls (log (snd (click_apply_on_card 30 a_card None 6
                                   (toy_state page_card_gone toy_start)))))
      = Some (ScrollIntoViewIfNeeded a_card 10000))
  /\ (fst (click_apply_on_card 30 a_card None 6 (toy_state page_button_covered toy_start))
      = Raised TimeoutError
      /\ hd_error (calls (log (snd (click_apply_on_card 30 a_card None 6
                                      (toy_state page_button_covered toy_start)))))
         = Some (Click (apply_button a_card) None))
  /\ (fst (click_apply_on_card 30 a_card None 6
             (toy_state page_redirect_listing_lost toy_start))
      = Raised TimeoutError
      /\ hd_error (calls (log (snd (click_apply_on_card 30 a_card None 6
                                      (toy_state page_redirect_listing_lost toy_start)))))
         = Some (WaitForSelector sel_vacancy 15000))
  /\ fst (safe_go_back_to_serp serp_url (toy_state page_redirect_listing_lost toy_clicked))
     = Raised TimeoutError.
Proof. repeat split; vm_compute; reflexivity. Qed.

(** On the page with both the toast and the modal the whole call gives
    [sent]. *)
Example toast_and_modal_gives_sent :
  fst (click_apply_on_card 30 a_card (Some (u"Добрый день!")) 6
         (toy_state page_toast_and_modal toy_start)) = Ok (Some sent)
  /\ fst (click_apply_on_card 30 a_card None 6
            (toy_state page_toast_and_modal toy_start)) = Ok (Some sent).
Proof. split; vm_compute; reflexivity. Qed.

(** C3 as stated fails: a card with no apply button gives
    [no_apply_button], but the call has acted on the page, which is not as
    it was. *)
Lemma C3_counterexample :
  ~ (forall (E : Env) (fuel : nat) (card : Locator) (text : option pystr) (timeout : Q)
            (st : St),
        (forall s, fst (call (Count (apply_button card)) s) = Ok 0%nat) ->
        fst (click_apply_on_card fuel card text timeout st) = Ok (Some no_apply_button)
        /\ world (snd (click_apply_on_card fuel card text timeout st)) = world st
        /\ forall new,
            added st (snd (click_apply_on_card fuel card text timeout st)) new ->
            forallb (fun c => negb (acts_on_page c)) (calls new) = true).
Proof.
  intros H.
  destruct (H (toy_env page_no_apply_button) 30%nat a_card None 6%Q
              (toy_state page_no_apply_button toy_start)) as (_ & Hworld & _).
  - intros s. reflexivity.
  - vm_compute in Hworld. discriminate.
Qed.

(** C3 (amended) on the card with no apply button. *)
Lemma C3_witness :
  let st := toy_state page_no_apply_button toy_start in
  click_apply_on_card 30 a_card None 6 st
  = (Ok (Some no_apply_button),
     snd (call (Count (apply_button a_card))
            (snd (call (ScrollIntoViewIfNeeded a_card 10000) (snd (call Url st)))))).
Proof.
  intros st.
  pose (s1 := snd (call Url st)).
  pose (s2 := snd (call (ScrollIntoViewIfNeeded a_card 10000) s1)).
  pose (s3 := snd (call (Count (apply_button a_card)) s2)).
  destruct (@C3_no_apply_button_after_scroll (toy_env page_no_apply_button)
              30 a_card None 6 st s1 s2 s3 serp_url) as [H _];
    [vm_compute; reflexivity | vm_compute; reflexivity | vm_compute; reflexivity |].
  exact H.
Defined.


(** C6 on the sample listing. *)
Lemma C6_witness :
  exists result,
    fst (@collect_vacancies_for_apply ascii_only (toy_env page_listing) 10
           (toy_state page_listing toy_start)) = Ok result
    /\ (Z.of_nat (List.length result) <= 10)%Z
    /\ Forall (fun v => vacancy_id v <> []
                        /\ Forall (fun c => @is_digit ascii_only c = true) (vacancy_id v))
              result.
Proof.
  destruct (@collect_vacancies_for_apply ascii_only (toy_env page_listing) 10
              (toy_state page_listing toy_start)) as [[result|e] st'] eqn:H.
  - exists result. split; [reflexivity|].
    assert (Hlimit : (0 < 10)%Z) by reflexivity.
    destruct (@C6_collect_vacancies_for_apply ascii_only (toy_env page_listing)
                10 _ _ _ Hlimit H) as (Hlen & new & _ & _ & Hids).
    split; assumption.
  - vm_compute in H. discriminate.
Defined.

(** C7 as stated fails for [stable_rounds_needed = 0]: before the first
    round the count has been non-growing for zero rounds in a row, and yet
    on the listing that grows with every scroll the loop makes all its
    seven rounds. *)
Lemma C7_counterexample :
  ~ (forall (E : Env) (pause_ms max_scrolls stable_rounds_needed : Z) (st st' : St)
            (new : list Event) (prev : nat) (cs : list nat),
        scroll_until_all_loaded pause_ms max_scrolls stable_rounds_needed st = (Ok tt, st') ->
        added st st' new ->
        count_answers new = prev :: cs ->
        forall j, (j < List.length cs)%nat ->
                  (Z.of_nat (streak prev (firstn j cs)) < stable_rounds_needed)%Z).
Proof.
  intros H.
  set (st := toy_state page_always_growing toy_start).
  pose (st' := snd (scroll_until_all_loaded 900 7 0 st)).
  assert (H0 : (Z.of_nat (streak 20 (firstn 0 [30; 40; 50; 60; 70; 80; 90]%nat)) < 0)%Z).
  { apply (H (toy_env page_always_growing) 900%Z 7%Z 0%Z st st' (log st')).
    - vm_compute. reflexivity.
    - unfold added. cbn [st log toy_state start]. now rewrite app_nil_r.
    - vm_compute. reflexivity.
    - cbn [List.length]. lia. }
  vm_compute in H0. discriminate.
Qed.

(** C7 (amended) on the listing that grows up to forty cards: five rounds,
    two that grow the listing and three that do not. *)
Lemma C7_witness :
  exists (new : list Event) (prev : nat) (cs : list nat),
    fst (scroll_until_all_loaded 900 50 3 (toy_state page_growing toy_start)) = Ok tt
    /\ count_answers new = prev :: cs
    /\ scrolls new = List.length cs
    /\ (scrolls new <= Z.to_nat 50)%nat
    /\ ((List.length cs < Z.to_nat 50)%nat ->
        (0 < streak prev cs)%nat /\ (3 <= Z.of_nat (streak prev cs))%Z)
    /\ (forall j, (j < List.length cs)%nat -> (Z.of_nat (streak prev (firstn j cs)) < 3)%Z).
Proof.
  destruct (@C7_scroll_until_all_loaded (toy_env page_growing) 900 50 3
              (toy_state page_growing toy_start))
    as (r & st' & new & H & _ & Hle & _ & Hok).
  assert (Hr : r = Ok tt).
  { assert (H1 : fst (scroll_until_all_loaded 900 50 3 (toy_state page_growing toy_start))
                 = Ok tt) by (vm_compute; reflexivity).
    rewrite H in H1. exact H1. }
  destruct (Hok Hr) as (prev & cs & H1 & H2 & H3 & _ & H5).
  exists new, prev, cs.
  split; [vm_compute; reflexivity|]. split; [exact H1|]. split; [exact H2|].
  split; [exact Hle|]. split; [exact H3|].
  apply H5. lia.
Defined.

(** C8 on the cards with a hide button, a covered one, and none. *)
Lemma C8_witness :
  (* both clicks return, the card stays in the document *)
  fst (hide_vacancy_card a_card 5000 (toy_state page_hide_button toy_start)) = Ok true
  (* the click on the hide button raises *)
  /\ fst (hide_vacancy_card a_card 5000 (toy_state page_hide_button_covered toy_start))
     = Ok false
  (* no hide button *)
  /\ fst (hide_vacancy_card a_card 5000 (toy_state page_no_apply_button toy_start))
     = Ok false.
Proof.
  split; [|split].
  - set (st := toy_state page_hide_button toy_start).
    pose (s1 := snd (call (Count (hide_icon a_card)) st)).
    pose (s2 := snd (call (ScrollIntoViewIfNeeded a_card 5000) s1)).
    pose (s3 := snd (call (Click (hide_icon a_card) (Some 5000%Z)) s2)).
    pose (s4 := snd (call (WaitFor menu_item visible 5000) s3)).
    pose (s5 := snd (call (Click menu_item (Some 5000%Z)) s4)).
    destruct (@C8_hide_vacancy_card (toy_env page_hide_button) a_card 5000 st)
      as (_ & _ & H).
    destruct (H 0%nat s1 s2) as [_ H3];
      [vm_compute; reflexivity | vm_compute; reflexivity |].
    destruct (H3 s3) as [_ H4]; [vm_compute; reflexivity|].
    destruct (H4 s4) as [_ H5]; [vm_compute; reflexivity|].
    apply (H5 s5). vm_compute. reflexivity.
  - set (st := toy_state page_hide_button_covered toy_start).
    pose (s1 := snd (call (Count (hide_icon a_card)) st)).
    pose (s2 := snd (call (ScrollIntoViewIfNeeded a_card 5000) s1)).
    destruct (@C8_hide_vacancy_card (toy_env page_hide_button_covered) a_card 5000 st)
      as (_ & _ & H).
    destruct (H 0%nat s1 s2) as [H3 _];
      [vm_compute; reflexivity | vm_compute; reflexivity |].
    rewrite (H3 TimeoutError (snd (call (Click (hide_icon a_card) (Some 5000%Z)) s2)));
      [reflexivity | vm_compute; reflexivity].
  - set (st := toy_state page_no_apply_button toy_start).
    destruct (@C8_hide_vacancy_card (toy_env page_no_apply_button) a_card 5000 st)
      as (_ & H & _).
    rewrite (H (snd (call (Count (hide_icon a_card)) st))); [reflexivity|].
    vm_compute. reflexivity.
Defined.

(** C10 on the default letter, a custom template, and an iteration of the
    apply loop on the page whose modal cannot be submitted. *)
Lemma C10_witness :
  truthy (generate_cover_letter (u"React developer") None None) = true
  /\ generate_cover_letter (u"React developer") None (Some a_letter) = a_letter
  /\ exists new,
      added (toy_state page_modal_stuck toy_start)
            (snd (run_apply_one 30 None a_vacancy (toy_state page_modal_stuck toy_start)))
            new
      /\ guarded new.
Proof.
  destruct (@C10_cover_letter_never_empty (toy_env page_modal_stuck)
              (u"React developer") None (Some a_letter)) as (_ & Hcustom & _).
  destruct (@C10_cover_letter_never_empty (toy_env page_modal_stuck)
              (u"React developer") None None) as (_ & _ & _ & Ht & _ & Hrun).
  split; [exact Ht|]. split; [apply Hcustom; reflexivity|].
  apply (Hrun 30%nat a_vacancy eq_refl eq_refl _
              (fst (run_apply_one 30 None a_vacancy (toy_state page_modal_stuck toy_start)))).
  apply surjective_pairing.
Defined.

(** In that iteration the card is found, the letter is typed into the
    modal, which cannot be submitted, and only then is the modal
    dismissed. *)
Example run_fills_before_it_dismisses :
  let new := log (snd (run_apply_one 30 None a_vacancy (toy_state page_modal_stuck toy_start))) in
  fst (run_apply_one 30 None a_vacancy (toy_state page_modal_stuck toy_start)) = Ok (Some tt)
  /\ existsb (fun e => is_close_count (ev_call e)) new = true
  /\ existsb (fun e => match ev_call e with Fill _ _ => true | _ => false end) new = true
  /\ existsb (fun e => match ev_call e with
                       | Click l _ => match l with
                                      | first (page_locator s) => pystr_eqb s sel_popup_close
                                      | _ => false
                                      end
                       | _ => false
                       end) new = true.
Proof. repeat split; vm_compute; reflexivity. Qed.

(** With no text the classifier does dismiss the modal with no attempt to
    fill the letter in: the branch is there, only [run] never takes it. *)
Example no_text_dismisses_the_modal :
  fst (click_apply_on_card 30 a_card None 6 (toy_state page_modal_no_submit toy_start))
  = Ok (Some cover_letter_required)
  /\ existsb (fun e => is_close_count (ev_call e))
             (log (snd (click_apply_on_card 30 a_card None 6
                          (toy_state page_modal_no_submit toy_start)))) = true
  /\ forallb (fun e => match ev_call e with WaitFor _ visible _ => false | _ => true end)
             (log (snd (click_apply_on_card 30 a_card None 6
                          (toy_state page_modal_no_submit toy_start)))) = true.
Proof. repeat split; vm_compute; reflexivity. Qed.

(** A viewer text with too many digits makes the listing parser raise. *)
Example long_viewer_count_raises :
  fst (@collect_vacancies_for_apply ascii_only (toy_env page_long_count) 10
         (toy_state page_long_count toy_start)) = Raised ValueError.
Proof. vm_compute. reflexivity. Qed.

(** A pause too large for a [float] makes the loader raise in its first
    round, after the first sleep: no call has raised. *)
Example pause_too_large_raises :
  fst (scroll_until_all_loaded (10 ^ 400) 50 3 (toy_state page_growing toy_start))
  = Raised OverflowError
  /\ map ev_raised (log (snd (scroll_until_all_loaded (10 ^ 400) 50 3
                                (toy_state page_growing toy_start))))
     = [None; None; None].
Proof. split; vm_compute; reflexivity. Qed.

(** The sleep after a scroll: [int(pause_ms * 0.6)] in the interpreter's
    arithmetic, which is not the exact product for a large [pause_ms], and
    raises for a very large one. *)
Example int_times_0_6_values :
  int_times_0_6 900 = Ok 540%Z
  /\ int_times_0_6 5 = Ok 3%Z
  /\ int_times_0_6 (-901) = Ok (-540)%Z
  /\ int_times_0_6 (10 ^ 18 + 5) = Ok (6 * 10 ^ 17)%Z
  /\ int_times_0_6 (10 ^ 400) = Raised OverflowError.
Proof. repeat split; vm_compute; reflexivity. Qed.

(** On the listing that grows with every scroll the loader makes all its
    rounds, also when zero stable rounds are asked for; on a listing that
    does not grow it then makes one round. *)
Example loader_with_no_stable_round_needed :
  scrolls (log (snd (scroll_until_all_loaded 900 7 0
                       (toy_state page_always_growing toy_start)))) = 7%nat
  /\ scrolls (log (snd (scroll_until_all_loaded 900 7 0
                          (toy_state page_no_apply_button toy_start)))) = 1%nat.
Proof. split; vm_compute; reflexivity. Qed.

(** The sample listing loader stops after five rounds: two that grow the
    listing and three that do not. *)
Example loader_stops_after_three_stable_rounds :
  fst (scroll_until_all_loaded 900 50 3 (toy_state page_growing toy_start)) = Ok tt
  /\ scrolls (log (snd (scroll_until_all_loaded 900 50 3 (toy_state page_growing toy_start))))
     = 5%nat
  /\ scrolls (log (snd (scroll_until_all_loaded 900 4 3 (toy_state page_growing toy_start))))
     = 4%nat.
Proof. repeat split; vm_compute; reflexivity. Qed.

(** * Further properties of the code *)

(** ** What raises and what does not *)

Section Raising.

Context {E : Env}.

Local Open Scope nat_scope.

(** X1.  [fill_and_submit_cover_letter] never raises: whatever the page
    does, it returns [True] or [False]. *)
Theorem X1_fill_and_submit_cover_letter_never_raises
        (text : pystr) (timeout_ms : Z) (st : St) :
  exists b, fst (fill_and_submit_cover_letter text timeout_ms st) = Ok b.
Proof. apply fill_and_submit_cover_letter_returns. Qed.

(** X2.  When [fill_and_submit_cover_letter] returns [True], the letter
    input was filled with the given text and a click on a submit button of
    the dialog (the [type=submit] one, or the one found by its label)
    returned, and the success toast was counted or the dialog was seen
    hidden. *)
Theorem X2_fill_and_submit_cover_letter_true
        (text : pystr) (timeout_ms : Z) (st st' : St) :
  fill_and_submit_cover_letter text timeout_ms st = (Ok true, st') ->
  exists new,
    added st st' new
    /\ In (Ev (Fill letter_input text) (Ok tt)) new
    /\ (In (Ev (Click submit_button None) (Ok tt)) new
        \/ In (Ev (Click submit_button_alt None) (Ok tt)) new)
    /\ ((exists k, In (Ev (Count (first (page_locator sel_success))) (Ok (S k))) new)
        \/ In (Ev (WaitFor dialog hidden 3000) (Ok tt)) new).
Proof.
  intros H. unfold fill_and_submit_cover_letter in H.
  fold dialog in H. fold letter_input in H. fold submit_button in H.
  fold submit_button_alt in H.
  apply catch_inv in H. destruct H as [(b & H & Hb)|(e & sx & _ & Hh)].
  2:{ apply ret_inv in Hh. destruct Hh; discriminate. }
  injection Hb as <-.
  unbind H as w1 s1 H1. unbind H as w2 s2 H2. unbind H as c3 s3 H3.
  unbind H as f4 s4 H4. unbind H as w5 s5 H5. unbind H as n s6 H6.
  unbind H as m s7 H7.
  cbn [ret_type] in w1, w2, c3, f4, w5. destruct w1, w2, c3, f4, w5.
  apply call_log in H1, H2, H3, H4, H5, H6, H7.
  destruct m as [|m]; cbn [Nat.eqb] in H.
  { apply ret_inv in H. destruct H; discriminate. }
  unbind H as c8 s8 H8. unbind H as w9 s9 H9. unbind H as k s10 H10.
  cbn [ret_type] in c8, w9. destruct c8, w9.
  apply call_log in H8, H9, H10.
  assert (Hlog10 : exists btn,
             (btn = submit_button \/ btn = submit_button_alt)
             /\ log s10 = [Ev (Count (first (page_locator sel_success))) (Ok k);
                           Ev (WaitForTimeout 2000) (Ok tt);
                           Ev (Click btn None) (Ok tt);
                           Ev (Count btn) (Ok (S m));
                           Ev (Count submit_button) (Ok n);
                           Ev (WaitForTimeout 500) (Ok tt);
                           Ev (Fill letter_input text) (Ok tt);
                           Ev (Click letter_input None) (Ok tt);
                           Ev (WaitFor letter_input visible timeout_ms) (Ok tt);
                           Ev (WaitFor dialog visible timeout_ms) (Ok tt)] ++ log st).
  { destruct n as [|n]; cbn [Nat.eqb] in H7, H8.
    - exists submit_button_alt. split; [now right|].
      rewrite H10, H9, H8, H7, H6, H5, H4, H3, H2, H1. reflexivity.
    - exists submit_button. split; [now left|].
      rewrite H10, H9, H8, H7, H6, H5, H4, H3, H2, H1. reflexivity. }
  destruct Hlog10 as (btn & Hbtn & Hlog10).
  assert (Hclick : forall l, In (Ev (Click btn None) (Ok tt)) l ->
                             In (Ev (Click submit_button None) (Ok tt)) l
                             \/ In (Ev (Click submit_button_alt None) (Ok tt)) l).
  { intros l Hin. destruct Hbtn as [-> | ->]; [now left | now right]. }
  destruct k as [|k]; cbn [Nat.ltb Nat.leb] in H.
  - apply catch_inv in H. destruct H as [(b & H & _)|(e & sx & _ & Hh)].
    2:{ apply ret_inv in Hh. destruct Hh; discriminate. }
    unbind H as w11 s11 H11. apply ret_inv in H. destruct H as [_ ->].
    cbn [ret_type] in w11. destruct w11. apply call_log in H11.
    eexists (_ :: _). split; [unfold added; rewrite H11, Hlog10; reflexivity|].
    split; [cbn [In]; auto 12|]. split.
    + apply Hclick. cbn [In]. auto 12.
    + right. cbn [In]. auto.
  - apply ret_inv in H. destruct H as [_ ->].
    eexists. split; [exact Hlog10|].
    split; [cbn [In]; auto 12|]. split.
    + apply Hclick. cbn [In]. auto 12.
    + left. exists k. cbn [In]. auto.
Qed.

(** X3.  [hide_vacancy_card] raises exactly when the count of the hide
    button raises, or when there is a hide button and the scroll into view
    raises: the scroll is the one step of the function outside a [try]. *)
Theorem X3_hide_vacancy_card_raises_iff
        (card : Locator) (timeout_ms : Z) (st : St) (e : Exception) :
  fst (hide_vacancy_card card timeout_ms st) = Raised e
  <-> (fst (call (Count (hide_icon card)) st) = Raised e
       \/ exists n s1,
           call (Count (hide_icon card)) st = (Ok (S n), s1)
           /\ fst (call (ScrollIntoViewIfNeeded card timeout_ms) s1) = Raised e).
Proof.
  unfold hide_vacancy_card. fold (hide_icon card). fold menu_item.
  unfold bind at 1.
  destruct (call (Count (hide_icon card)) st) as [[n|e0] s1] eqn:Hc; cbn [fst].
  2:{ split; [intros H; left; congruence | intros [H|(n & s & H & _)]; [congruence | discriminate]]. }
  destruct n as [|n]; cbn [Nat.eqb].
  { split; [discriminate | intros [H|(n & s & H & _)]; discriminate]. }
  unfold bind at 1.
  destruct (call (ScrollIntoViewIfNeeded card timeout_ms) s1) as [[x|e1] s2] eqn:Hs; cbn [fst].
  2:{ split.
      - intros H. right. exists n, s1. split; [reflexivity|]. rewrite Hs. cbn [fst]. congruence.
      - intros [H|(n' & s & H & H')]; [discriminate|].
        injection H as <- <-. rewrite Hs in H'. cbn [fst] in H'. congruence. }
  split.
  2:{ intros [H|(n' & s & H & H')]; [discriminate|].
      injection H as <- <-. rewrite Hs in H'. discriminate. }
  (* after the scroll every step is inside a [try] *)
  unfold bind at 1, catch at 1, bind at 1.
  destruct (call (Click (hide_icon card) (Some timeout_ms)) s2) as [[y|e2] s3];
    cbn [ret negb fst]; [|discriminate].
  unfold bind at 1, catch at 1, bind at 1.
  destruct (call (WaitFor menu_item visible timeout_ms) s3) as [[z|e3] s4];
    cbn [ret negb fst]; [|discriminate].
  unfold bind at 1.
  destruct (call (Click menu_item (Some timeout_ms)) s4) as [[z'|e4] s5];
    cbn [ret negb fst]; [|discriminate].
  unfold bind at 1, catch at 1.
  destruct (call (WaitFor card detached 3000) s5) as [[v|e5] s6]; cbn [ret fst]; discriminate.
Qed.

(** X4.  [close_response_modal_if_open] raises exactly when the count of
    the close button raises, or when there is a close button and the
    click on it raises; a dialog that does not hide raises nothing.  With
    no close button it makes no other call. *)
Theorem X4_close_response_modal_if_open
        (st : St) :
  (forall e,
      fst (close_response_modal_if_open st) = Raised e
      <-> (fst (call (Count close_button) st) = Raised e
           \/ exists n s1,
               call (Count close_button) st = (Ok (S n), s1)
               /\ fst (call (Click close_button None) s1) = Raised e))
  /\ (forall s1,
         call (Count close_button) st = (Ok 0, s1) ->
         close_response_modal_if_open st = (Ok tt, s1)).
Proof.
  unfold close_response_modal_if_open. fold close_button. split.
  - intros e. unfold bind at 1.
    destruct (call (Count close_button) st) as [[n|e0] s1] eqn:Hc; cbn [fst].
    2:{ split; [intros H; left; inversion H; reflexivity
               | intros [H|(n & s & H & _)]; [inversion H; reflexivity | discriminate]]. }
    destruct n as [|n]; cbn [Nat.eqb negb].
    { split; [discriminate | intros [H|(n & s & H & _)]; discriminate]. }
    unfold bind at 1.
    destruct (call (Click close_button None) s1) as [[x|e1] s2] eqn:Hk; cbn [fst].
    + split.
      * unfold catch.
        destruct (call (WaitFor (first (page_locator sel_dialog)) hidden 5000) s2)
          as [[y|e2] s3]; cbn [ret fst]; discriminate.
      * intros [H|(n' & s & H & H')]; [discriminate|].
        injection H as <- <-. rewrite Hk in H'. discriminate.
    + split.
      * intros H. right. exists n, s1. split; [reflexivity|]. rewrite Hk. cbn [fst]. inversion H. reflexivity.
      * intros [H|(n' & s & H & H')]; [discriminate|].
        injection H as <- <-. rewrite Hk in H'. cbn [fst] in H'. inversion H'. reflexivity.
  - intros s1 Hc. step. reflexivity.
Qed.

End Raising.

(** ** What the functions never do *)

Section Kinds.

Context {E : Env}.

Local Open Scope nat_scope.

Lemma only_app (Q : Call -> bool) (n1 n2 : list Event) :
  only Q n1 -> only Q n2 -> only Q (n2 ++ n1).
Proof. intros H1 H2. apply Forall_app. now split. Qed.

Lemma only_bind {A B} (Q : Call -> bool) (m : M A) (k : A -> M B) :
  emits (only Q) m -> (forall a, emits (only Q) (k a)) -> emits (only Q) (bind m k).
Proof. intros Hm Hk. apply (emits_bind (only Q) (only Q)); auto using only_app. Qed.

Lemma only_catch {A} (Q : Call -> bool) (m : M A) (h : Exception -> M A) :
  emits (only Q) m -> (forall e, emits (only Q) (h e)) -> emits (only Q) (catch m h).
Proof. intros Hm Hh. apply (emits_catch (only Q) (only Q)); auto using only_app. Qed.

Lemma only_call (Q : Call -> bool) (c : Call) : Q c = true -> emits (only Q) (call c).
Proof. intros H. apply emits_call. intros r. constructor; [exact H | constructor]. Qed.

Lemma only_ret {A} (Q : Call -> bool) (a : A) : emits (only Q) (ret a).
Proof. apply emits_ret. constructor. Qed.

Lemma only_lift {A} (Q : Call -> bool) (x : Res A) : emits (only Q) (lift x).
Proof. apply emits_lift. constructor. Qed.

End Kinds.

(** Decides that all the calls of a computation written with [bind],
    [catch], [call] and [ret] are of one kind. *)
Ltac only_tac :=
  repeat first
         [ apply only_ret
         | apply only_lift
         | match goal with
           | |- emits _ (call ?c) => apply (only_call _ c); vm_compute; reflexivity
           end
         | apply only_bind; [|intros ?; cbv beta]
         | apply only_catch; [|intros ?; cbv beta]
         | match goal with
           | |- emits _ (if ?b then _ else _) => destruct b
           | |- emits _ (match ?x with _ => _ end) => destruct x
           | |- emits _ (call _) =>
             match goal with |- context [if ?b then _ else _] => destruct b end
           end ].

Section Never.

Context {U : Interpreter} {E : Env}.

Local Open Scope nat_scope.

(** X5.  The two detectors only count elements: they never click, fill,
    scroll, navigate or wait. *)
Theorem X5_detectors_only_count :
  emits (only is_count) is_test_page
  /\ emits (only is_count) is_cover_letter_required_modal.
Proof.
  split; [unfold is_test_page | unfold is_cover_letter_required_modal]; only_tac.
Qed.

Lemma collect_cards_leaves_page (cards : Locator) (limit : Z) (n : nat) :
  forall i result, emits (only leaves_page) (collect_cards cards limit n i result).
Proof.
  induction n as [|n IH]; intros i result; cbn [collect_cards]; [only_tac|].
  apply only_bind; [only_tac | intros c; cbv beta].
  destruct (c =? 0); [apply IH|].
  apply only_bind; [only_tac | intros t; cbv beta].
  apply only_bind; [only_tac | intros h; cbv beta].
  destruct (search_vacancy (or_empty h)); [|apply IH].
  apply only_bind; [only_tac | intros wc; cbv beta].
  apply only_bind; [only_tac | intros wt; cbv beta].
  apply only_bind; [only_tac | intros wn; cbv beta].
  match goal with |- emits _ (if ?b then _ else _) => destruct b end; [only_tac | apply IH].
Qed.

(** X6.  The listing parser leaves the page as it is: every call it makes
    is a wait or a read (count, text, attribute). *)
Theorem X6_collect_vacancies_for_apply_leaves_page (limit : Z) :
  emits (only leaves_page) (collect_vacancies_for_apply limit).
Proof.
  unfold collect_vacancies_for_apply.
  apply only_bind; [only_tac | intros x; cbv beta].
  apply only_bind; [only_tac | intros n; cbv beta].
  apply collect_cards_leaves_page.
Qed.



End Never.

(** ** One click on the apply button *)

Section ApplyClick.

Context {E : Env}.

Local Open Scope nat_scope.

Lemma yields_ret {A} (R : A -> Prop) (a : A) : R a -> yields R (ret a).
Proof.
  intros H s a' s' Hr. apply ret_inv in Hr. destruct Hr as [Hr _].
  now injection Hr as <-.
Qed.

Lemma yields_bind {A B} (R : B -> Prop) (m : M A) (k : A -> M B) :
  (forall a, yields R (k a)) -> yields R (bind m k).
Proof.
  intros Hk s b s' H. apply bind_inv_ok in H. destruct H as (a & s1 & _ & H).
  exact (Hk a _ _ _ H).
Qed.

Lemma poll_round_outcomes (original_url : pystr) (text : option pystr) :
  yields (fun o => o <> Some no_apply_button) (poll_round original_url text).
Proof.
  unfold poll_round.
  repeat first
         [ apply yields_ret; discriminate
         | apply yields_bind; intros ?; cbv beta
         | match goal with
           | |- yields _ (if ?b then _ else _) => destruct b
           end ].
Qed.

Lemma poll_loop_outcomes (fuel : nat) (original_url : pystr) (text : option pystr) (deadline : Q) :
  yields (fun o => o <> Some no_apply_button) (poll_loop fuel original_url text deadline).
Proof.
  induction fuel as [|fuel IH]; cbn [poll_loop]; [apply yields_ret; discriminate|].
  apply yields_bind; intros now.
  destruct (Qltb now deadline); [|apply yields_ret; discriminate].
  intros s o s' H. apply bind_inv_ok in H. destruct H as (r & s1 & Hr & H).
  destruct r as [o'|].
  - apply ret_inv in H. destruct H as [H _]. injection H as H. subst o.
    exact (poll_round_outcomes _ _ _ _ _ Hr).
  - apply bind_inv_ok in H. destruct H as (x & s2 & _ & H). exact (IH _ _ _ H).
Qed.

Lemma fill_and_submit_cover_letter_no_apply_click (text : pystr) (timeout_ms : Z) :
  emits (only not_apply_click) (fill_and_submit_cover_letter text timeout_ms).
Proof. unfold fill_and_submit_cover_letter. only_tac. Qed.

Lemma poll_round_no_apply_click (original_url : pystr) (text : option pystr) :
  emits (only not_apply_click) (poll_round original_url text).
Proof.
  unfold poll_round.
  apply only_bind; [only_tac | intros s; cbv beta].
  destruct (negb (s =? 0)); [only_tac|].
  apply only_bind; [unfold is_cover_letter_required_modal; only_tac | intros modal; cbv beta].
  destruct modal.
  - destruct (truthy_opt text).
    + apply only_bind; [apply fill_and_submit_cover_letter_no_apply_click | intros b; cbv beta].
      destruct b; [only_tac|].
      apply only_bind; [unfold close_response_modal_if_open; only_tac | intros; only_tac].
    + apply only_bind; [unfold close_response_modal_if_open; only_tac | intros; only_tac].
  - apply only_bind; [only_tac | intros url; cbv beta].
    destruct (negb _); [|only_tac].
    apply only_bind; [unfold is_test_page; only_tac | intros t; cbv beta].
    destruct t;
      (apply only_bind; [unfold safe_go_back_to_serp; only_tac | intros; only_tac]).
Qed.

Lemma poll_loop_no_apply_click
      (fuel : nat) (original_url : pystr) (text : option pystr) (deadline : Q) :
  emits (only not_apply_click) (poll_loop fuel original_url text deadline).
Proof.
  induction fuel as [|fuel IH]; cbn [poll_loop]; [only_tac|].
  apply only_bind; [only_tac | intros now; cbv beta].
  destruct (Qltb now deadline); [|only_tac].
  apply only_bind; [apply poll_round_no_apply_click | intros [o|]; [only_tac|]].
  apply only_bind; [only_tac | intros; exact IH].
Qed.

Lemma click_apply_on_card_clicks
      (fuel : nat) (card : Locator) (text : option pystr) (poll_timeout_sec : Q)
      (st st' : St) (r : Res (option Outcome)) :
  click_apply_on_card fuel card text poll_timeout_sec st = (r, st') ->
  exists new,
    added st st' new
    /\ (only not_apply_click new \/ exists rc, clicked_once card rc new)
    /\ (r = Ok (Some no_apply_button) -> only not_click new)
    /\ (forall o, r = Ok o -> o <> Some no_apply_button -> clicked_once card (Ok tt) new).
Proof.
  intros H. unfold click_apply_on_card in H. fold (apply_button card) in H.
  apply bind_inv in H. destruct H as [(url & s1 & H1 & H)|(e & H1 & ->)].
  2:{ apply call_log in H1. refine (ex_intro _ [_] _). split; [exact H1|].
      split; [left; repeat constructor|]. split; intros; discriminate. }
  apply call_log in H1.
  apply bind_inv in H. destruct H as [(x & s2 & H2 & H)|(e & H2 & ->)].
  2:{ apply call_log in H2. rewrite H1 in H2. refine (ex_intro _ [_; _] _).
      split; [exact H2|]. split; [left; repeat constructor|]. split; intros; discriminate. }
  apply call_log in H2. rewrite H1 in H2.
  apply bind_inv in H. destruct H as [(n & s3 & H3 & H)|(e & H3 & ->)].
  2:{ apply call_log in H3. rewrite H2 in H3. refine (ex_intro _ [_; _; _] _).
      split; [exact H3|]. split; [left; repeat constructor|]. split; intros; discriminate. }
  apply call_log in H3. rewrite H2 in H3.
  assert (Hbefore : only not_apply_click
                         [Ev (Count (apply_button card)) (Ok n);
                          Ev (ScrollIntoViewIfNeeded card 10000) (Ok x); Ev Url (Ok url)])
    by (repeat constructor).
  destruct n as [|n]; cbn [Nat.eqb] in H.
  { apply ret_inv in H. destruct H as [-> ->]. refine (ex_intro _ [_; _; _] _).
    split; [exact H3|]. split; [left; exact Hbefore|]. split.
    - intros _. repeat constructor.
    - intros o Ho Hne. injection Ho as <-. congruence. }
  apply bind_inv in H. destruct H as [(y & s4 & H4 & H)|(e & H4 & ->)].
  2:{ apply call_log in H4. rewrite H3 in H4. refine (ex_intro _ [_; _; _; _] _).
      split; [exact H4|]. split.
      - right. exists (Raised e), [], [Ev (Count (apply_button card)) (Ok (S n));
                                       Ev (ScrollIntoViewIfNeeded card 10000) (Ok x);
                                       Ev Url (Ok url)].
        split; [reflexivity|]. split; [constructor | exact Hbefore].
      - split; intros; discriminate. }
  apply call_log in H4. rewrite H3 in H4. cbn [ret_type] in y. destruct y.
  assert (Hloop : exists after,
             added st st' (after ++ [Ev (Click (apply_button card) None) (Ok tt);
                                     Ev (Count (apply_button card)) (Ok (S n));
                                     Ev (ScrollIntoViewIfNeeded card 10000) (Ok x);
                                     Ev Url (Ok url)])
             /\ only not_apply_click after).
  { apply bind_inv in H. destruct H as [(t & s5 & H5 & H)|(e & H5 & ->)].
    - apply call_log in H5.
      destruct (poll_loop_no_apply_click _ _ _ _ _ _ _ H) as (nl & Hadd & Hnl).
      exists (nl ++ [Ev TimeTime (Ok t)]). split.
      + unfold added in *. rewrite Hadd, H5, H4, <- !app_assoc. reflexivity.
      + apply only_app; [repeat constructor | exact Hnl].
    - apply call_log in H5. exists [Ev TimeTime (Raised e)]. split.
      + unfold added. rewrite H5, H4. reflexivity.
      + repeat constructor. }
  destruct Hloop as (after & Hadd & Hafter).
  assert (Honce : clicked_once card (Ok tt)
                    (after ++ [Ev (Click (apply_button card) None) (Ok tt);
                               Ev (Count (apply_button card)) (Ok (S n));
                               Ev (ScrollIntoViewIfNeeded card 10000) (Ok x);
                               Ev Url (Ok url)])).
  { exists after, [Ev (Count (apply_button card)) (Ok (S n));
                   Ev (ScrollIntoViewIfNeeded card 10000) (Ok x); Ev Url (Ok url)].
    split; [reflexivity|]. split; [exact Hafter | exact Hbefore]. }
  eexists. split; [exact Hadd|]. split; [right; eexists; exact Honce|]. split.
  - intros ->. exfalso.
    apply bind_inv_ok in H. destruct H as (t & s5 & _ & H).
    exact (poll_loop_outcomes _ _ _ _ _ _ _ H eq_refl).
  - intros o _ _. exact Honce.
Qed.

(** X10.  One call of [click_apply_on_card] clicks the apply button at
    most once.  It returns [no_apply_button] only without any click, and
    any other outcome (the bound on the rounds running out included) only
    after the one click on the apply button of the card has returned. *)
Theorem X10_apply_button_clicked_once
        (fuel : nat) (card : Locator) (text : option pystr) (poll_timeout_sec : Q)
        (st st' : St) (r : Res (option Outcome)) :
  click_apply_on_card fuel card text poll_timeout_sec st = (r, st') ->
  exists new,
    added st st' new
    /\ (only not_apply_click new \/ exists rc, clicked_once card rc new)
    /\ (r = Ok (Some no_apply_button) -> only not_click new)
    /\ (forall o, r = Ok o -> o <> Some no_apply_button -> clicked_once card (Ok tt) new).
Proof. apply click_apply_on_card_clicks. Qed.

End ApplyClick.

(** ** The redirect branch of the classifier *)

Section Redirect.

Context {E : Env}.

Local Open Scope nat_scope.

Lemma pystr_eqb_eq (a b : pystr) : pystr_eqb a b = true <-> a = b.
Proof.
  revert b. induction a as [|x a IH]; intros [|y b]; cbn [pystr_eqb];
    try (split; [discriminate | discriminate]); [split; reflexivity|].
  rewrite andb_true_iff, N.eqb_eq, IH. split.
  - intros [-> ->]. reflexivity.
  - intros H. injection H as -> ->. now split.
Qed.

(** X8.  In a round that finds neither the toast nor the modal: when the
    page is still at the URL read before the click the round falls through
    to the sleep; when it is elsewhere the round goes back to the listing
    and returns [test_required] on the employer's questions page and
    [extra_steps] on any other page.  Going back is [go_back], and when
    that raises, a navigation to the URL read before the click; either way
    the listing is waited for before the round returns. *)
Theorem X8_redirect_branch
        (original_url : pystr) (text : option pystr) (st s1 s2 s3 : St) (url : pystr) :
  call (Count success_toast) st = (Ok 0, s1) ->
  is_cover_letter_required_modal s1 = (Ok false, s2) ->
  call Url s2 = (Ok url, s3) ->
  (url = original_url -> poll_round original_url text st = (Ok None, s3))
  /\ (url <> original_url ->
      forall t s4,
        is_test_page s3 = (Ok t, s4) ->
        (forall s5 s6,
            call GoBack s4 = (Ok tt, s5) ->
            call (WaitForSelector sel_vacancy 15000) s5 = (Ok tt, s6) ->
            poll_round original_url text st
            = (Ok (Some (if t then test_required else extra_steps)), s6))
        /\ (forall e s5 s6 s7,
               call GoBack s4 = (Raised e, s5) ->
               call (Goto original_url) s5 = (Ok tt, s6) ->
               call (WaitForSelector sel_vacancy 15000) s6 = (Ok tt, s7) ->
               poll_round original_url text st
               = (Ok (Some (if t then test_required else extra_steps)), s7))).
Proof.
  intros Hc Hm Hu. split.
  - intros ->. unfold poll_round. fold success_toast. step. cbn [Nat.eqb negb]. steps.
    assert (Hq : pystr_eqb original_url original_url = true) by now apply pystr_eqb_eq.
    rewrite Hq. reflexivity.
  - intros Hne t s4 Ht.
    assert (Hq : pystr_eqb url original_url = false).
    { destruct (pystr_eqb url original_url) eqn:Hq; [|reflexivity].
      apply pystr_eqb_eq in Hq. contradiction. }
    split.
    + intros s5 s6 Hb Hw.
      assert (Hback : safe_go_back_to_serp original_url s4 = (Ok tt, s6)).
      { unfold safe_go_back_to_serp.
        erewrite bind_ok by (eapply catch_ok; eassumption). exact Hw. }
      unfold poll_round. fold success_toast. step. cbn [Nat.eqb negb]. steps.
      rewrite Hq. cbn [negb]. step. destruct t; step; reflexivity.
    + intros e s5 s6 s7 Hb Hg Hw.
      assert (Hback : safe_go_back_to_serp original_url s4 = (Ok tt, s7)).
      { unfold safe_go_back_to_serp.
        erewrite bind_ok by (erewrite catch_raised by eassumption; eassumption).
        exact Hw. }
      unfold poll_round. fold success_toast. step. cbn [Nat.eqb negb]. steps.
      rewrite Hq. cbn [negb]. step. destruct t; step; reflexivity.
Qed.

End Redirect.

(** ** The polling loop ends *)

Section Clock.

Context {E : Env}.

Variable clock : World -> Q.
Hypothesis laws : clock_laws clock.

Local Open Scope Q_scope.

Lemma forward_ret {A} (a : A) : forward clock (ret a).
Proof. intros s r s' H. apply ret_inv in H. destruct H as [_ ->]. apply Qle_refl. Qed.

Lemma call_world (c : Call) (s s' : St) (r : Res (ret_type c)) :
  call c s = (r, s') -> r = fst (exec c (world s)) /\ world s' = snd (exec c (world s)).
Proof.
  unfold call. destruct (exec c (world s)) as [r0 w]. intros H.
  injection H as <- <-. now split.
Qed.

Lemma forward_call (c : Call) : sane_call c = true -> forward clock (call c).
Proof.
  intros Hc s r s' H. apply call_world in H. destruct H as [_ ->].
  now apply laws.
Qed.

Lemma forward_bind {A B} (m : M A) (k : A -> M B) :
  forward clock m -> (forall a, forward clock (k a)) -> forward clock (bind m k).
Proof.
  intros Hm Hk s r s' H. apply bind_inv in H.
  destruct H as [(a & s1 & H1 & H2)|(e & H1 & _)].
  - eapply Qle_trans; [exact (Hm _ _ _ H1) | exact (Hk a _ _ _ H2)].
  - exact (Hm _ _ _ H1).
Qed.

Lemma forward_catch {A} (m : M A) (h : Exception -> M A) :
  forward clock m -> (forall e, forward clock (h e)) -> forward clock (catch m h).
Proof.
  intros Hm Hh s r s' H. apply catch_inv in H.
  destruct H as [(a & H1 & _)|(e & s1 & H1 & H2)].
  - exact (Hm _ _ _ H1).
  - eapply Qle_trans; [exact (Hm _ _ _ H1) | exact (Hh e _ _ _ H2)].
Qed.

Ltac forward_tac :=
  repeat first
         [ apply forward_ret
         | match goal with
           | |- forward _ (call ?c) => apply (forward_call c); vm_compute; reflexivity
           end
         | apply forward_bind; [|intros ?; cbv beta]
         | apply forward_catch; [|intros ?; cbv beta]
         | match goal with
           | |- forward _ (if ?b then _ else _) => destruct b
           | |- forward _ (match ?x with _ => _ end) => destruct x
           | |- forward _ (call _) =>
             match goal with |- context [if ?b then _ else _] => destruct b end
           end ].

Lemma poll_round_forward (original_url : pystr) (text : option pystr) :
  forward clock (poll_round original_url text).
Proof.
  unfold poll_round, is_cover_letter_required_modal, fill_and_submit_cover_letter,
    close_response_modal_if_open, is_test_page, safe_go_back_to_serp.
  forward_tac.
Qed.

Lemma Qltb_lt (x y : Q) : Qltb x y = true -> x < y.
Proof.
  unfold Qltb. intros H. apply negb_true_iff in H.
  apply Qnot_le_lt. intros Hle. apply Qle_bool_iff in Hle. congruence.
Qed.

Lemma inject_succ (n : nat) : inject_Z (Z.of_nat (S n)) == inject_Z (Z.of_nat n) + 1.
Proof. rewrite Nat2Z.inj_succ. unfold Z.succ. now rewrite inject_Z_plus. Qed.

(** With [fuel + 1] rounds allowed, where [fuel] is at least five times
    the seconds left to the deadline, the loop is over before the bound. *)
Lemma poll_loop_ends (original_url : pystr) (text : option pystr) (deadline : Q) (fuel : nat) :
  forall st r st',
    (deadline - clock (world st)) * 5 <= inject_Z (Z.of_nat fuel) ->
    poll_loop (S fuel) original_url text deadline st = (r, st') ->
    r <> Ok None.
Proof.
  destruct laws as (Hread & Hmono & Hsleep).
  induction fuel as [|fuel IH]; intros st r st' Hleft H.
  - cbn [poll_loop] in H.
    apply bind_inv in H. destruct H as [(now & s1 & H1 & H)|(e & _ & ->)]; [|discriminate].
    apply call_world in H1. destruct H1 as [Hnow _]. symmetry in Hnow.
    apply Hread in Hnow. cbn [ret_type] in now.
    destruct (Qltb now deadline) eqn:Hlt.
    + apply Qltb_lt in Hlt. exfalso.
      change (inject_Z (Z.of_nat 0)) with 0 in Hleft. lra.
    + apply ret_inv in H. destruct H as [-> _]. discriminate.
  - remember (S fuel) as f eqn:Hf. cbn [poll_loop] in H.
    apply bind_inv in H. destruct H as [(now & s1 & H1 & H)|(e & _ & ->)]; [|discriminate].
    pose proof (forward_call TimeTime eq_refl _ _ _ H1) as Hf1.
    apply call_world in H1. destruct H1 as [Hnow _]. symmetry in Hnow.
    apply Hread in Hnow. cbn [ret_type] in now.
    destruct (Qltb now deadline) eqn:Hlt.
    2:{ apply ret_inv in H. destruct H as [-> _]. discriminate. }
    apply bind_inv in H. destruct H as [(o & s2 & H2 & H)|(e & _ & ->)]; [|discriminate].
    pose proof (poll_round_forward _ _ _ _ _ H2) as Hf2.
    destruct o as [o|].
    { apply ret_inv in H. destruct H as [-> _]. discriminate. }
    apply bind_inv in H. destruct H as [(x & s3 & H3 & H)|(e & _ & ->)]; [|discriminate].
    apply call_world in H3. destruct H3 as [Hx Hw3].
    cbn [ret_type] in x. destruct x. symmetry in Hx. apply Hsleep in Hx.
    rewrite <- Hw3 in Hx.
    subst f. apply (IH s3 r st'); [|exact H].
    rewrite inject_succ in Hleft.
    change (inject_Z 200 / 1000) with (200 # 1000) in Hx. lra.
Qed.

Lemma click_apply_on_card_ends
      (fuel : nat) (card : Locator) (text : option pystr) (poll_timeout_sec : Q)
      (st st' : St) (r : Res (option Outcome)) :
  poll_timeout_sec * 5 <= inject_Z (Z.of_nat fuel) ->
  click_apply_on_card (S fuel) card text poll_timeout_sec st = (r, st') ->
  r <> Ok None.
Proof.
  intros Hfuel H. unfold click_apply_on_card in H.
  apply bind_inv in H. destruct H as [(url & s1 & _ & H)|(e & _ & ->)]; [|discriminate].
  apply bind_inv in H. destruct H as [(x & s2 & _ & H)|(e & _ & ->)]; [|discriminate].
  apply bind_inv in H. destruct H as [(n & s3 & _ & H)|(e & _ & ->)]; [|discriminate].
  destruct (n =? 0)%nat.
  { apply ret_inv in H. destruct H as [-> _]. discriminate. }
  apply bind_inv in H. destruct H as [(y & s4 & _ & H)|(e & _ & ->)]; [|discriminate].
  apply bind_inv in H. destruct H as [(t & s5 & H5 & H)|(e & _ & ->)]; [|discriminate].
  pose proof (forward_call TimeTime eq_refl _ _ _ H5) as Hf5.
  apply call_world in H5. destruct H5 as [Ht _]. symmetry in Ht.
  destruct laws as (Hread & _ & _). apply Hread in Ht. cbn [ret_type] in t.
  assert (Hleft : (t + poll_timeout_sec - clock (world s5)) * 5 <= inject_Z (Z.of_nat fuel))
    by lra.
  exact (poll_loop_ends _ _ _ _ _ _ _ Hleft H).
Qed.

(** X9.  The polling of [click_apply_on_card] ends: when [time.time()]
    reads a clock that no call sets back and a sleep takes at least its
    length, a call allowed one round more than five times
    [poll_timeout_sec] never runs into that bound, so that with the
    default six seconds 31 rounds are enough. *)
Theorem X9_click_apply_on_card_ends
        (fuel : nat) (card : Locator) (text : option pystr) (poll_timeout_sec : Q)
        (st st' : St) (r : Res (option Outcome)) :
  poll_timeout_sec * 5 <= inject_Z (Z.of_nat fuel) ->
  click_apply_on_card (S fuel) card text poll_timeout_sec st = (r, st') ->
  r <> Ok None.
Proof. apply click_apply_on_card_ends. Qed.

End Clock.

(** ** More on the listing parser *)

Section Items.

Context {U : Interpreter} {E : Env}.

Local Open Scope nat_scope.

Lemma lstrip_head (s : pystr) :
  match lstrip s with [] => True | c :: _ => is_space c = false end.
Proof.
  induction s as [|c s IH]; cbn [lstrip]; [exact I|].
  destruct (is_space c) eqn:Hc; [exact IH | exact Hc].
Qed.

Lemma lstrip_suffix (s : pystr) : exists pre, s = pre ++ lstrip s.
Proof.
  induction s as [|c s [pre IH]]; cbn [lstrip]; [now exists []|].
  destruct (is_space c).
  - exists (c :: pre). cbn [app]. now f_equal.
  - now exists [].
Qed.

Lemma strip_no_outer_space (s : pystr) : no_outer_space (strip s).
Proof.
  unfold no_outer_space, strip. rewrite rev_involutive. split; [|apply lstrip_head].
  destruct (lstrip_suffix (rev (lstrip s))) as [pre Hpre].
  pose proof (lstrip_head s) as Hhead.
  apply (f_equal (@rev N)) in Hpre. rewrite rev_involutive, rev_app_distr in Hpre.
  destruct (rev (lstrip (rev (lstrip s)))) as [|c r]; [exact I|].
  rewrite Hpre in Hhead. exact Hhead.
Qed.

Lemma collect_cards_items (cards : Locator) (limit : Z) (n : nat) :
  forall i result st r st',
    Forall item_invariant result ->
    collect_cards cards limit n i result st = (Ok r, st') ->
    Forall item_invariant r.
Proof.
  induction n as [|n IH]; intros i result st r st' Hres H; cbn [collect_cards] in H.
  - apply ret_inv in H. destruct H as [H _]. now injection H as <-.
  - unbind H as c s1 Hc. destruct (c =? 0); [exact (IH _ _ _ _ _ Hres H)|].
    unbind H as t s2 Ht. unbind H as h s3 Hh.
    destruct (search_vacancy (or_empty h)) as [id|]; [|exact (IH _ _ _ _ _ Hres H)].
    unbind H as wc s4 Hwc. unbind H as wt s5 Hwt.
    assert (Hspace : no_outer_space wt).
    { destruct (negb (wc =? 0)).
      - unbind Hwt as w s4' Hw. apply ret_inv in Hwt. destruct Hwt as [Hwt _].
        injection Hwt as Hwt. subst wt. apply strip_no_outer_space.
      - apply ret_inv in Hwt. destruct Hwt as [Hwt _]. injection Hwt as Hwt. subst wt.
        split; vm_compute; reflexivity. }
    unbind H as wn s6 Hwn. apply lift_inv in Hwn. destruct Hwn as [Hwn ->].
    match type of H with
    | (if _ then _ else _) _ = _ =>
      match type of H with
      | context [List.length ?res] => assert (Hres' : Forall item_invariant res)
      end
    end.
    { apply Forall_app. split; [exact Hres|]. constructor; [|constructor].
      unfold item_invariant. cbn [watchers_count watchers_text description title].
      split; [now symmetry|]. split; [reflexivity|].
      split; [apply strip_no_outer_space | exact Hspace]. }
    match type of H with
    | (if ?b then _ else _) _ = _ => destruct b
    end.
    + apply ret_inv in H. destruct H as [H _]. injection H as H. now subst r.
    + exact (IH _ _ _ _ _ Hres' H).
Qed.

(** X11.  Every item the listing parser returns has as its viewer count
    what [_parse_int] makes of its viewer text, has no description yet,
    and has a title and a viewer text with no white space at either
    end. *)
Theorem X11_collect_vacancies_for_apply_items (limit : Z) (st st' : St) (result : list Vacancy) :
  collect_vacancies_for_apply limit st = (Ok result, st') ->
  Forall item_invariant result.
Proof.
  intros H. unfold collect_vacancies_for_apply in H.
  unbind H as x s1 Hw. unbind H as n s2 Hn.
  exact (collect_cards_items _ _ _ _ _ _ _ _ (Forall_nil _) H).
Qed.

Lemma passed_over_more (cards : Locator) (new more : list Event) (j : nat) :
  passed_over cards new j -> passed_over cards (more ++ new) j.
Proof.
  intros [H|(n & href & H1 & H2 & H3)]; [left | right; exists n, href; repeat split];
    try (apply in_or_app; now right); assumption.
Qed.

Lemma collect_cards_first (cards : Locator) (limit : Z) (n : nat) :
  (limit <= 0)%Z ->
  forall (i : nat) (st st' : St) (r : list Vacancy) (cur old : list Event),
    collect_cards cards limit n i [] st = (Ok r, st') ->
    log st = cur ++ old ->
    (forall j, j < i -> passed_over cards cur j) ->
    exists new,
      log st' = new ++ old
      /\ (exists more, new = more ++ cur)
      /\ ((r = [] /\ forall j, j < i + n -> passed_over cards new j)
          \/ exists v k,
              r = [v] /\ k < i + n /\ made_from cards new k v
              /\ forall j, j < k -> passed_over cards new j).
Proof.
  intros Hlimit. induction n as [|n IH]; intros i st st' r cur old H Hlog Hcur;
    cbn [collect_cards] in H.
  - apply ret_inv in H. destruct H as [H ->]. injection H as <-.
    exists cur. split; [exact Hlog|]. split; [now exists []|]. left. split; [reflexivity|].
    intros j Hj. apply Hcur. lia.
  - unbind H as c s1 Hc. apply call_log in Hc. rewrite Hlog in Hc.
    destruct c as [|c]; cbn [Nat.eqb] in H.
    { destruct (IH (S i) _ _ _ (_ :: cur) old H Hc) as (new & Hnew & (more & Hmore) & Hr).
      - intros j Hj. destruct (Nat.eq_dec j i) as [->|Hne].
        + left. now left.
        + apply (passed_over_more _ _ [_]). apply Hcur. lia.
      - exists new. split; [exact Hnew|]. split.
        + exists (more ++ [Ev (Count (first (sub_locator (nth_ cards i) sel_response))) (Ok 0)]).
          now rewrite <- app_assoc.
        + replace (i + S n) with (S i + n) by lia. exact Hr. }
    unbind H as t s2 Ht. apply call_log in Ht. rewrite Hc in Ht.
    unbind H as h s3 Hh. apply call_log in Hh. rewrite Ht in Hh.
    destruct (search_vacancy (or_empty h)) as [id|] eqn:Hid.
    2:{ destruct (IH (S i) _ _ _ (_ :: _ :: _ :: cur) old H Hh)
          as (new & Hnew & (more & Hmore) & Hr).
        - intros j Hj. destruct (Nat.eq_dec j i) as [->|Hne].
          + right. exists c, h. cbn [In]. unfold apply_button. auto 10.
          + apply (passed_over_more _ _ [_; _; _]). apply Hcur. lia.
        - exists new. split; [exact Hnew|]. split.
          + eexists (more ++ [_; _; _]). rewrite <- app_assoc. exact Hmore.
          + replace (i + S n) with (S i + n) by lia. exact Hr. }
    unbind H as wc s4 Hwc. apply call_log in Hwc. rewrite Hh in Hwc.
    unbind H as wt s5 Hwt.
    assert (Hlog5 : exists more, log s5 = more ++ cur ++ old
                                 /\ In (Ev (Count (apply_button (nth_ cards i))) (Ok (S c))) more
                                 /\ In (Ev (GetAttribute
                                              (first (sub_locator (nth_ cards i) sel_title_link))
                                              (u"href")) (Ok h)) more).
    { destruct wc as [|wc]; cbn [Nat.eqb negb] in Hwt.
      - apply ret_inv in Hwt. destruct Hwt as [_ ->].
        eexists [_; _; _; _]. split; [exact Hwc|]. split; cbn [In]; unfold apply_button; auto 10.
      - unbind Hwt as w s4' Hw. apply ret_inv in Hwt. destruct Hwt as [_ ->].
        apply call_log in Hw. rewrite Hwc in Hw.
        eexists [_; _; _; _; _]. split; [exact Hw|].
        split; cbn [In]; unfold apply_button; auto 10. }
    destruct Hlog5 as (more & Hlog5 & Hin1 & Hin2).
    rewrite app_assoc in Hlog5.
    unbind H as wn s6 Hwn. apply lift_inv in Hwn. destruct Hwn as [_ ->].
    match type of H with
    | (if ?b then _ else _) _ = _ => destruct b eqn:Hb
    end.
    + apply ret_inv in H. destruct H as [H ->]. injection H as H. subst r.
      exists (more ++ cur). split; [exact Hlog5|]. split; [now exists more|]. right.
      eexists _, i. split; [reflexivity|]. split; [lia|]. split.
      * exists c, h. cbn [vacancy_id].
        repeat split; [apply in_or_app; now left | apply in_or_app; now left | exact Hid].
      * intros j Hj. apply passed_over_more. now apply Hcur.
    + rewrite Z.geb_leb in Hb. apply Z.leb_gt in Hb. cbn [app List.length] in Hb. lia.
Qed.

(** X12.  With a [limit] of zero or less the parser still returns the
    first card that qualifies, and only that one: the limit is tested
    after an item is added.  So the result is the item of a card with an
    apply button and a vacancy link, every card before which was passed
    over; or it is empty, and every card of the listing was passed over. *)
Theorem X12_collect_vacancies_for_apply_limit_not_positive
        (limit : Z) (st st' : St) (result : list Vacancy) :
  (limit <= 0)%Z ->
  collect_vacancies_for_apply limit st = (Ok result, st') ->
  exists (new : list Event) (total : nat),
    added st st' new
    /\ In (Ev (Count (page_locator sel_vacancy)) (Ok total)) new
    /\ ((result = [] /\ forall j, j < total -> passed_over (page_locator sel_vacancy) new j)
        \/ exists v k,
            result = [v] /\ k < total /\ made_from (page_locator sel_vacancy) new k v
            /\ forall j, j < k -> passed_over (page_locator sel_vacancy) new j).
Proof.
  intros Hlimit H. unfold collect_vacancies_for_apply in H.
  unbind H as x s1 Hw. unbind H as n s2 Hn.
  apply call_log in Hw. apply call_log in Hn. rewrite Hw in Hn.
  destruct (collect_cards_first _ _ _ Hlimit 0 _ _ _ [_; _] (log st) H Hn)
    as (new & Hnew & (more & Hmore) & Hr); [intros j Hj; lia|].
  assert (Hin : In (Ev (Count (page_locator sel_vacancy)) (Ok n)) new).
  { rewrite Hmore. apply in_or_app. right. now left. }
  exists new, n. split; [exact Hnew|]. split; [exact Hin|]. exact Hr.
Qed.

Lemma strip_prefix_app (p rest : pystr) : strip_prefix p (p ++ rest) = Some rest.
Proof.
  induction p as [|a p IH]; cbn [strip_prefix app]; [now destruct rest|].
  now rewrite N.eqb_refl.
Qed.

Lemma match_vacancy_here_found (id post : pystr) :
  id <> [] ->
  Forall (fun c => is_digit c = true) id ->
  match post with [] => True | c :: _ => is_digit c = false end ->
  match_vacancy_here (u"/vacancy/" ++ id ++ post) = Some id.
Proof.
  intros Hne Hd Hpost. unfold match_vacancy_here.
  rewrite strip_prefix_app, (span_digits_run post Hd Hpost). cbn [fst].
  destruct id; [congruence | reflexivity].
Qed.

(** X13.  The identifier of a link is found exactly when the link has the
    shape [/vacancy/<digits>] somewhere in it, and what is found is the
    digit string of such a place. *)
Theorem X13_search_vacancy_iff (href : pystr) :
  (search_vacancy href <> None <-> exists id, vacancy_link href id)
  /\ (forall id, search_vacancy href = Some id -> vacancy_link href id).
Proof.
  split; [|intros id; apply search_vacancy_link].
  split.
  - destruct (search_vacancy href) as [id|] eqn:H; [|congruence].
    intros _. exists id. now apply search_vacancy_link.
  - intros (id & pre & post & -> & Hne & Hd & Hpost).
    induction pre as [|c pre IH].
    + cbn [app]. destruct (u"/vacancy/" ++ id ++ post) as [|x rest] eqn:Hs.
      * destruct id; [congruence | discriminate].
      * rewrite <- Hs. cbn [search_vacancy].
        assert (Hm := match_vacancy_here_found id post Hne Hd Hpost).
        destruct (u"/vacancy/" ++ id ++ post); cbn [search_vacancy]; rewrite Hm; discriminate.
    + cbn [app search_vacancy].
      destruct (match_vacancy_here (c :: pre ++ u"/vacancy/" ++ id ++ post));
        [discriminate | exact IH].
Qed.

Lemma int_of_digits_nonneg (ds : pystr) :
  digit_range U -> (0 <= int_of_digits ds)%Z.
Proof.
  intros Hr. unfold int_of_digits.
  assert (H : forall acc, (0 <= acc)%Z ->
                          (0 <= fold_left (fun a c => (10 * a + digit_val c)%Z) ds acc)%Z).
  { induction ds as [|c ds IH]; intros acc Hacc; cbn [fold_left]; [exact Hacc|].
    apply IH. unfold digit_val. destruct (decimal c) as [d|] eqn:Hd; [|lia].
    pose proof (Hr c d Hd). lia. }
  apply H. lia.
Qed.

(** X14.  A viewer count is never negative: no sign is read, a minus sign
    before the digits is skipped like any other character. *)
Theorem X14_parse_int_not_negative (text : pystr) (n : Z) :
  digit_range U -> _parse_int text = Ok (Some n) -> (0 <= n)%Z.
Proof.
  intros Hr. unfold _parse_int. destruct (negb (truthy text)); [discriminate|].
  destruct (search_digits (replace NBSP SPACE text)) as [run|]; [|discriminate].
  unfold py_int. destruct (int_too_long run); [discriminate|].
  intros H. injection H as <-. now apply int_of_digits_nonneg.
Qed.

End Items.

(** ** A listing that does not grow *)

Section StaticListing.

Context {E : Env}.

Local Open Scope nat_scope.

Lemma streak_after_static (prev k : nat) (cs : list nat) :
  Forall (fun c => c <= prev) cs -> streak_after prev k cs = k + List.length cs.
Proof.
  intros H. revert k. induction H as [|c cs Hc _ IH]; intros k; cbn [streak_after List.length].
  - lia.
  - destruct (Nat.ltb_spec prev c); [lia|]. rewrite IH. lia.
Qed.

Lemma static_firstn (prev j : nat) (cs : list nat) :
  Forall (fun c => c <= prev) cs -> Forall (fun c => c <= prev) (firstn j cs).
Proof.
  intros H. revert j. induction H as [|c cs Hc _ IH]; intros [|j]; cbn [firstn];
    constructor; [exact Hc | apply IH].
Qed.

(** X15.  On a listing whose count never exceeds the first count, the
    loader makes exactly [stable_rounds_needed] scrolls, at least one when
    that is zero or less, and never more than [max_scrolls]. *)
Theorem X15_scroll_until_all_loaded_static_listing
        (pause_ms max_scrolls stable_rounds_needed : Z) (st st' : St)
        (new : list Event) (prev : nat) (cs : list nat) :
  scroll_until_all_loaded pause_ms max_scrolls stable_rounds_needed st = (Ok tt, st') ->
  added st st' new ->
  count_answers new = prev :: cs ->
  Forall (fun c => c <= prev) cs ->
  scrolls new = Nat.min (Z.to_nat max_scrolls) (Nat.max 1 (Z.to_nat stable_rounds_needed)).
Proof.
  intros H Hadd Hcount Hstatic. unfold scroll_until_all_loaded in H.
  unbind H as p s1 H1. unbind H as q s2 H2. apply ret_inv in H. destruct H as [_ ->].
  apply call_log in H1. cbn [ret_type] in p.
  destruct (scroll_rounds_spec _ _ _ _ p 0 _ _ _ H2) as (nr & Hr & Hle & _ & Hok).
  destruct (Hok q eq_refl) as (Hlen & Hearly & Hsoon). clear Hok.
  assert (Hnew : new = nr ++ [Ev (Count (page_locator sel_vacancy)) (Ok p)]).
  { unfold added in Hadd, Hr. rewrite Hr, H1 in Hadd.
    change (nr ++ Ev (Count (page_locator sel_vacancy)) (Ok p) :: log st)
      with (nr ++ [Ev (Count (page_locator sel_vacancy)) (Ok p)] ++ log st) in Hadd.
    rewrite app_assoc in Hadd. apply app_inv_tail in Hadd. now symmetry. }
  subst new. rewrite count_answers_app in Hcount.
  change (count_answers [Ev (Count (page_locator sel_vacancy)) (Ok p)]) with [p] in Hcount.
  injection Hcount as -> Hcs. rewrite Hcs in *.
  rewrite scrolls_app. change (scrolls [Ev (Count (page_locator sel_vacancy)) (Ok prev)]) with 0.
  rewrite Nat.add_0_r, Hlen.
  set (L := List.length cs) in *.
  assert (Hj : forall j, 0 < j < L -> (Z.of_nat j < stable_rounds_needed)%Z).
  { intros j Hjl.
    assert (Hsj : streak_after prev 0 (firstn j cs) = j).
    { rewrite (streak_after_static _ _ _ (static_firstn prev j cs Hstatic)).
      rewrite length_firstn. fold L. lia. }
    destruct (Hsoon j Hjl) as [H0|Hlt]; rewrite Hsj in *; lia. }
  destruct (Nat.lt_ge_cases L (Z.to_nat max_scrolls)) as [Hshort|Hfull].
  - destruct (Hearly Hshort) as (_ & Hpos & Hneed).
    rewrite streak_after_static in Hpos, Hneed by exact Hstatic. fold L in Hpos, Hneed.
    destruct (Nat.eq_dec L 1) as [->|HL1]; [lia|].
    pose proof (Hj (L - 1) ltac:(lia)). lia.
  - assert (HL : L = Z.to_nat max_scrolls) by lia.
    destruct (Nat.le_gt_cases L 1) as [Hsmall|Hbig]; [lia|].
    pose proof (Hj (L - 1) ltac:(lia)). lia.
Qed.

End StaticListing.

(** ** The hide helper and the apply loop *)

Section HideAndRun.

Context {E : Env}.

Local Open Scope nat_scope.


(** X16.  One iteration of the apply loop of [run]: a card that is not
    found costs one count and nothing else; after [sent] or
    [cover_letter_filled] nothing more is done; after any other outcome the
    card is looked up again and, when it is there, [hide_vacancy_card] is
    run, whose answer, [True] or [False], ends the iteration normally. *)
Theorem X16_run_apply_one
        (fuel : nat) (cover_letter_template : option pystr) (v : Vacancy) (st : St) :
  let card := find_card_by_vacancy_id (vacancy_id v) in
  let letter := generate_cover_letter (title v) (description v) cover_letter_template in
  (forall s1,
      call (Count card) st = (Ok 0, s1) ->
      run_apply_one fuel cover_letter_template v st = (Ok (Some tt), s1))
  /\ (forall n s1 o s2,
         call (Count card) st = (Ok (S n), s1) ->
         click_apply_on_card fuel card (Some letter) 6 s1 = (Ok (Some o), s2) ->
         (o = sent \/ o = cover_letter_filled ->
          run_apply_one fuel cover_letter_template v st = (Ok (Some tt), s2))
         /\ (o <> sent -> o <> cover_letter_filled ->
             (forall s3,
                 call (Count card) s2 = (Ok 0, s3) ->
                 run_apply_one fuel cover_letter_template v st = (Ok (Some tt), s3))
             /\ (forall k s3 hidden s4,
                    call (Count card) s2 = (Ok (S k), s3) ->
                    hide_vacancy_card card 5000 s3 = (Ok hidden, s4) ->
                    run_apply_one fuel cover_letter_template v st = (Ok (Some tt), s4)))).
Proof.
  intros card letter. split.
  - intros s1 Hc. unfold run_apply_one. fold card. step. reflexivity.
  - intros n s1 o s2 Hc Hk. split.
    + intros Ho. unfold run_apply_one. fold card. fold letter. step. cbn [Nat.eqb]. step.
      destruct Ho as [-> | ->]; reflexivity.
    + intros Hs Hf. split.
      * intros s3 Hc2. unfold run_apply_one. fold card. fold letter.
        step. cbn [Nat.eqb]. step.
        destruct o; try congruence; step; reflexivity.
      * intros k s3 hidden s4 Hc2 Hh. unfold run_apply_one. fold card. fold letter.
        step. cbn [Nat.eqb]. step.
        destruct o; try congruence; step; cbn [Nat.ltb Nat.leb]; step; reflexivity.
Qed.

End HideAndRun.

(** ** A timeout that is not positive *)

Section NoTime.

Context {E : Env}.

Variable clock : World -> Q.
Hypothesis laws : clock_laws clock.

Local Open Scope Q_scope.

Lemma Qltb_ge (x y : Q) : y <= x -> Qltb x y = false.
Proof.
  intros H. unfold Qltb. apply negb_false_iff. now apply Qle_bool_iff.
Qed.

(** X18.  With a [poll_timeout_sec] of zero or less, and a clock that is
    not set back, the apply button is clicked and [unknown] is returned
    without one look at the page: the loop body is never entered. *)
Theorem X18_click_apply_on_card_no_time
        (fuel : nat) (card : Locator) (text : option pystr) (poll_timeout_sec : Q)
        (st s1 s2 s3 s4 s5 s6 : St) (url : pystr) (n : nat) (t now : Q) :
  poll_timeout_sec <= 0 ->
  call Url st = (Ok url, s1) ->
  call (ScrollIntoViewIfNeeded card 10000) s1 = (Ok tt, s2) ->
  call (Count (apply_button card)) s2 = (Ok (S n), s3) ->
  call (Click (apply_button card) None) s3 = (Ok tt, s4) ->
  call TimeTime s4 = (Ok t, s5) ->
  call TimeTime s5 = (Ok now, s6) ->
  click_apply_on_card (S fuel) card text poll_timeout_sec st = (Ok (Some unknown), s6).
Proof.
  intros Hneg Hu Hs Hc Hk Ht Hn.
  destruct laws as (Hread & Hmono & _).
  assert (Hlate : Qltb now (t + poll_timeout_sec) = false).
  { apply Qltb_ge.
    pose proof (call_world _ _ _ _ Ht) as [Ht1 Hw5].
    pose proof (call_world _ _ _ _ Hn) as [Hn1 _].
    symmetry in Ht1, Hn1. apply Hread in Ht1. apply Hread in Hn1.
    pose proof (Hmono TimeTime (world s4) eq_refl) as Hfw. rewrite <- Hw5 in Hfw.
    lra. }
  unfold click_apply_on_card. fold (apply_button card).
  steps. cbn [Nat.eqb]. steps. cbn [poll_loop]. step. rewrite Hlate. reflexivity.
Qed.

End NoTime.

(** ** The query presets *)

(** X17.  For every role name, known or not, the default query is the
    first of all the queries of the role and is not empty; the queries of
    a role are one of the three tables, and a role name other than
    [qa_lead] and [backend] gets the React ones. *)
Theorem X17_query_presets (role : pystr) :
  get_default_query role = item0 (get_all_queries role)
  /\ get_default_query role <> []
  /\ In (get_all_queries role)
        [REACT_NEXTJS_QUERIES; QA_LEAD_QUERIES; BACKEND_DEVELOPER_QUERIES]
  /\ (role <> u"qa_lead" -> role <> u"backend" ->
      get_all_queries role = REACT_NEXTJS_QUERIES)
  /\ get_all_queries (u"qa_lead") = QA_LEAD_QUERIES
  /\ get_all_queries (u"backend") = BACKEND_DEVELOPER_QUERIES.
Proof.
  assert (Hqa : get_all_queries (u"qa_lead") = QA_LEAD_QUERIES) by (vm_compute; reflexivity).
  assert (Hbe : get_all_queries (u"backend") = BACKEND_DEVELOPER_QUERIES)
    by (vm_compute; reflexivity).
  assert (Hne : item0 REACT_NEXTJS_QUERIES <> [] /\ item0 QA_LEAD_QUERIES <> []
                /\ item0 BACKEND_DEVELOPER_QUERIES <> [])
    by (repeat split; vm_compute; discriminate).
  destruct Hne as (Hn1 & Hn2 & Hn3).
  assert (Hcases : (get_default_query role = item0 REACT_NEXTJS_QUERIES
                    /\ get_all_queries role = REACT_NEXTJS_QUERIES)
                   \/ (role = u"qa_lead"
                       /\ get_default_query role = item0 QA_LEAD_QUERIES
                       /\ get_all_queries role = QA_LEAD_QUERIES)
                   \/ (role = u"backend"
                       /\ get_default_query role = item0 BACKEND_DEVELOPER_QUERIES
                       /\ get_all_queries role = BACKEND_DEVELOPER_QUERIES)).
  { unfold get_default_query, get_all_queries, dict_get. cbn [find fst snd].
    destruct (pystr_eqb (u"react_nextjs") role) eqn:H1;
      [left; split; reflexivity|].
    destruct (pystr_eqb (u"qa_lead") role) eqn:H2.
    { right. left. apply pystr_eqb_eq in H2.
      split; [symmetry; exact H2|]. split; reflexivity. }
    destruct (pystr_eqb (u"backend") role) eqn:H3.
    { right. right. apply pystr_eqb_eq in H3.
      split; [symmetry; exact H3|]. split; reflexivity. }
    left. split; reflexivity. }
  set (R := REACT_NEXTJS_QUERIES) in *. set (QA := QA_LEAD_QUERIES) in *.
  set (B := BACKEND_DEVELOPER_QUERIES) in *. clearbody R QA B.
  destruct Hcases as [(Hd & Ha)|[(Hr & Hd & Ha)|(Hr & Hd & Ha)]]; rewrite Hd, Ha.
  - split; [reflexivity|]. split; [exact Hn1|]. split; [left; reflexivity|].
    split; [intros _ _; reflexivity|]. split; [exact Hqa | exact Hbe].
  - split; [reflexivity|]. split; [exact Hn2|]. split; [right; left; reflexivity|].
    split; [intros Hq _; exfalso; apply Hq; exact Hr|]. split; [exact Hqa | exact Hbe].
  - split; [reflexivity|]. split; [exact Hn3|]. split; [right; right; left; reflexivity|].
    split; [intros _ Hb; exfalso; apply Hb; exact Hr|]. split; [exact Hqa | exact Hbe].
Qed.

(** * The further properties on the sample pages *)

(** X2 on the modal that accepts the letter. *)
Lemma X2_witness :
  let st := toy_state (page_modal true) toy_clicked in
  fst (fill_and_submit_cover_letter (u"Добрый день!") 10000 st) = Ok true
  /\ exists new,
      added st (snd (fill_and_submit_cover_letter (u"Добрый день!") 10000 st)) new
      /\ In (Ev (Fill letter_input (u"Добрый день!")) (Ok tt)) new
      /\ In (Ev (Click submit_button None) (Ok tt)) new.
Proof.
  intros st. split; [vm_compute; reflexivity|].
  assert (H : fill_and_submit_cover_letter (u"Добрый день!") 10000 st
              = (Ok true, snd (fill_and_submit_cover_letter (u"Добрый день!") 10000 st)))
    by (vm_compute; reflexivity).
  destruct (@X2_fill_and_submit_cover_letter_true (toy_env (page_modal true)) _ _ _ _ H)
    as (new & Hadd & Hfill & Hclick & _).
  exists new. split; [exact Hadd|]. split; [exact Hfill|].
  destruct Hclick as [Hc|Hc]; [exact Hc|].
  exfalso. unfold added in Hadd. cbn [log st toy_state start] in Hadd.
  rewrite app_nil_r in Hadd. rewrite <- Hadd in Hc. vm_compute in Hc.
  repeat (destruct Hc as [Hc|Hc]; [discriminate|]). exact Hc.
Defined.

(** X3 on the card that has a hide button and cannot be scrolled to. *)
Lemma X3_witness :
  fst (hide_vacancy_card a_card 5000 (toy_state page_hide_card_gone toy_start))
  = Raised TimeoutError.
Proof.
  apply (@X3_hide_vacancy_card_raises_iff (toy_env page_hide_card_gone)).
  right. exists 0%nat, (snd (call (Count (hide_icon a_card))
                                 (toy_state page_hide_card_gone toy_start))).
  split; vm_compute; reflexivity.
Defined.

(** X4 on a close button that cannot be clicked, and on no close button. *)
Lemma X4_witness :
  fst (close_response_modal_if_open (toy_state page_close_covered toy_start))
  = Raised TimeoutError
  /\ fst (close_response_modal_if_open (toy_state page_silent toy_start)) = Ok tt.
Proof.
  split.
  - apply (@X4_close_response_modal_if_open (toy_env page_close_covered)).
    right. exists 0%nat, (snd (call (Count close_button)
                                   (toy_state page_close_covered toy_start))).
    split; vm_compute; reflexivity.
  - destruct (@X4_close_response_modal_if_open (toy_env page_silent)
                (toy_state page_silent toy_start)) as [_ H].
    rewrite (H (snd (call (Count close_button) (toy_state page_silent toy_start))));
      [reflexivity | vm_compute; reflexivity].
Defined.

(** X5, X6, X7 and X19 on sample pages. *)
Lemma X5_witness :
  exists new,
    added (toy_state (page_modal false) toy_clicked)
          (snd (is_cover_letter_required_modal (toy_state (page_modal false) toy_clicked))) new
    /\ only is_count new.
Proof.
  destruct (@X5_detectors_only_count (toy_env (page_modal false))) as [_ H].
  exact (H (toy_state (page_modal false) toy_clicked) _ _ (surjective_pairing _)).
Defined.

Lemma X6_witness :
  exists new,
    added (toy_state page_listing toy_start)
          (snd (@collect_vacancies_for_apply ascii_only (toy_env page_listing) 10
                  (toy_state page_listing toy_start))) new
    /\ only leaves_page new.
Proof.
  exact (@X6_collect_vacancies_for_apply_leaves_page ascii_only (toy_env page_listing) 10
           (toy_state page_listing toy_start) _ _ (surjective_pairing _)).
Defined.



(** X8 on the redirect to the employer's questions with a working
    [go_back], and on the redirect elsewhere with a failing one. *)
Lemma X8_witness :
  fst (poll_round serp_url None (toy_state (page_redirect true false) toy_clicked))
  = Ok (Some test_required)
  /\ fst (poll_round serp_url None (toy_state (page_redirect false true) toy_clicked))
     = Ok (Some extra_steps).
Proof.
  split.
  - set (st := toy_state (page_redirect true false) toy_clicked).
    pose (s1 := snd (call (Count success_toast) st)).
    pose (s2 := snd (is_cover_letter_required_modal s1)).
    pose (s3 := snd (call Url s2)).
    pose (s4 := snd (is_test_page s3)).
    pose (s5 := snd (call GoBack s4)).
    pose (s6 := snd (call (WaitForSelector sel_vacancy 15000) s5)).
    destruct (@X8_redirect_branch (toy_env (page_redirect true false)) serp_url None
                st s1 s2 s3 questions_url) as [_ H];
      [vm_compute; reflexivity | vm_compute; reflexivity | vm_compute; reflexivity |].
    destruct (H ltac:(vm_compute; discriminate) true s4) as [Hback _];
      [vm_compute; reflexivity|].
    rewrite (Hback s5 s6); vm_compute; reflexivity.
  - set (st := toy_state (page_redirect false true) toy_clicked).
    pose (s1 := snd (call (Count success_toast) st)).
    pose (s2 := snd (is_cover_letter_required_modal s1)).
    pose (s3 := snd (call Url s2)).
    pose (s4 := snd (is_test_page s3)).
    pose (s5 := snd (call GoBack s4)).
    pose (s6 := snd (call (Goto serp_url) s5)).
    pose (s7 := snd (call (WaitForSelector sel_vacancy 15000) s6)).
    destruct (@X8_redirect_branch (toy_env (page_redirect false true)) serp_url None
                st s1 s2 s3 questions_url) as [_ H];
      [vm_compute; reflexivity | vm_compute; reflexivity | vm_compute; reflexivity |].
    destruct (H ltac:(vm_compute; discriminate) false s4) as [_ Hgoto];
      [vm_compute; reflexivity|].
    rewrite (Hgoto PlaywrightError s5 s6 s7); vm_compute; reflexivity.
Defined.

(** The clock of the sample pages obeys the laws. *)
Lemma toy_clock_laws (sc : Scenario) : @clock_laws (toy_env sc) toy_clock.
Proof.
  unfold clock_laws. cbn [exec toy_env World]. split; [|split].
  - intros w t. unfold toy_answer.
    destruct (sc_raises sc w TimeTime); cbn [fst]; intros H; [discriminate|].
    injection H as <-. apply Qeq_refl.
  - intros c w Hc. destruct (sc_raises sc w c); cbn [snd]; [apply Qle_refl|].
    destruct c; cbn [toy_next toy_clock]; try apply Qle_refl.
    rewrite Qred_correct. cbn [sane_call] in Hc. apply Z.leb_le in Hc.
    assert (H : (0 <= inject_Z ms / 1000)%Q).
    { apply Qle_shift_div_l; [reflexivity|]. rewrite Qmult_0_l.
      change 0%Q with (inject_Z 0). now rewrite <- Zle_Qle. }
    lra.
  - intros ms w. unfold toy_answer.
    destruct (sc_raises sc w (WaitForTimeout ms)); cbn [fst snd]; intros H; [discriminate|].
    cbn [toy_next toy_clock]. rewrite Qred_correct. apply Qle_refl.
Defined.

(** X9 on the page where the click changes nothing: 31 rounds are
    enough, and the outcome is [unknown]. *)
Lemma X9_witness :
  (6 * 5 <= inject_Z (Z.of_nat 30))%Q
  /\ fst (click_apply_on_card 31 a_card None 6 (toy_state page_silent toy_start)) <> Ok None.
Proof.
  assert (H : (6 * 5 <= inject_Z (Z.of_nat 30))%Q) by (vm_compute; discriminate).
  split; [exact H|].
  exact (@X9_click_apply_on_card_ends (toy_env page_silent) toy_clock
           (toy_clock_laws page_silent) 30 a_card None 6
           (toy_state page_silent toy_start) _ _ H (surjective_pairing _)).
Defined.

Example silent_page_gives_unknown :
  fst (click_apply_on_card 31 a_card None 6 (toy_state page_silent toy_start))
  = Ok (Some unknown).
Proof. vm_compute. reflexivity. Qed.

(** X10 on the page that shows the toast. *)
Lemma X10_witness :
  exists new,
    added (toy_state page_sent toy_start)
          (snd (click_apply_on_card 31 a_card None 6 (toy_state page_sent toy_start))) new
    /\ clicked_once a_card (Ok tt) new.
Proof.
  destruct (@X10_apply_button_clicked_once (toy_env page_sent) 31 a_card None 6
              (toy_state page_sent toy_start) _ _ (surjective_pairing _))
    as (new & Hadd & _ & _ & Honce).
  exists new. split; [exact Hadd|].
  apply (Honce (Some sent)); [vm_compute; reflexivity | discriminate].
Defined.

(** X11 and X12 on the sample listing. *)
Lemma X11_witness :
  exists result,
    fst (@collect_vacancies_for_apply ascii_only (toy_env page_listing) 10
           (toy_state page_listing toy_start)) = Ok result
    /\ List.length result = 2%nat
    /\ Forall (@item_invariant ascii_only) result.
Proof.
  destruct (@collect_vacancies_for_apply ascii_only (toy_env page_listing) 10
              (toy_state page_listing toy_start)) as [[result|e] st'] eqn:H.
  - exists result. split; [reflexivity|]. split.
    + vm_compute in H. injection H as <- _. reflexivity.
    + exact (@X11_collect_vacancies_for_apply_items ascii_only (toy_env page_listing)
               10 _ _ _ H).
  - vm_compute in H. discriminate.
Defined.

(** X12 on the sample listing, with the limit 0. *)
Lemma X12_witness :
  (0 <= 0)%Z
  /\ exists result,
      fst (@collect_vacancies_for_apply ascii_only (toy_env page_listing) 0
             (toy_state page_listing toy_start)) = Ok result
      /\ exists (new : list Event) (total : nat),
          added (toy_state page_listing toy_start)
                (snd (@collect_vacancies_for_apply ascii_only (toy_env page_listing) 0
                        (toy_state page_listing toy_start))) new
          /\ In (Ev (Count (page_locator sel_vacancy)) (Ok total)) new
          /\ ((result = []
               /\ forall j, (j < total)%nat
                            -> @passed_over ascii_only (page_locator sel_vacancy) new j)
              \/ exists v k,
                  result = [v] /\ (k < total)%nat
                  /\ @made_from ascii_only (page_locator sel_vacancy) new k v
                  /\ forall j, (j < k)%nat
                               -> @passed_over ascii_only (page_locator sel_vacancy) new j).
Proof.
  assert (Hlimit : (0 <= 0)%Z) by reflexivity.
  split; [exact Hlimit|].
  destruct (@collect_vacancies_for_apply ascii_only (toy_env page_listing) 0
              (toy_state page_listing toy_start)) as [[result|e] st'] eqn:H.
  - exists result. split; [reflexivity|].
    exact (@X12_collect_vacancies_for_apply_limit_not_positive ascii_only
             (toy_env page_listing) 0 _ _ _ Hlimit H).
  - vm_compute in H. discriminate.
Defined.

(** On the sample listing a limit below zero gives the item of the first
    card, as the limit 1 does. *)
Example limit_below_zero_gives_first_card :
  fst (@collect_vacancies_for_apply ascii_only (toy_env page_listing) (-5)
         (toy_state page_listing toy_start))
  = Ok [ {| vacancy_id := u"101"; title := u"React developer";
            watchers_text := u"Сейчас смотрят —"; watchers_count := None;
            description := None |} ]
  /\ fst (@collect_vacancies_for_apply ascii_only (toy_env page_listing) (-5)
            (toy_state page_listing toy_start))
     = fst (@collect_vacancies_for_apply ascii_only (toy_env page_listing) 1
              (toy_state page_listing toy_start)).
Proof. split; vm_compute; reflexivity. Qed.

(** X13 on a link of the listing. *)
Lemma X13_witness :
  @search_vacancy ascii_only (u"https://hh.ru/vacancy/101?query=React") <> None.
Proof.
  apply (@X13_search_vacancy_iff ascii_only).
  exists (u"101"), (u"https://hh.ru"), (u"?query=React").
  split; [vm_compute; reflexivity|]. split; [discriminate|].
  split; [|vm_compute; reflexivity].
  vm_compute. repeat constructor.
Defined.

(** The ASCII digits have the values 0 to 9. *)
Lemma ascii_only_range : digit_range ascii_only.
Proof.
  intros c d. cbn [decimal ascii_only]. unfold ascii_decimal.
  destruct ((48 <=? c) && (c <=? 57)) eqn:H; [|discriminate].
  apply andb_true_iff in H. destruct H as [H1 H2].
  apply N.leb_le in H1, H2. intros Hd. injection Hd as <-. lia.
Defined.

(** X14 on a text with a minus sign. *)
Lemma X14_witness :
  digit_range ascii_only
  /\ exists n, @_parse_int ascii_only (u"-5 смотрят") = Ok (Some n) /\ (0 <= n)%Z.
Proof.
  split; [exact ascii_only_range|]. exists 5%Z.
  assert (H : @_parse_int ascii_only (u"-5 смотрят") = Ok (Some 5%Z)) by (vm_compute; reflexivity).
  split; [exact H|].
  exact (@X14_parse_int_not_negative ascii_only _ _ ascii_only_range H).
Defined.

(** X15 on the page whose listing stays empty. *)
Lemma X15_witness :
  scrolls (log (snd (scroll_until_all_loaded 900 50 3 (toy_state page_silent toy_start))))
  = Nat.min (Z.to_nat 50) (Nat.max 1 (Z.to_nat 3)).
Proof.
  set (st := toy_state page_silent toy_start).
  apply (@X15_scroll_until_all_loaded_static_listing (toy_env page_silent)
           900 50 3 st (snd (scroll_until_all_loaded 900 50 3 st)) _ 0%nat [0; 0; 0]%nat).
  - vm_compute. reflexivity.
  - unfold added. cbn [log st toy_state start]. now rewrite app_nil_r.
  - vm_compute. reflexivity.
  - repeat constructor.
Defined.

(** X16 on the page that shows the toast, and on a page without the card. *)
Lemma X16_witness :
  fst (run_apply_one 31 None a_vacancy (toy_state page_sent toy_start)) = Ok (Some tt)
  /\ fst (run_apply_one 31 None a_vacancy (toy_state page_silent toy_start)) = Ok (Some tt).
Proof.
  split.
  - set (st := toy_state page_sent toy_start).
    pose (s1 := snd (call (Count (find_card_by_vacancy_id (vacancy_id a_vacancy))) st)).
    pose (s2 := snd (click_apply_on_card
                       31 (find_card_by_vacancy_id (vacancy_id a_vacancy))
                       (Some (generate_cover_letter (title a_vacancy) (description a_vacancy)
                                                    None)) 6 s1)).
    destruct (@X16_run_apply_one (toy_env page_sent) 31 None a_vacancy st) as [_ H].
    destruct (H 0%nat s1 sent s2) as [Hsent _];
      [vm_compute; reflexivity | vm_compute; reflexivity |].
    rewrite Hsent; [reflexivity | now left].
  - set (st := toy_state page_silent toy_start).
    destruct (@X16_run_apply_one (toy_env page_silent) 31 None a_vacancy st) as [H _].
    rewrite (H (snd (call (Count (find_card_by_vacancy_id (vacancy_id a_vacancy))) st)));
      [reflexivity | vm_compute; reflexivity].
Defined.

(** X17 on a role name that is not a preset. *)
Lemma X17_witness :
  get_default_query (u"frontend") = item0 REACT_NEXTJS_QUERIES
  /\ get_all_queries (u"frontend") = REACT_NEXTJS_QUERIES.
Proof.
  destruct (X17_query_presets (u"frontend")) as (Hd & _ & _ & Hall & _).
  rewrite Hd, Hall; [split; reflexivity | | ]; vm_compute; discriminate.
Defined.

(** X18 on the page where the click changes nothing. *)
Lemma X18_witness :
  fst (click_apply_on_card 31 a_card None 0 (toy_state page_silent toy_start))
  = Ok (Some unknown).
Proof.
  set (st := toy_state page_silent toy_start).
  pose (s1 := snd (call Url st)).
  pose (s2 := snd (call (ScrollIntoViewIfNeeded a_card 10000) s1)).
  pose (s3 := snd (call (Count (apply_button a_card)) s2)).
  pose (s4 := snd (call (Click (apply_button a_card) None) s3)).
  pose (s5 := snd (call TimeTime s4)).
  pose (s6 := snd (call TimeTime s5)).
  rewrite (@X18_click_apply_on_card_no_time (toy_env page_silent) toy_clock
             (toy_clock_laws page_silent) 30 a_card None 0
             st s1 s2 s3 s4 s5 s6 serp_url 0%nat 0 0);
    [reflexivity | vm_compute; discriminate | vm_compute; reflexivity ..].
Defined.

(** ** The whole apply loop *)

Section ApplyLoop.

Context {E : Env}.

Local Open Scope nat_scope.

Lemma apply_clicks_app (a b : list Event) : apply_clicks (a ++ b) = apply_clicks a + apply_clicks b.
Proof. unfold apply_clicks. now rewrite filter_app, length_app. Qed.

Lemma apply_clicks_none (new : list Event) : only not_apply_click new -> apply_clicks new = 0.
Proof.
  unfold apply_clicks. induction 1 as [|e new He _ IH]; [reflexivity|].
  cbn [filter]. unfold not_apply_click in He. apply negb_true_iff in He.
  now rewrite He.
Qed.

Lemma apply_clicks_once (card : Locator) (r : Res unit) (new : list Event) :
  clicked_once card r new -> apply_clicks new = 1.
Proof.
  intros (after & before & -> & Ha & Hb).
  rewrite apply_clicks_app.
  change (Ev (Click (apply_button card) None) r :: before)
    with ([Ev (Click (apply_button card) None) r] ++ before).
  rewrite apply_clicks_app, (apply_clicks_none _ Ha), (apply_clicks_none _ Hb).
  reflexivity.
Qed.

Lemma at_most_bind {A B} (a b : nat) (m : M A) (k : A -> M B) :
  emits (at_most a) m -> (forall x, emits (at_most b) (k x)) ->
  emits (at_most (a + b)) (bind m k).
Proof.
  intros Hm Hk. apply (emits_bind (at_most a) (at_most b)); [assumption | assumption | |].
  - unfold at_most. intros n1 H. lia.
  - unfold at_most. intros n1 n2 H1 H2. rewrite apply_clicks_app. lia.
Qed.

Lemma none_at_most {A} (m : M A) : emits (only not_apply_click) m -> emits (at_most 0) m.
Proof.
  apply emits_weaken. intros n H. unfold at_most. now rewrite (apply_clicks_none _ H).
Qed.

Lemma click_apply_on_card_at_most
      (fuel : nat) (card : Locator) (text : option pystr) (poll_timeout_sec : Q) :
  emits (at_most 1) (click_apply_on_card fuel card text poll_timeout_sec).
Proof.
  intros s r s' H.
  destruct (click_apply_on_card_clicks _ _ _ _ _ _ _ H) as (new & Hadd & Hone & _).
  exists new. split; [exact Hadd|]. unfold at_most.
  destruct Hone as [Hnone|(rc & Honce)].
  - rewrite (apply_clicks_none _ Hnone). lia.
  - rewrite (apply_clicks_once _ _ _ Honce). lia.
Qed.

Lemma run_apply_one_at_most (fuel : nat) (template : option pystr) (v : Vacancy) :
  emits (at_most 1) (run_apply_one fuel template v).
Proof.
  unfold run_apply_one.
  apply (at_most_bind 0 1); [apply none_at_most; only_tac | intros n; cbv beta].
  destruct (n =? 0); [apply (emits_weaken (at_most 0)); [unfold at_most; lia|];
                      apply none_at_most; only_tac|].
  apply (at_most_bind 1 0); [apply click_apply_on_card_at_most | intros status; cbv beta].
  apply none_at_most.
  destruct status as [o|]; [|only_tac].
  destruct o; try (apply only_ret);
    (apply only_bind; [only_tac | intros k; cbv beta]; destruct (0 <? k); [|only_tac];
     apply only_bind; [unfold hide_vacancy_card; only_tac | intros; only_tac]).
Qed.

Lemma run_apply_loop_at_most (fuel : nat) (template : option pystr) (vacancies : list Vacancy) :
  emits (at_most (List.length vacancies)) (run_apply_loop fuel template vacancies).
Proof.
  induction vacancies as [|v rest IH]; cbn [run_apply_loop List.length].
  - apply none_at_most. only_tac.
  - apply (at_most_bind 1 (List.length rest)); [apply run_apply_one_at_most|].
    intros [x|]; [exact IH|].
    apply (emits_weaken (at_most 0)); [unfold at_most; lia | apply none_at_most; only_tac].
Qed.

(** X21.  The apply loop of [run] clicks an apply button at most once for
    each vacancy of its list, whatever the page does and however the loop
    ends. *)
Theorem X21_run_apply_loop_one_click_per_vacancy
        (fuel : nat) (cover_letter_template : option pystr) (vacancies : list Vacancy)
        (st st' : St) (r : Res (option unit)) :
  run_apply_loop fuel cover_letter_template vacancies st = (r, st') ->
  exists new, added st st' new /\ apply_clicks new <= List.length vacancies.
Proof. apply run_apply_loop_at_most. Qed.

End ApplyLoop.

Section ApplyLoopEnds.

Context {E : Env}.

Variable clock : World -> Q.
Hypothesis laws : clock_laws clock.

Lemma run_apply_one_ends (fuel : nat) (template : option pystr) (v : Vacancy)
      (st st' : St) (r : Res (option unit)) :
  (6 * 5 <= inject_Z (Z.of_nat fuel))%Q ->
  run_apply_one (S fuel) template v st = (r, st') ->
  r <> Ok None.
Proof.
  intros Hfuel H. unfold run_apply_one in H.
  apply bind_inv in H. destruct H as [(n & s1 & _ & H)|(e & _ & ->)]; [|discriminate].
  destruct (n =? 0)%nat.
  { apply ret_inv in H. destruct H as [-> _]. discriminate. }
  apply bind_inv in H. destruct H as [(status & s2 & Hk & H)|(e & _ & ->)]; [|discriminate].
  pose proof (click_apply_on_card_ends clock laws _ _ _ _ _ _ _ Hfuel Hk) as Hsome.
  destruct status as [o|]; [|congruence].
  destruct o;
    try (apply ret_inv in H; destruct H as [-> _]; discriminate);
    (apply bind_inv in H; destruct H as [(k & s3 & _ & H)|(e & _ & ->)]; [|discriminate];
     destruct (0 <? k)%nat;
     [apply bind_inv in H; destruct H as [(b & s4 & _ & H)|(e & _ & ->)]; [|discriminate]|];
     apply ret_inv in H; destruct H as [-> _]; discriminate).
Qed.

(** X20.  The apply loop of [run] ends: with a clock that is not set back
    and sleeps that take their length, 31 polling rounds for each vacancy
    are always enough, so the loop returns or raises and never stays in
    the polling of one vacancy. *)
Theorem X20_run_apply_loop_ends
        (fuel : nat) (cover_letter_template : option pystr) (vacancies : list Vacancy)
        (st st' : St) (r : Res (option unit)) :
  (6 * 5 <= inject_Z (Z.of_nat fuel))%Q ->
  run_apply_loop (S fuel) cover_letter_template vacancies st = (r, st') ->
  r <> Ok None.
Proof.
  intros Hfuel. revert st.
  induction vacancies as [|v rest IH]; intros st H; cbn [run_apply_loop] in H.
  - apply ret_inv in H. destruct H as [-> _]. discriminate.
  - apply bind_inv in H. destruct H as [(x & s1 & H1 & H)|(e & _ & ->)]; [|discriminate].
    pose proof (run_apply_one_ends _ _ _ _ _ _ Hfuel H1) as Hsome.
    destruct x as [x|]; [|congruence].
    exact (IH _ H).
Qed.

End ApplyLoopEnds.

(** X20 and X21 on the page that shows the toast, with two vacancies. *)
Lemma X20_witness :
  (6 * 5 <= inject_Z (Z.of_nat 30))%Q
  /\ fst (run_apply_loop 31 None two_vacancies (toy_state page_sent toy_start)) <> Ok None.
Proof.
  assert (H : (6 * 5 <= inject_Z (Z.of_nat 30))%Q) by (vm_compute; discriminate).
  split; [exact H|].
  exact (@X20_run_apply_loop_ends (toy_env page_sent) toy_clock (toy_clock_laws page_sent)
           30 None two_vacancies (toy_state page_sent toy_start) _ _ H
           (surjective_pairing _)).
Defined.

Lemma X21_witness :
  exists new,
    added (toy_state page_sent toy_start)
          (snd (run_apply_loop 31 None two_vacancies (toy_state page_sent toy_start))) new
    /\ (apply_clicks new <= 2)%nat.
Proof.
  exact (@X21_run_apply_loop_one_click_per_vacancy (toy_env page_sent) 31 None two_vacancies
           (toy_state page_sent toy_start) _ _ (surjective_pairing _)).
Defined.

Example two_vacancies_two_clicks :
  fst (run_apply_loop 31 None two_vacancies (toy_state page_sent toy_start)) = Ok (Some tt)
  /\ apply_clicks (log (snd (run_apply_loop 31 None two_vacancies
                               (toy_state page_sent toy_start)))) = 2%nat.
Proof. split; vm_compute; reflexivity. Qed.
